(** * neural_style/utils.py: colour transfer, batch preprocessing, style loader

    A shallow embedding of the numeric helpers of [neural_style/utils.py].
    Tensor entries are real numbers: every statement below is about the
    exact-arithmetic reading of the code.  The two places where IEEE
    arithmetic leaves the reals (a division by zero, the unbiased standard
    deviation of a single sample) are modelled as the outcome [NonFinite],
    after which the real-number model says nothing more.

    Library calls of torch are embedded by their documented meaning:
    - [torch.svd] is a section variable [svd] returning [(U, D, V)];
      its contract [x = U diag(D) V^T] is the predicate [is_svd];
    - [Tensor.inverse] is the adjugate formula, raising on a zero determinant;
    - [*] of two tensors is the element-wise product, [@] the matrix product;
    - [mean(1, True)] and [std(1, True)] reduce along dimension 1 and keep it
      ([std] with the unbiased estimator, torch's default);
    - a new tensor [tensortype(size)] holds whatever its memory held: the
      section variable [uninitialized];
    - PIL and the file system are the section variables [image_open],
      [resize] and [listdir]; saving an image is embedded up to the array
      handed to [Image.fromarray].

    [init_vgg16] only moves files and weights between the network, the disk
    and a model object, and is not embedded. *)

From Stdlib Require Import String Ascii.
From Stdlib Require Import Reals List Lra Lia ZArith Bool Psatz.
Import ListNotations.

Local Open Scope R_scope.

(** ** Outcomes of a call *)

Inductive failure : Type :=
| ShapeError        (* view / unpacking on an incompatible shape *)
| DeviceError       (* operands living on different devices *)
| SingularMatrix    (* inverse of a matrix with zero determinant *)
| ValueError        (* unpacking a tuple of the wrong length *)
| ZeroDivisionError (* integer division or modulo by zero *)
| IndexError        (* list index out of range *)
| IOError           (* a file that cannot be read *)
| NonFinite.        (* an IEEE division by zero: inf or NaN entries *)

Inductive res (A : Type) : Type :=
| Ok (a : A)
| Fail (e : failure).

Arguments Ok {A} a.
Arguments Fail {A} e.

Definition bind {A B : Type} (m : res A) (k : A -> res B) : res B :=
  match m with
  | Ok a => k a
  | Fail e => Fail e
  end.

Notation "x <- m ;; k" := (bind m (fun x => k))
  (at level 61, m at next level, right associativity).
Notation "' p <- m ;; k" := (bind m (fun x => let p := x in k))
  (at level 61, p pattern, m at next level, right associativity).

(** ** Devices *)

Inductive device : Type := CPU | CUDA.

Definition device_eqb (a b : device) : bool :=
  match a, b with
  | CPU, CPU | CUDA, CUDA => true
  | _, _ => false
  end.

(** A value together with the device that holds it. *)
Record on (A : Type) : Type := On { dev : device; val : A }.

Arguments On {A} dev val.
Arguments dev {A} o.
Arguments val {A} o.

Definition same_device (a b : device) : res device :=
  if device_eqb a b then Ok a else Fail DeviceError.

(** A unary tensor operation stays on the operand's device. *)
Definition unop {A B : Type} (f : A -> B) (x : on A) : on B :=
  On (dev x) (f (val x)).

Definition unop_r {A B : Type} (f : A -> res B) (x : on A) : res (on B) :=
  b <- f (val x) ;; Ok (On (dev x) b).

(** A binary tensor operation wants both operands on one device. *)
Definition binop_r {A B C : Type} (f : A -> B -> res C) (x : on A) (y : on B)
  : res (on C) :=
  d <- same_device (dev x) (dev y) ;;
  c <- f (val x) (val y) ;;
  Ok (On d c).

Definition binop {A B C : Type} (f : A -> B -> C) (x : on A) (y : on B)
  : res (on C) :=
  binop_r (fun a b => Ok (f a b)) x y.

(** [t.cuda()]: raises on a host without accelerator. *)
Definition to_cuda {A : Type} (available : bool) (x : on A) : res (on A) :=
  if available then Ok (On CUDA (val x)) else Fail DeviceError.

(** ** Data *)

(** A tensor of any shape: its sizes and its entries in row-major order. *)
Record tensor : Type := Tensor { tshape : list nat; tdata : list R }.

Definition numel (sh : list nat) : nat := fold_right Nat.mul 1%nat sh.

Definition well_shaped (t : tensor) : Prop :=
  length (tdata t) = numel (tshape t).

(** A (3, N) matrix, by rows: one row per colour channel. *)
Record rows3 : Type := Rows { row0 : list R; row1 : list R; row2 : list R }.

(** A (3, 1) column or a length-3 vector. *)
Record vec3 : Type := V3 { v0 : R; v1 : R; v2 : R }.

(** A (3, 3) matrix. *)
Record mat3 : Type := M3 {
  m00 : R; m01 : R; m02 : R;
  m10 : R; m11 : R; m12 : R;
  m20 : R; m21 : R; m22 : R }.

(** ** Tensor operations used by [color_match] *)

(** [t.view(3, -1)] *)
Definition view3 (t : tensor) : res rows3 :=
  let d := tdata t in
  let n := length d in
  if ((n =? 0) || negb (n mod 3 =? 0))%nat then Fail ShapeError
  else
    let k := (n / 3)%nat in
    Ok (Rows (firstn k d) (firstn k (skipn k d)) (skipn (2 * k) d)).

(** [x.view_as(like)] *)
Definition view_as (x : rows3) (like : tensor) : res tensor :=
  let d := row0 x ++ row1 x ++ row2 x in
  if (length d =? numel (tshape like))%nat
  then Ok (Tensor (tshape like) d)
  else Fail ShapeError.

Definition rsum (l : list R) : R := fold_right Rplus 0 l.

Definition rmean (l : list R) : R := rsum l / INR (length l).

(** Unbiased (N-1) standard deviation of one row; a single sample gives 0/0. *)
Definition rstd (l : list R) : res R :=
  if (length l <=? 1)%nat then Fail NonFinite
  else
    let m := rmean l in
    Ok (sqrt (rsum (map (fun v => (v - m) * (v - m)) l) / INR (length l - 1))).

(** [x.mean(1, True)] *)
Definition mean1 (x : rows3) : vec3 :=
  V3 (rmean (row0 x)) (rmean (row1 x)) (rmean (row2 x)).

(** [x.std(1, True)] *)
Definition std1 (x : rows3) : res vec3 :=
  s0 <- rstd (row0 x) ;;
  s1 <- rstd (row1 x) ;;
  s2 <- rstd (row2 x) ;;
  Ok (V3 s0 s1 s2).

(** Broadcasting a (3, 1) column over a (3, N) matrix. *)
Definition bmap (f : R -> R -> R) (x : rows3) (c : vec3) : rows3 :=
  Rows (map (fun a => f a (v0 c)) (row0 x))
       (map (fun a => f a (v1 c)) (row1 x))
       (map (fun a => f a (v2 c)) (row2 x)).

Definition bsub : rows3 -> vec3 -> rows3 := bmap Rminus.
Definition badd : rows3 -> vec3 -> rows3 := bmap Rplus.
Definition bmul : rows3 -> vec3 -> rows3 := bmap Rmult.

Definition is_zero (r : R) : bool := if Req_dec_T r 0 then true else false.

(** [x / c]: dividing by a zero entry leaves the reals. *)
Definition bdiv (x : rows3) (c : vec3) : res rows3 :=
  if is_zero (v0 c) || is_zero (v1 c) || is_zero (v2 c)
  then Fail NonFinite
  else Ok (bmap Rdiv x c).

Definition dot (a b : list R) : R :=
  rsum (map (fun p => fst p * snd p) (combine a b)).

(** [a @ b.t()] for two (3, N) matrices. *)
Definition mm_nt (a b : rows3) : mat3 :=
  M3 (dot (row0 a) (row0 b)) (dot (row0 a) (row1 b)) (dot (row0 a) (row2 b))
     (dot (row1 a) (row0 b)) (dot (row1 a) (row1 b)) (dot (row1 a) (row2 b))
     (dot (row2 a) (row0 b)) (dot (row2 a) (row1 b)) (dot (row2 a) (row2 b)).

(** [torch.eye(3)] *)
Definition eye3 : mat3 := M3 1 0 0  0 1 0  0 0 1.

Definition mzip (f : R -> R -> R) (a b : mat3) : mat3 :=
  M3 (f (m00 a) (m00 b)) (f (m01 a) (m01 b)) (f (m02 a) (m02 b))
     (f (m10 a) (m10 b)) (f (m11 a) (m11 b)) (f (m12 a) (m12 b))
     (f (m20 a) (m20 b)) (f (m21 a) (m21 b)) (f (m22 a) (m22 b)).

(** [a + b] on (3, 3) matrices. *)
Definition madd : mat3 -> mat3 -> mat3 := mzip Rplus.

(** [a * b] on (3, 3) matrices: the element-wise product. *)
Definition hadamard : mat3 -> mat3 -> mat3 := mzip Rmult.

(** [a @ b] on (3, 3) matrices: the matrix product. *)
Definition mmul (a b : mat3) : mat3 :=
  M3 (m00 a * m00 b + m01 a * m10 b + m02 a * m20 b)
     (m00 a * m01 b + m01 a * m11 b + m02 a * m21 b)
     (m00 a * m02 b + m01 a * m12 b + m02 a * m22 b)
     (m10 a * m00 b + m11 a * m10 b + m12 a * m20 b)
     (m10 a * m01 b + m11 a * m11 b + m12 a * m21 b)
     (m10 a * m02 b + m11 a * m12 b + m12 a * m22 b)
     (m20 a * m00 b + m21 a * m10 b + m22 a * m20 b)
     (m20 a * m01 b + m21 a * m11 b + m22 a * m21 b)
     (m20 a * m02 b + m21 a * m12 b + m22 a * m22 b).

(** [a.t()] *)
Definition transpose (a : mat3) : mat3 :=
  M3 (m00 a) (m10 a) (m20 a)
     (m01 a) (m11 a) (m21 a)
     (m02 a) (m12 a) (m22 a).

(** [d.diag()] *)
Definition diag (d : vec3) : mat3 :=
  M3 (v0 d) 0 0  0 (v1 d) 0  0 0 (v2 d).

(** [d.pow(0.5)]; singular values are never negative. *)
Definition pow_half (d : vec3) : vec3 :=
  V3 (sqrt (v0 d)) (sqrt (v1 d)) (sqrt (v2 d)).

Definition det (a : mat3) : R :=
  m00 a * (m11 a * m22 a - m12 a * m21 a)
  - m01 a * (m10 a * m22 a - m12 a * m20 a)
  + m02 a * (m10 a * m21 a - m11 a * m20 a).

(** [a.inverse()] *)
Definition inverse (a : mat3) : res mat3 :=
  let d := det a in
  if is_zero d then Fail SingularMatrix
  else
    Ok (M3 ((m11 a * m22 a - m12 a * m21 a) / d)
           ((m02 a * m21 a - m01 a * m22 a) / d)
           ((m01 a * m12 a - m02 a * m11 a) / d)
           ((m12 a * m20 a - m10 a * m22 a) / d)
           ((m00 a * m22 a - m02 a * m20 a) / d)
           ((m02 a * m10 a - m00 a * m12 a) / d)
           ((m10 a * m21 a - m11 a * m20 a) / d)
           ((m01 a * m20 a - m00 a * m21 a) / d)
           ((m00 a * m11 a - m01 a * m10 a) / d)).

(** One row of [t @ x]: the combination [a * x0 + b * x1 + c * x2]. *)
Fixpoint lincomb (a b c : R) (x0 x1 x2 : list R) : list R :=
  match x0, x1, x2 with
  | p :: x0', q :: x1', r :: x2' =>
      (a * p + b * q + c * r) :: lincomb a b c x0' x1' x2'
  | _, _, _ => []
  end.

(** [t @ x] for a (3, 3) matrix and a (3, N) matrix. *)
Definition mm_rows (t : mat3) (x : rows3) : rows3 :=
  Rows (lincomb (m00 t) (m01 t) (m02 t) (row0 x) (row1 x) (row2 x))
       (lincomb (m10 t) (m11 t) (m12 t) (row0 x) (row1 x) (row2 x))
       (lincomb (m20 t) (m21 t) (m22 t) (row0 x) (row1 x) (row2 x)).

(** ** [matSqrt] and [color_match] *)

Section ColorMatch.

(** [torch.svd]: the factors [(U, D, V)]. *)
Variable svd : mat3 -> mat3 * vec3 * mat3.

(** [torch.cuda.is_available()] at the time of the call. *)
Variable cuda_is_available : bool.

(** [
    def matSqrt(x):
        U,D,V = torch.svd(x)
        return U * (D.pow(0.5).diag()) * V.t()
    ] *)
Definition matSqrt (x : mat3) : mat3 :=
  let '(U, D, V) := svd x in
  hadamard (hadamard U (diag (pow_half D))) (transpose V).

(** [matSqrt(dst_flat_cov_eye) * matSqrt(src_flat_cov_eye).inverse()]:
    the left operand of [@] on line 161 ([*] and [@] have one precedence
    and associate to the left). *)
Definition transfer_matrix (src_cov dst_cov : on mat3) : res (on mat3) :=
  inv <- unop_r inverse (unop matSqrt src_cov) ;;
  binop hadamard (unop matSqrt dst_cov) inv.

Definition color_match (src dst : on tensor) (cuda : bool)
  : res (on tensor) :=
  src_flat <- unop_r view3 src ;;
  dst_flat <- unop_r view3 dst ;;

  let src_mean := unop mean1 src_flat in
  src_std <- unop_r std1 src_flat ;;
  src_centered <- binop bsub src_flat src_mean ;;
  src_norm <- binop_r bdiv src_centered src_std ;;

  let dst_mean := unop mean1 dst_flat in
  dst_std <- unop_r std1 dst_flat ;;
  dst_centered <- binop bsub dst_flat dst_mean ;;
  dst_norm <- binop_r bdiv dst_centered dst_std ;;

  let cud := cuda && cuda_is_available in

  '(src_flat_cov_eye, dst_flat_cov_eye) <-
    (if cud then
       src_gram <- binop mm_nt src_norm src_norm ;;
       src_eye <- to_cuda cuda_is_available (On CPU eye3) ;;
       src_cov <- binop madd src_gram src_eye ;;
       dst_gram <- binop mm_nt dst_norm dst_norm ;;
       dst_eye <- to_cuda cuda_is_available (On CPU eye3) ;;
       dst_cov <- binop madd dst_gram dst_eye ;;
       Ok (src_cov, dst_cov)
     else
       src_gram <- binop mm_nt src_norm src_norm ;;
       src_cov <- binop madd src_gram (On CPU eye3) ;;
       dst_gram <- binop mm_nt dst_norm dst_norm ;;
       dst_cov <- binop madd dst_gram (On CPU eye3) ;;
       Ok (src_cov, dst_cov)) ;;

  t <- transfer_matrix src_flat_cov_eye dst_flat_cov_eye ;;
  src_flat_nrom_trans <- binop mm_rows t src_norm ;;
  scaled <- binop bmul src_flat_nrom_trans dst_std ;;
  src_flat_transfer <- binop badd scaled dst_mean ;;
  unop_r (fun x => view_as x (val src)) src_flat_transfer.

End ColorMatch.

(** ** The host path of [color_match], without the device bookkeeping

    Lines 143-145 and 147-149: centre and scale each channel. *)
Definition normalize (x : rows3) : res rows3 :=
  s <- std1 x ;; bdiv (bsub x (mean1 x)) s.

(** Lines 158-159: [norm @ norm.t() + eye(3)]. *)
Definition cov_eye (x : rows3) : mat3 := madd (mm_nt x x) eye3.

Section HostPath.

Variable svd : mat3 -> mat3 * vec3 * mat3.

(** The values [color_match] computes when every tensor is on the host;
    [color_match_on_host] below proves that it is the same function. *)
Definition color_match_values (src dst : tensor) : res tensor :=
  src_flat <- view3 src ;;
  dst_flat <- view3 dst ;;
  src_std <- std1 src_flat ;;
  src_norm <- bdiv (bsub src_flat (mean1 src_flat)) src_std ;;
  dst_std <- std1 dst_flat ;;
  dst_norm <- bdiv (bsub dst_flat (mean1 dst_flat)) dst_std ;;
  inv <- inverse (matSqrt svd (cov_eye src_norm)) ;;
  let t := hadamard (matSqrt svd (cov_eye dst_norm)) inv in
  view_as (badd (bmul (mm_rows t src_norm) dst_std) (mean1 dst_flat)) src.

End HostPath.

(** ** The specification's reading of the same two expressions

    The specification words both products as matrix products.  These two
    definitions follow its words and are compared with the code below. *)

Section SpecReading.

Variable svd : mat3 -> mat3 * vec3 * mat3.

(** "Return [U · diag(sqrt(D)) · V^T]". *)
Definition matSqrt_spec (x : mat3) : mat3 :=
  let '(U, D, V) := svd x in
  mmul (mmul U (diag (pow_half D))) (transpose V).

(** "Compute [T = sqrt(dst_cov) · inverse(sqrt(src_cov))]". *)
Definition transfer_matrix_spec (src_cov dst_cov : on mat3) : res (on mat3) :=
  inv <- unop_r inverse (unop matSqrt_spec src_cov) ;;
  binop mmul (unop matSqrt_spec dst_cov) inv.

End SpecReading.

(** ** Contracts of the inputs *)

(** [(U, D, V)] is a singular value decomposition of [x]. *)
Definition is_svd (x : mat3) (f : mat3 * vec3 * mat3) : Prop :=
  let '(U, D, V) := f in
  mmul (mmul U (diag D)) (transpose V) = x /\
  mmul (transpose U) U = eye3 /\
  mmul (transpose V) V = eye3 /\
  0 <= v2 D /\ v2 D <= v1 D /\ v1 D <= v0 D.

Definition symmetric (x : mat3) : Prop := transpose x = x.

(** The quadratic form [v^T x v]. *)
Definition quad (x : mat3) (a b c : R) : R :=
  a * (m00 x * a + m01 x * b + m02 x * c)
  + b * (m10 x * a + m11 x * b + m12 x * c)
  + c * (m20 x * a + m21 x * b + m22 x * c).

Definition pos_def (x : mat3) : Prop :=
  forall a b c, (a <> 0 \/ b <> 0 \/ c <> 0) -> 0 < quad x a b c.

Definition is_diagonal (x : mat3) : Prop :=
  m01 x = 0 /\ m02 x = 0 /\ m10 x = 0 /\ m12 x = 0 /\ m20 x = 0 /\ m21 x = 0.

(** A channel whose pixels all have one value. *)
Definition constant (l : list R) : Prop :=
  exists c, Forall (fun v => v = c) l.

(** ** Two five-pixel images

    Channel values [r = (2,2,0,0,1)] and [b = (2,0,2,0,1)]: mean 1, unbiased
    standard deviation 1, and [r], [b] uncorrelated. *)

(** Channels (r, r, b): red and green equal. *)
Definition img_rrb : tensor :=
  Tensor [3; 1; 5]%nat [2; 2; 0; 0; 1;   2; 2; 0; 0; 1;   2; 0; 2; 0; 1].

(** Channels (r, b, r): red and blue equal. *)
Definition img_rbr : tensor :=
  Tensor [3; 1; 5]%nat [2; 2; 0; 0; 1;   2; 0; 2; 0; 1;   2; 2; 0; 0; 1].

(** Their flattened (3, 5) matrices [img.view(3, -1)]. *)
Definition flat_rrb : rows3 :=
  Rows [2; 2; 0; 0; 1] [2; 2; 0; 0; 1] [2; 0; 2; 0; 1].

Definition flat_rbr : rows3 :=
  Rows [2; 2; 0; 0; 1] [2; 0; 2; 0; 1] [2; 2; 0; 0; 1].

(** Their normalised rows. *)
Definition norm_rrb : rows3 :=
  Rows [1; 1; -1; -1; 0] [1; 1; -1; -1; 0] [1; -1; 1; -1; 0].

Definition norm_rbr : rows3 :=
  Rows [1; 1; -1; -1; 0] [1; -1; 1; -1; 0] [1; 1; -1; -1; 0].

(** Their covariance-plus-identity matrices [norm @ norm.t() + eye(3)]. *)
Definition cov_rrb : mat3 := M3 5 4 0  4 5 0  0 0 5.
Definition cov_rbr : mat3 := M3 5 0 4  0 5 0  4 0 5.

(** The singular value decompositions of the two matrices: singular values
    9 > 5 > 1, singular vectors [(1,1,0)/sqrt 2], [(0,0,1)], [(1,-1,0)/sqrt 2]
    for [cov_rrb], and the same with the last two coordinates swapped for
    [cov_rbr]. *)
Definition r2 : R := sqrt 2 / 2.

Definition U_rrb : mat3 := M3 r2 0 r2  r2 0 (- r2)  0 1 0.
Definition U_rbr : mat3 := M3 r2 0 r2  0 1 0  r2 0 (- r2).

Definition svd_rrb : mat3 * vec3 * mat3 := (U_rrb, V3 9 5 1, U_rrb).
Definition svd_rbr : mat3 * vec3 * mat3 := (U_rbr, V3 9 5 1, U_rbr).

(** An [svd] that answers with these decompositions. *)
Definition svd_table (x : mat3) : mat3 * vec3 * mat3 :=
  if is_zero (m01 x) then svd_rbr else svd_rrb.

(** What [color_match img_rbr img_rrb] returns. *)
Definition img_out : tensor :=
  Tensor [3; 1; 5]%nat [2; 2; 0; 0; 1;   1; 1; 1; 1; 1;   1; 1; 1; 1; 1].

(** The same pixels as [img_rrb], laid out as 5 rows of 1 pixel. *)
Definition img_rrb_tall : tensor := Tensor [3; 5; 1]%nat (tdata img_rrb).

(** The transfer matrix the specification's reading gives for these two
    images. *)
Definition transfer_spec_rbr_rrb : mat3 :=
  M3 (4 / 3)          (/ sqrt 5)     (- (2 / 3))
     (2 / 3)          (2 / sqrt 5)   (- (1 / 3))
     (- (sqrt 5 / 3)) 0              (2 * sqrt 5 / 3).

(** ** Channel statistics of an image *)

Definition channel_mean (t : tensor) : res vec3 :=
  x <- view3 t ;; Ok (mean1 x).

Definition channel_std (t : tensor) : res vec3 :=
  x <- view3 t ;; std1 x.

(** ** Batches: tensors of 3 and 4 dimensions

    A batch is read through its sizes and an indexing function, as torch
    reads a strided view: [transpose], [narrow] and [chunk] build views of
    the same entries. *)

Section Batches.

Context {A : Type}.

Record tensor3 : Type := T3 {
  size0 : nat; size1 : nat; size2 : nat;
  at3 : nat -> nat -> nat -> A }.

Record tensor4 : Type := T4 {
  dim0 : nat; dim1 : nat; dim2 : nat; dim3 : nat;
  at4 : nat -> nat -> nat -> nat -> A }.

(** Equal sizes, and equal entries at every index within them. *)
Definition same_tensor (a b : tensor4) : Prop :=
  dim0 a = dim0 b /\ dim1 a = dim1 b /\ dim2 a = dim2 b /\ dim3 a = dim3 b /\
  forall i j k l,
    (i < dim0 a)%nat -> (j < dim1 a)%nat ->
    (k < dim2 a)%nat -> (l < dim3 a)%nat ->
    at4 a i j k l = at4 b i j k l.

(** [t.unsqueeze(0)] *)
Definition unsqueeze0 (t : tensor3) : tensor4 :=
  T4 1 (size0 t) (size1 t) (size2 t) (fun _ j k l => at3 t j k l).

(** [t.transpose(0, 1)] *)
Definition transpose01 (t : tensor4) : tensor4 :=
  T4 (dim1 t) (dim0 t) (dim2 t) (dim3 t) (fun i j k l => at4 t j i k l).

(** [t.narrow(0, start, length)] *)
Definition narrow0 (t : tensor4) (start len : nat) : tensor4 :=
  T4 len (dim1 t) (dim2 t) (dim3 t) (fun i j k l => at4 t (start + i) j k l).

(** [torch.split(t, split_size)] along dimension 0. *)
Definition split0 (t : tensor4) (split_size : nat) : res (list tensor4) :=
  if (split_size =? 0)%nat then Fail ZeroDivisionError
  else
    let dim_size := dim0 t in
    let num_splits := ((dim_size + split_size - 1) / split_size)%nat in
    let last_split_size :=
      (split_size - (split_size * num_splits - dim_size))%nat in
    let get_split_size i :=
      if (i <? num_splits - 1)%nat then split_size else last_split_size in
    Ok (map (fun i => narrow0 t (i * split_size) (get_split_size i))
            (seq 0 num_splits)).

(** [torch.chunk(t, chunks)] along dimension 0. *)
Definition chunk0 (t : tensor4) (chunks : nat) : res (list tensor4) :=
  if (chunks =? 0)%nat then Fail ZeroDivisionError
  else split0 t ((dim0 t + chunks - 1) / chunks)%nat.

Definition same_tail (a b : tensor4) : bool :=
  ((dim1 a =? dim1 b) && (dim2 a =? dim2 b) && (dim3 a =? dim3 b))%nat.

Definition cat2 (a b : tensor4) : res tensor4 :=
  if same_tail a b then
    Ok (T4 (dim0 a + dim0 b) (dim1 a) (dim2 a) (dim3 a)
           (fun i j k l =>
              if (i <? dim0 a)%nat then at4 a i j k l
              else at4 b (i - dim0 a) j k l))
  else Fail ShapeError.

(** [torch.cat(ts)] along dimension 0. *)
Fixpoint cat0 (ts : list tensor4) : res tensor4 :=
  match ts with
  | [] => Fail ValueError
  | [t] => Ok t
  | t :: rest => r <- cat0 rest ;; cat2 t r
  end.

(** [
    def preprocess_batch(batch):
        batch = batch.transpose(0, 1)
        (r, g, b) = torch.chunk(batch, 3)
        batch = torch.cat((b, g, r))
        batch = batch.transpose(0, 1)
        return batch
    ] *)
Definition preprocess_batch (batch : tensor4) : res tensor4 :=
  let batch := transpose01 batch in
  parts <- chunk0 batch 3 ;;
  match parts with
  | [r; g; b] =>
      batch <- cat0 [b; g; r] ;;
      let batch := transpose01 batch in
      Ok batch
  | _ => Fail ValueError
  end.

End Batches.

Arguments tensor3 A : clear implicits.
Arguments tensor4 A : clear implicits.

(** A batch of one image with three channels and one pixel. *)
Definition batch_rgb : tensor4 nat :=
  T4 1 3 1 1 (fun _ j _ _ => j).

(** ** [StyleLoader] *)

(** [os.path.join(a, b)] on a POSIX host. *)
Fixpoint ends_with_sep (s : string) : bool :=
  match s with
  | EmptyString => false
  | String c EmptyString => Ascii.eqb c "/"%char
  | String _ rest => ends_with_sep rest
  end.

Definition path_join (a b : string) : string :=
  if String.prefix "/" b then b
  else if (String.length a =? 0)%nat || ends_with_sep a then (a ++ b)%string
  else (a ++ "/" ++ b)%string.

(** [l[idx]] on a Python list: negative indices count from the end. *)
Definition py_index {A : Type} (l : list A) (idx : Z) : res A :=
  let n := Z.of_nat (length l) in
  let pos := if (idx <? 0)%Z then (idx + n)%Z else idx in
  if ((pos <? 0) || (n <=? pos))%Z then Fail IndexError
  else
    match nth_error l (Z.to_nat pos) with
    | Some a => Ok a
    | None => Fail IndexError
    end.

(** [a % b] on Python integers: the sign of the result is that of [b]. *)
Definition py_mod (a b : Z) : res Z :=
  if (b =? 0)%Z then Fail ZeroDivisionError else Ok (a mod b)%Z.

Record StyleLoader : Type := {
  folder : string;
  style_size : option nat;
  files : list string;
  cuda : bool }.

(** An image as PIL holds it after [convert('RGB')]: its [size] is
    (width, height), its array has shape (height, width, 3). *)
Record pil_image : Type := {
  width : nat;
  height : nat;
  pixel : nat -> nat -> nat -> R }.

Section Loader.

(** [os.listdir] *)
Variable listdir : string -> res (list string).

(** [Image.open(filename).convert('RGB')]: the files of the host. *)
Variable image_open : string -> res pil_image.

(** [img.resize((w, h), Image.ANTIALIAS)] *)
Variable resize : pil_image -> nat -> nat -> pil_image.

Variable cuda_is_available : bool.

(** [int(x)] for a float that is not negative. *)
Definition py_int (x : R) : nat := Z.to_nat (Int_part x).

(** [
    def tensor_load_rgbimage(filename, size=None, scale=None, keep_asp=False):
        img = Image.open(filename).convert('RGB')
        if size is not None:
            if keep_asp:
                size2 = int(size * 1.0 / img.size[0] * img.size[1])
                img = img.resize((size, size2), Image.ANTIALIAS)
            else:
                img = img.resize((size, size), Image.ANTIALIAS)
        elif scale is not None:
            img = img.resize((int(img.size[0] / scale), int(img.size[1] / scale)), Image.ANTIALIAS)
        img = np.array(img).transpose(2, 0, 1)
        img = torch.from_numpy(img).float()
        return img
    ] *)
Definition tensor_load_rgbimage (filename : string) (size : option nat)
    (scale : option R) (keep_asp : bool) : res (tensor3 R) :=
  img <- image_open filename ;;
  img <- match size with
         | Some size =>
             if keep_asp then
               if (width img =? 0)%nat then Fail ZeroDivisionError
               else
                 let size2 :=
                   py_int (INR size * 1 / INR (width img) * INR (height img)) in
                 Ok (resize img size size2)
             else Ok (resize img size size)
         | None =>
             match scale with
             | Some scale =>
                 if is_zero scale then Fail ZeroDivisionError
                 else Ok (resize img (py_int (INR (width img) / scale))
                                     (py_int (INR (height img) / scale)))
             | None => Ok img
             end
         end ;;
  Ok (T3 3 (height img) (width img) (fun c y x => pixel img y x c)).

(** [StyleLoader.__init__] *)
Definition StyleLoader_init (style_folder : string) (style_size : option nat)
    (cuda : bool) : res StyleLoader :=
  names <- listdir style_folder ;;
  Ok {| folder := style_folder; style_size := style_size;
        files := names; cuda := cuda |}.

(** Lines 122-123 of [StyleLoader.get]: the path of the file to load. *)
Definition get_filepath (self : StyleLoader) (i : Z) : res string :=
  idx <- py_mod i (Z.of_nat (length (files self))) ;;
  name <- py_index (files self) idx ;;
  Ok (path_join (folder self) name).

(** [StyleLoader.get] *)
Definition get (self : StyleLoader) (i : Z) : res (on (tensor4 R)) :=
  filepath <- get_filepath self i ;;
  style <- tensor_load_rgbimage filepath (style_size self) None false ;;
  let style := unsqueeze0 style in
  style <- preprocess_batch style ;;
  style <- (if cuda self then to_cuda cuda_is_available (On CPU style)
            else Ok (On CPU style)) ;;
  Ok style.

(** [StyleLoader.size] *)
Definition size (self : StyleLoader) : Z := Z.of_nat (length (files self)).

End Loader.

(** A loader over three files. *)
Definition loader3 : StyleLoader :=
  {| folder := "styles"; style_size := Some 512%nat;
     files := ["a.jpg"; "b.jpg"; "c.jpg"]%string; cuda := false |}.

(** ** Tensors in memory

    A tensor object is a handle: the location of its storage and the views
    taken of it.  [view], [view_as] and [t()] return a handle on the same
    storage; every other operation of [color_match] writes its result to a
    new location.  [clamp_] overwrites the storage of its operand. *)

Inductive value : Type :=
| VTensor (t : tensor)     (* any shape, flat entries *)
| VRows (x : rows3)        (* (3, N) *)
| VRowsT (x : rows3)       (* (N, 3): the transpose of [x] *)
| VVec (c : vec3)          (* (3, 1) or (3) *)
| VMat (m : mat3).         (* (3, 3) *)

Definition storage : Type := list (on value).

Inductive view : Type :=
| Flat3                    (* [.view(3, -1)] *)
| Transposed               (* [.t()] *)
| Like (shape : list nat). (* [.view_as(like)] *)

Record handle : Type := Handle { hloc : nat; hviews : list view }.

Definition as_tensor (v : value) : res tensor :=
  match v with VTensor t => Ok t | _ => Fail ShapeError end.

Definition as_rows (v : value) : res rows3 :=
  match v with VRows x => Ok x | _ => Fail ShapeError end.

Definition as_rowsT (v : value) : res rows3 :=
  match v with VRowsT x => Ok x | _ => Fail ShapeError end.

Definition as_vec (v : value) : res vec3 :=
  match v with VVec c => Ok c | _ => Fail ShapeError end.

Definition as_mat (v : value) : res mat3 :=
  match v with VMat m => Ok m | _ => Fail ShapeError end.

Definition apply_view (w : view) (v : value) : res value :=
  match w, v with
  | Flat3, VTensor t => x <- view3 t ;; Ok (VRows x)
  | Transposed, VMat m => Ok (VMat (transpose m))
  | Transposed, VRows x => Ok (VRowsT x)
  | Transposed, VRowsT x => Ok (VRows x)
  | Like sh, VRows x =>
      let d := (row0 x ++ row1 x ++ row2 x)%list in
      if (length d =? numel sh)%nat then Ok (VTensor (Tensor sh d))
      else Fail ShapeError
  | _, _ => Fail ShapeError
  end.

Fixpoint apply_views (ws : list view) (v : value) : res value :=
  match ws with
  | [] => Ok v
  | w :: ws' => v' <- apply_view w v ;; apply_views ws' v'
  end.

(** The value a handle denotes in a storage. *)
Definition read (st : storage) (h : handle) : res (on value) :=
  match nth_error st (hloc h) with
  | Some c => v <- apply_views (hviews h) (val c) ;; Ok (On (dev c) v)
  | None => Fail IndexError
  end.

(** Computations on a storage: an outcome and the storage left behind. *)
Definition M (A : Type) : Type := storage -> res A * storage.

Definition ret {A : Type} (a : A) : M A := fun st => (Ok a, st).

Definition lift {A : Type} (r : res A) : M A := fun st => (r, st).

Definition mbind {A B : Type} (m : M A) (k : A -> M B) : M B :=
  fun st =>
    match m st with
    | (Ok a, st') => k a st'
    | (Fail e, st') => (Fail e, st')
    end.

Notation "x <~ m ;; k" := (mbind m (fun x => k))
  (at level 61, m at next level, right associativity).
Notation "' p <~ m ;; k" := (mbind m (fun x => let p := x in k))
  (at level 61, p pattern, m at next level, right associativity).

Definition load (h : handle) : M (on value) := fun st => (read st h, st).

(** A new tensor: its storage is appended. *)
Definition alloc (v : on value) : M handle :=
  fun st => (Ok (Handle (length st) []), (st ++ [v])%list).

(** An in-place update of the storage of [h]. *)
Definition overwrite (h : handle) (v : on value) : M unit :=
  fun st =>
    match nth_error st (hloc h) with
    | Some _ =>
        (Ok tt, (firstn (hloc h) st ++ v :: skipn (S (hloc h)) st)%list)
    | None => (Fail IndexError, st)
    end.

(** A view of [h]: the same storage, read through one more view. *)
Definition mk_view (w : view) (h : handle) : M handle :=
  let h' := Handle (hloc h) (hviews h ++ [w]) in
  _ <~ load h' ;; ret h'.

(** An out-of-place operation of one operand. *)
Definition op1 {X Y : Type} (px : value -> res X) (iy : Y -> value)
    (f : X -> res Y) (h : handle) : M handle :=
  x <~ load h ;;
  a <~ lift (px (val x)) ;;
  y <~ lift (f a) ;;
  alloc (On (dev x) (iy y)).

(** An out-of-place operation of two operands on one device. *)
Definition op2 {X Y Z : Type} (px : value -> res X) (py : value -> res Y)
    (iz : Z -> value) (f : X -> Y -> res Z) (h1 h2 : handle) : M handle :=
  x <~ load h1 ;;
  y <~ load h2 ;;
  d <~ lift (same_device (dev x) (dev y)) ;;
  a <~ lift (px (val x)) ;;
  b <~ lift (py (val y)) ;;
  z <~ lift (f a b) ;;
  alloc (On d (iz z)).

Definition pure1 {X Y : Type} (f : X -> Y) (x : X) : res Y := Ok (f x).
Definition pure2 {X Y Z : Type} (f : X -> Y -> Z) (x : X) (y : Y) : res Z :=
  Ok (f x y).

(** [t.cuda()]: a copy on the accelerator. *)
Definition cuda_st (available : bool) (h : handle) : M handle :=
  x <~ load h ;;
  y <~ lift (to_cuda available x) ;;
  alloc y.

Section InMemory.

Variable svd : mat3 -> mat3 * vec3 * mat3.
Variable cuda_is_available : bool.

(** [torch.svd(x)]: three new tensors. *)
Definition svd_st (x : handle) : M (handle * handle * handle) :=
  v <~ load x ;;
  m <~ lift (as_mat (val v)) ;;
  let '(U, D, V) := svd m in
  hu <~ alloc (On (dev v) (VMat U)) ;;
  hd <~ alloc (On (dev v) (VVec D)) ;;
  hv <~ alloc (On (dev v) (VMat V)) ;;
  ret (hu, hd, hv).

(** [matSqrt] on handles. *)
Definition matSqrt_st (x : handle) : M handle :=
  ' (U, D, V) <~ svd_st x ;;
  p <~ op1 as_vec VVec (pure1 pow_half) D ;;
  dg <~ op1 as_vec VMat (pure1 diag) p ;;
  ud <~ op2 as_mat as_mat VMat (pure2 hadamard) U dg ;;
  vt <~ mk_view Transposed V ;;
  op2 as_mat as_mat VMat (pure2 hadamard) ud vt.

(** [color_match] on handles. *)
Definition color_match_st (src dst : handle) (cuda : bool) : M handle :=
  src_flat <~ mk_view Flat3 src ;;
  dst_flat <~ mk_view Flat3 dst ;;

  src_mean <~ op1 as_rows VVec (pure1 mean1) src_flat ;;
  src_std <~ op1 as_rows VVec std1 src_flat ;;
  src_centered <~ op2 as_rows as_vec VRows (pure2 bsub) src_flat src_mean ;;
  src_norm <~ op2 as_rows as_vec VRows bdiv src_centered src_std ;;

  dst_mean <~ op1 as_rows VVec (pure1 mean1) dst_flat ;;
  dst_std <~ op1 as_rows VVec std1 dst_flat ;;
  dst_centered <~ op2 as_rows as_vec VRows (pure2 bsub) dst_flat dst_mean ;;
  dst_norm <~ op2 as_rows as_vec VRows bdiv dst_centered dst_std ;;

  let cud := cuda && cuda_is_available in

  ' (src_flat_cov_eye, dst_flat_cov_eye) <~
    (if cud then
       src_t <~ mk_view Transposed src_norm ;;
       src_gram <~ op2 as_rows as_rowsT VMat (pure2 mm_nt) src_norm src_t ;;
       src_eye <~ alloc (On CPU (VMat eye3)) ;;
       src_eye <~ cuda_st cuda_is_available src_eye ;;
       src_cov <~ op2 as_mat as_mat VMat (pure2 madd) src_gram src_eye ;;
       dst_t <~ mk_view Transposed dst_norm ;;
       dst_gram <~ op2 as_rows as_rowsT VMat (pure2 mm_nt) dst_norm dst_t ;;
       dst_eye <~ alloc (On CPU (VMat eye3)) ;;
       dst_eye <~ cuda_st cuda_is_available dst_eye ;;
       dst_cov <~ op2 as_mat as_mat VMat (pure2 madd) dst_gram dst_eye ;;
       ret (src_cov, dst_cov)
     else
       src_t <~ mk_view Transposed src_norm ;;
       src_gram <~ op2 as_rows as_rowsT VMat (pure2 mm_nt) src_norm src_t ;;
       src_eye <~ alloc (On CPU (VMat eye3)) ;;
       src_cov <~ op2 as_mat as_mat VMat (pure2 madd) src_gram src_eye ;;
       dst_t <~ mk_view Transposed dst_norm ;;
       dst_gram <~ op2 as_rows as_rowsT VMat (pure2 mm_nt) dst_norm dst_t ;;
       dst_eye <~ alloc (On CPU (VMat eye3)) ;;
       dst_cov <~ op2 as_mat as_mat VMat (pure2 madd) dst_gram dst_eye ;;
       ret (src_cov, dst_cov)) ;;

  dst_sqrt <~ matSqrt_st dst_flat_cov_eye ;;
  src_sqrt <~ matSqrt_st src_flat_cov_eye ;;
  src_inv <~ op1 as_mat VMat inverse src_sqrt ;;
  t <~ op2 as_mat as_mat VMat (pure2 hadamard) dst_sqrt src_inv ;;
  src_flat_nrom_trans <~ op2 as_mat as_rows VRows (pure2 mm_rows) t src_norm ;;
  scaled <~ op2 as_rows as_vec VRows (pure2 bmul) src_flat_nrom_trans dst_std ;;
  src_flat_transfer <~ op2 as_rows as_vec VRows (pure2 badd) scaled dst_mean ;;
  like <~ load src ;;
  like <~ lift (as_tensor (val like)) ;;
  mk_view (Like (tshape like)) src_flat_transfer.

End InMemory.

(** *** [imagenet_clamp_batch]: an operation that does write in place *)

Definition clamp (lo hi v : R) : R :=
  if Rlt_dec v lo then lo else if Rlt_dec hi v then hi else v.

(** [batch[:, c, :, :].data.clamp_(lo, hi)] on the entries of a
    (B, C, H, W) tensor. *)
Definition clamp_channel (c : nat) (lo hi : R) (t : tensor) : res tensor :=
  match tshape t with
  | [_; ch; h; w] =>
      if (c <? ch)%nat then
        Ok (Tensor (tshape t)
              (map (fun p =>
                      if ((fst p / (h * w)) mod ch =? c)%nat
                      then clamp lo hi (snd p) else snd p)
                   (combine (seq 0 (length (tdata t))) (tdata t))))
      else Fail IndexError
  | _ => Fail IndexError
  end.

Definition clamp_channel_st (c : nat) (lo hi : R) (batch : handle) : M unit :=
  v <~ load batch ;;
  t <~ lift (as_tensor (val v)) ;;
  t' <~ lift (clamp_channel c lo hi t) ;;
  overwrite batch (On (dev v) (VTensor t')).

(** [
    def imagenet_clamp_batch(batch, low, high):
        batch[:,0,:,:].data.clamp_(low-103.939, high-103.939)
        batch[:,1,:,:].data.clamp_(low-116.779, high-116.779)
        batch[:,2,:,:].data.clamp_(low-123.680, high-123.680)
    ] *)
Definition imagenet_clamp_batch (batch : handle) (low high : R) : M unit :=
  _ <~ clamp_channel_st 0 (low - 103.939) (high - 103.939) batch ;;
  _ <~ clamp_channel_st 1 (low - 116.779) (high - 116.779) batch ;;
  clamp_channel_st 2 (low - 123.680) (high - 123.680) batch.

(** What the operations of a call leave of the storage it started from:
    (when [n] cells existed) the storage only grows, and the outcome
    satisfies [Q]. *)
Definition grows {A : Type} (n : nat) (m : M A) (Q : A -> Prop) : Prop :=
  forall st, (n <= length st)%nat ->
    (exists new, snd (m st) = (st ++ new)%list) /\
    (forall a, fst (m st) = Ok a -> Q a).

(** The outcome of a computation on handles agrees with an outcome on
    values: the same failure, or a handle that reads as the value. *)
Definition agrees (p : res handle * storage) (q : res (on tensor)) : Prop :=
  match fst p, q with
  | Ok h, Ok out => read (snd p) h = Ok (On (dev out) (VTensor (val out)))
  | Fail e, Fail e' => e = e'
  | _, _ => False
  end.

(** A storage with one (1, 3, 1, 1) batch. *)
Definition one_batch : storage :=
  [On CPU (VTensor (Tensor [1; 3; 1; 1]%nat [300; 0; -300]))].

(** ** [gram_matrix] *)

(** [y.view(b, ch, w * h)] of a contiguous (b, ch, h, w) tensor. *)
Definition view_features (y : tensor4 R) : tensor3 R :=
  T3 (dim0 y) (dim1 y) (dim3 y * dim2 y)
     (fun i c p => at4 y i c (p / dim3 y)%nat (p mod dim3 y)%nat).

(** [t.transpose(1, 2)] *)
Definition transpose12 (t : tensor3 R) : tensor3 R :=
  T3 (size0 t) (size2 t) (size1 t) (fun i p c => at3 t i c p).

(** [a.bmm(b)] *)
Definition bmm (a b : tensor3 R) : res (tensor3 R) :=
  if ((size0 a =? size0 b) && (size2 a =? size1 b))%nat then
    Ok (T3 (size0 a) (size1 a) (size2 b)
          (fun i r c =>
             rsum (map (fun k => at3 a i r k * at3 b i k c)
                       (seq 0 (size2 a)))))
  else Fail ShapeError.

(** [t / n] for a Python integer [n]: a tensor with entries divided by 0
    holds inf or NaN; a tensor without entries stays as it is. *)
Definition div_scalar (t : tensor3 R) (n : nat) : res (tensor3 R) :=
  if ((n =? 0) && negb (size0 t * size1 t * size2 t =? 0))%nat
  then Fail NonFinite
  else Ok (T3 (size0 t) (size1 t) (size2 t)
              (fun i r c => at3 t i r c / INR n)).

(** [
    def gram_matrix(y):
        (b, ch, h, w) = y.size()
        features = y.view(b, ch, w * h)
        features_t = features.transpose(1, 2)
        gram = features.bmm(features_t) / (ch * h * w)
        return gram
    ] *)
Definition gram_matrix (y : tensor4 R) : res (tensor3 R) :=
  let '(b, ch, h, w) := (dim0 y, dim1 y, dim2 y, dim3 y) in
  let features := view_features y in
  let features_t := transpose12 features in
  g <- bmm features features_t ;;
  div_scalar g (ch * h * w).

(** ** [subtract_imagenet_mean_batch] and [add_imagenet_mean_batch] *)

(** [mean[:, c, :, :] = v] *)
Definition fill_channel (c : nat) (v : R) (t : tensor4 R) : res (tensor4 R) :=
  if (c <? dim1 t)%nat then
    Ok (T4 (dim0 t) (dim1 t) (dim2 t) (dim3 t)
           (fun i j k l => if (j =? c)%nat then v else at4 t i j k l))
  else Fail IndexError.

(** [a - b], [a + b] on tensors of one shape. *)
Definition tzip4 (f : R -> R -> R) (a b : tensor4 R) : res (tensor4 R) :=
  if same_tail a b && (dim0 a =? dim0 b)%nat then
    Ok (T4 (dim0 a) (dim1 a) (dim2 a) (dim3 a)
           (fun i j k l => f (at4 a i j k l) (at4 b i j k l)))
  else Fail ShapeError.

Section ImagenetMean.

(** What the memory of a tensor holds before anything is written to it:
    [tensortype(batch.data.size())] does not initialise its entries. *)
Variable uninitialized : nat -> nat -> nat -> nat -> R.

(** Lines 69-73 and 79-83: the tensor of ImageNet means. *)
Definition imagenet_mean (batch : tensor4 R) : res (tensor4 R) :=
  let mean :=
    T4 (dim0 batch) (dim1 batch) (dim2 batch) (dim3 batch) uninitialized in
  mean <- fill_channel 0 103.939 mean ;;
  mean <- fill_channel 1 116.779 mean ;;
  fill_channel 2 123.680 mean.

(** [subtract_imagenet_mean_batch] *)
Definition subtract_imagenet_mean_batch (batch : tensor4 R)
  : res (tensor4 R) :=
  mean <- imagenet_mean batch ;;
  tzip4 Rminus batch mean.

(** [add_imagenet_mean_batch] *)
Definition add_imagenet_mean_batch (batch : tensor4 R) : res (tensor4 R) :=
  mean <- imagenet_mean batch ;;
  tzip4 Rplus batch mean.

End ImagenetMean.

(** ** [imagenet_clamp_batch] on the entries *)

(** The ImageNet mean of a channel. *)
Definition imagenet_channel_mean (c : nat) : R :=
  match c with
  | 0%nat => 103.939
  | 1%nat => 116.779
  | _ => 123.680
  end.

(** The channel of the entry at position [idx] of a (B, C, H, W) tensor. *)
Definition channel_of (sh : list nat) (idx : nat) : nat :=
  match sh with
  | [_; ch; h; w] => ((idx / (h * w)) mod ch)%nat
  | _ => 0%nat
  end.

(** ** Saving images *)

Section Images3.

Context {A : Type}.

(** [t.narrow(0, start, length)] on a 3-dimensional tensor. *)
Definition narrow3 (t : tensor3 A) (start len : nat) : tensor3 A :=
  T3 len (size1 t) (size2 t) (fun i k l => at3 t (start + i) k l).

(** [torch.split(t, split_size)] on a 3-dimensional tensor. *)
Definition split3 (t : tensor3 A) (split_size : nat)
  : res (list (tensor3 A)) :=
  if (split_size =? 0)%nat then Fail ZeroDivisionError
  else
    let dim_size := size0 t in
    let num_splits := ((dim_size + split_size - 1) / split_size)%nat in
    let last_split_size :=
      (split_size - (split_size * num_splits - dim_size))%nat in
    let get_split_size i :=
      if (i <? num_splits - 1)%nat then split_size else last_split_size in
    Ok (map (fun i => narrow3 t (i * split_size) (get_split_size i))
            (seq 0 num_splits)).

(** [torch.chunk(t, chunks)] on a 3-dimensional tensor. *)
Definition chunk3 (t : tensor3 A) (chunks : nat) : res (list (tensor3 A)) :=
  if (chunks =? 0)%nat then Fail ZeroDivisionError
  else split3 t ((size0 t + chunks - 1) / chunks)%nat.

Definition cat3_pair (a b : tensor3 A) : res (tensor3 A) :=
  if ((size1 a =? size1 b) && (size2 a =? size2 b))%nat then
    Ok (T3 (size0 a + size0 b) (size1 a) (size2 a)
           (fun i k l =>
              if (i <? size0 a)%nat then at3 a i k l
              else at3 b (i - size0 a) k l))
  else Fail ShapeError.

(** [torch.cat(ts)] on 3-dimensional tensors. *)
Fixpoint cat3 (ts : list (tensor3 A)) : res (tensor3 A) :=
  match ts with
  | [] => Fail ValueError
  | [t] => Ok t
  | t :: rest => r <- cat3 rest ;; cat3_pair t r
  end.

End Images3.

(** [x.astype('uint8')] for a float in [0, 255]. *)
Definition to_uint8 (x : R) : nat := Z.to_nat (Int_part x).

(** [
    def tensor_save_rgbimage(tensor, filename, cuda=False):
        if cuda:
            img = tensor.clone().cpu().clamp(0, 255).numpy()
        else:
            img = tensor.clone().clamp(0, 255).numpy()
        img = img.transpose(1, 2, 0).astype('uint8')
        img = Image.fromarray(img)
        img.save(filename)
    ]
    The result is what the call hands to PIL: the file name and the
    (height, width, channels) array of bytes. *)
Definition tensor_save_rgbimage (tensor : on (tensor3 R)) (filename : string)
    (cuda : bool) : res (string * tensor3 nat) :=
  img <- (if cuda then Ok (val tensor)
          else match dev tensor with
               | CPU => Ok (val tensor)
               | CUDA => Fail DeviceError
               end) ;;
  let img :=
    T3 (size0 img) (size1 img) (size2 img)
       (fun c y x => clamp 0 255 (at3 img c y x)) in
  let img :=
    T3 (size1 img) (size2 img) (size0 img)
       (fun y x c => to_uint8 (at3 img c y x)) in
  Ok (filename, img).

(** [
    def tensor_save_bgrimage(tensor, filename, cuda=False):
        (b, g, r) = torch.chunk(tensor, 3)
        tensor = torch.cat((r, g, b))
        tensor_save_rgbimage(tensor, filename, cuda)
    ] *)
Definition tensor_save_bgrimage (tensor : on (tensor3 R)) (filename : string)
    (cuda : bool) : res (string * tensor3 nat) :=
  parts <- chunk3 (val tensor) 3 ;;
  match parts with
  | [b; g; r] =>
      t <- cat3 [r; g; b] ;;
      tensor_save_rgbimage (On (dev tensor) t) filename cuda
  | _ => Fail ValueError
  end.

(** An image whose pixels are bytes. *)
Definition rgb8 (img : pil_image) : Prop :=
  forall y x c, (y < height img)%nat -> (x < width img)%nat -> (c < 3)%nat ->
    exists n : nat, (n <= 255)%nat /\ pixel img y x c = INR n.

(** ** Example inputs for the properties below *)

(** A (1, 2, 1, 2) batch of features. *)
Definition features_12 : tensor4 R :=
  T4 1 2 1 2 (fun _ c _ x => INR (c + x)).

(** A (1, 3, 1, 1) batch. *)
Definition batch_pixel : tensor4 R := T4 1 3 1 1 (fun _ j _ _ => INR j).

(** A (1, 5, 1, 1) batch of indices. *)
Definition batch_five : tensor4 nat := T4 1 5 1 1 (fun _ j _ _ => j).

(** A 1 x 1 image with the pixel (10, 20, 30). *)
Definition image_pixel : pil_image :=
  {| width := 1; height := 1;
     pixel := fun _ _ c => INR (10 * (c + 1)) |}.

(** A file system on which one image can be opened: styles/b.jpg. *)
Definition only_b_opens (path : string) : res pil_image :=
  if String.eqb path "styles/b.jpg" then Ok image_pixel else Fail IOError.

(** A (3, 1, 1) tensor holding 300, 0.5 and -7. *)
Definition tensor_wide : tensor3 R :=
  T3 3 1 1 (fun c _ _ => match c with
                         | 0%nat => 300
                         | 1%nat => 0.5
                         | _ => -7
                         end).

(** A (1, 3, 1, 1) batch in memory, as a flat tensor. *)
Definition flat_batch : tensor := Tensor [1; 3; 1; 1]%nat [300; 0; -300].

(** A (1, 4, 1, 1) batch. *)
Definition batch_four : tensor4 R := T4 1 4 1 1 (fun _ j _ _ => INR j).

(** A (1, 2, 1, 1) batch in memory, as a flat tensor. *)
Definition flat_batch2 : tensor := Tensor [1; 2; 1; 1]%nat [300; -300].

(** A (3, 1, 2) image whose first channel is constant. *)
Definition img_flat_red : tensor :=
  Tensor [3; 1; 2]%nat [1; 1;   0; 1;   0; 1].

(** * Properties *)

(** ** Matrix algebra on (3, 3) matrices *)

Lemma mat3_eq (a b : mat3) :
  m00 a = m00 b -> m01 a = m01 b -> m02 a = m02 b ->
  m10 a = m10 b -> m11 a = m11 b -> m12 a = m12 b ->
  m20 a = m20 b -> m21 a = m21 b -> m22 a = m22 b -> a = b.
Proof.
  destruct a, b; simpl; intros; subst; reflexivity.
Qed.

Ltac mat3_ext := apply mat3_eq; simpl.

Lemma mmul_assoc (a b c : mat3) : mmul (mmul a b) c = mmul a (mmul b c).
Proof. mat3_ext; ring. Qed.

Lemma mmul_eye_l (a : mat3) : mmul eye3 a = a.
Proof. mat3_ext; ring. Qed.

Lemma mmul_eye_r (a : mat3) : mmul a eye3 = a.
Proof. mat3_ext; ring. Qed.

Lemma transpose_mmul (a b : mat3) :
  transpose (mmul a b) = mmul (transpose b) (transpose a).
Proof. mat3_ext; ring. Qed.

Lemma transpose_involutive (a : mat3) : transpose (transpose a) = a.
Proof. mat3_ext; reflexivity. Qed.

Lemma transpose_diag (d : vec3) : transpose (diag d) = diag d.
Proof. reflexivity. Qed.

Lemma diag_mmul (d e : vec3) :
  mmul (diag d) (diag e) = diag (V3 (v0 d * v0 e) (v1 d * v1 e) (v2 d * v2 e)).
Proof. mat3_ext; ring. Qed.

(** On diagonal matrices the element-wise and the matrix product agree. *)
Lemma hadamard_diag (d e : vec3) :
  hadamard (diag d) (diag e) = mmul (diag d) (diag e).
Proof. mat3_ext; ring. Qed.

Lemma det_diag (d : vec3) : det (diag d) = v0 d * v1 d * v2 d.
Proof. unfold det; simpl; ring. Qed.

Lemma is_zero_true (r : R) : r = 0 -> is_zero r = true.
Proof. intros ->. unfold is_zero. destruct (Req_dec_T 0 0); congruence. Qed.

Lemma is_zero_false (r : R) : r <> 0 -> is_zero r = false.
Proof. intros H. unfold is_zero. destruct (Req_dec_T r 0); congruence. Qed.

(** ** [matSqrt] *)

Section MatSqrt.

Variable svd : mat3 -> mat3 * vec3 * mat3.

(** The element-wise products keep only the diagonal. *)
Lemma matSqrt_diag (x : mat3) :
  matSqrt svd x =
  let '(U, D, V) := svd x in
  diag (V3 (m00 U * sqrt (v0 D) * m00 V)
           (m11 U * sqrt (v1 D) * m11 V)
           (m22 U * sqrt (v2 D) * m22 V)).
Proof.
  unfold matSqrt. destruct (svd x) as [[U D] V].
  mat3_ext; ring.
Qed.

(** X1.  For every matrix [x] and every answer [(U, D, V)] of [torch.svd],
    [matSqrt] returns a diagonal matrix, and the entries on its diagonal are
    [U_ii * sqrt(D_i) * V_ii]: the two element-wise products of line 137
    keep nothing else of [U] and [V]. *)
Lemma matSqrt_is_diagonal (x : mat3) :
  is_diagonal (matSqrt svd x) /\
  let '(U, D, V) := svd x in
  m00 (matSqrt svd x) = m00 U * sqrt (v0 D) * m00 V /\
  m11 (matSqrt svd x) = m11 U * sqrt (v1 D) * m11 V /\
  m22 (matSqrt svd x) = m22 U * sqrt (v2 D) * m22 V.
Proof.
  rewrite matSqrt_diag. destruct (svd x) as [[U D] V].
  repeat split.
Qed.

End MatSqrt.

(** ** The two covariance matrices and their decompositions *)

Lemma sq_pos (a : R) : a <> 0 -> 0 < a * a.
Proof. intros H. nra. Qed.

Lemma cov_rrb_symmetric : symmetric cov_rrb.
Proof. reflexivity. Qed.

Lemma cov_rrb_pos_def : pos_def cov_rrb.
Proof.
  intros a b c H. unfold quad; simpl.
  replace (a * (5 * a + 4 * b + 0 * c) + b * (4 * a + 5 * b + 0 * c)
           + c * (0 * a + 0 * b + 5 * c))
    with (4 * ((a + b) * (a + b)) + a * a + b * b + 5 * (c * c)) by ring.
  pose proof (Rle_0_sqr a) as Ha. pose proof (Rle_0_sqr b) as Hb.
  pose proof (Rle_0_sqr c) as Hc. pose proof (Rle_0_sqr (a + b)) as Hab.
  unfold Rsqr in *.
  destruct H as [H | [H | H]]; apply sq_pos in H; lra.
Qed.

Lemma cov_rbr_symmetric : symmetric cov_rbr.
Proof. reflexivity. Qed.

Lemma cov_rbr_pos_def : pos_def cov_rbr.
Proof.
  intros a b c H. unfold quad; simpl.
  replace (a * (5 * a + 0 * b + 4 * c) + b * (0 * a + 5 * b + 0 * c)
           + c * (4 * a + 0 * b + 5 * c))
    with (4 * ((a + c) * (a + c)) + a * a + c * c + 5 * (b * b)) by ring.
  pose proof (Rle_0_sqr a) as Ha. pose proof (Rle_0_sqr b) as Hb.
  pose proof (Rle_0_sqr c) as Hc. pose proof (Rle_0_sqr (a + c)) as Hac.
  unfold Rsqr in *.
  destruct H as [H | [H | H]]; apply sq_pos in H; lra.
Qed.

Lemma r2_sqr : r2 * r2 = 1 / 2.
Proof.
  unfold r2.
  replace (sqrt 2 / 2 * (sqrt 2 / 2)) with (sqrt 2 * sqrt 2 / 4) by field.
  rewrite sqrt_sqrt by lra. lra.
Qed.

Lemma svd_rrb_valid : is_svd cov_rrb svd_rrb.
Proof.
  pose proof r2_sqr as H.
  unfold is_svd, svd_rrb. repeat split; simpl; try lra; mat3_ext; nra.
Qed.

Lemma svd_rbr_valid : is_svd cov_rbr svd_rbr.
Proof.
  pose proof r2_sqr as H.
  unfold is_svd, svd_rbr. repeat split; simpl; try lra; mat3_ext; nra.
Qed.

Lemma svd_table_rrb : svd_table cov_rrb = svd_rrb.
Proof. unfold svd_table. rewrite is_zero_false; [reflexivity | simpl; lra]. Qed.

Lemma svd_table_rbr : svd_table cov_rbr = svd_rbr.
Proof. unfold svd_table. rewrite is_zero_true; reflexivity. Qed.

Lemma svd_table_valid_rrb : is_svd cov_rrb (svd_table cov_rrb).
Proof. rewrite svd_table_rrb. exact svd_rrb_valid. Qed.

Lemma svd_table_valid_rbr : is_svd cov_rbr (svd_table cov_rbr).
Proof. rewrite svd_table_rbr. exact svd_rbr_valid. Qed.

(** ** The host path *)

Section OnHost.

Variable svd : mat3 -> mat3 * vec3 * mat3.
Variable cuda_is_available : bool.

Lemma bind_ok {A B : Type} (m : res A) (k : A -> res B) (a : A) :
  m = Ok a -> bind m k = k a.
Proof. intros ->. reflexivity. Qed.

Lemma bind_fail {A B : Type} (m : res A) (k : A -> res B) (e : failure) :
  m = Fail e -> bind m k = Fail e.
Proof. intros ->. reflexivity. Qed.

(** With both images on the host and the accelerator branch not taken,
    [color_match] computes [color_match_values] and leaves it on the host. *)
Lemma color_match_on_host (src dst : tensor) (cuda : bool) :
  cuda && cuda_is_available = false ->
  color_match svd cuda_is_available (On CPU src) (On CPU dst) cuda =
  unop_r (fun s => color_match_values svd s dst) (On CPU src).
Proof.
  intros Hcud.
  unfold color_match, color_match_values, transfer_matrix, unop_r, unop,
    binop, binop_r, cov_eye; simpl.
  rewrite Hcud.
  destruct (view3 src) as [sf | e]; simpl; [ | reflexivity].
  destruct (view3 dst) as [df | e]; simpl; [ | reflexivity].
  destruct (std1 sf) as [ss | e]; simpl; [ | reflexivity].
  destruct (bdiv (bsub sf (mean1 sf)) ss) as [sn | e]; simpl; [ | reflexivity].
  destruct (std1 df) as [ds | e]; simpl; [ | reflexivity].
  destruct (bdiv (bsub df (mean1 df)) ds) as [dn | e]; simpl; [ | reflexivity].
  destruct (inverse (matSqrt svd (madd (mm_nt sn sn) eye3))) as [inv | e];
    simpl; [ | reflexivity].
  destruct (view_as _ src) as [out | e]; reflexivity.
Qed.

End OnHost.

(** ** Evaluating the pipeline on the two images *)

Ltac list_eq :=
  repeat (apply (f_equal2 (@cons R)); [ try reflexivity; lra | ]);
  reflexivity.

Ltac rows_eq := apply (f_equal3 Rows); list_eq.

Lemma view3_rrb : view3 img_rrb = Ok flat_rrb.
Proof. reflexivity. Qed.

Lemma view3_rbr : view3 img_rbr = Ok flat_rbr.
Proof. reflexivity. Qed.

Lemma rmean_r : rmean [2; 2; 0; 0; 1] = 1.
Proof. unfold rmean, rsum; simpl. lra. Qed.

Lemma rmean_b : rmean [2; 0; 2; 0; 1] = 1.
Proof. unfold rmean, rsum; simpl. lra. Qed.

Lemma rstd_r : rstd [2; 2; 0; 0; 1] = Ok 1.
Proof.
  unfold rstd. simpl length. simpl Nat.leb. cbv iota. rewrite rmean_r.
  f_equal. transitivity (sqrt 1); [ | apply sqrt_1 ].
  f_equal. unfold rsum; simpl. lra.
Qed.

Lemma rstd_b : rstd [2; 0; 2; 0; 1] = Ok 1.
Proof.
  unfold rstd. simpl length. simpl Nat.leb. cbv iota. rewrite rmean_b.
  f_equal. transitivity (sqrt 1); [ | apply sqrt_1 ].
  f_equal. unfold rsum; simpl. lra.
Qed.

Lemma mean1_rrb : mean1 flat_rrb = V3 1 1 1.
Proof.
  unfold mean1, flat_rrb. cbn [row0 row1 row2].
  rewrite rmean_r, rmean_b. reflexivity.
Qed.

Lemma mean1_rbr : mean1 flat_rbr = V3 1 1 1.
Proof.
  unfold mean1, flat_rbr. cbn [row0 row1 row2].
  rewrite rmean_r, rmean_b. reflexivity.
Qed.

Lemma std1_rrb : std1 flat_rrb = Ok (V3 1 1 1).
Proof.
  unfold std1, flat_rrb. cbn [row0 row1 row2].
  rewrite rstd_r, rstd_b. reflexivity.
Qed.

Lemma std1_rbr : std1 flat_rbr = Ok (V3 1 1 1).
Proof.
  unfold std1, flat_rbr. cbn [row0 row1 row2].
  rewrite rstd_r, rstd_b. reflexivity.
Qed.

Lemma bdiv_ones (x : rows3) : bdiv x (V3 1 1 1) = Ok (bmap Rdiv x (V3 1 1 1)).
Proof.
  unfold bdiv; simpl. rewrite (is_zero_false 1) by lra. reflexivity.
Qed.

Lemma normalize_rrb : normalize flat_rrb = Ok norm_rrb.
Proof.
  unfold normalize. rewrite std1_rrb, mean1_rrb; simpl.
  rewrite bdiv_ones. f_equal. unfold bmap, bsub, bmap; simpl. rows_eq.
Qed.

Lemma normalize_rbr : normalize flat_rbr = Ok norm_rbr.
Proof.
  unfold normalize. rewrite std1_rbr, mean1_rbr; simpl.
  rewrite bdiv_ones. f_equal. unfold bmap, bsub, bmap; simpl. rows_eq.
Qed.

Lemma cov_eye_rrb : cov_eye norm_rrb = cov_rrb.
Proof. unfold cov_eye, mm_nt, dot, rsum; mat3_ext; lra. Qed.

Lemma cov_eye_rbr : cov_eye norm_rbr = cov_rbr.
Proof. unfold cov_eye, mm_nt, dot, rsum; mat3_ext; lra. Qed.

(** ** Every decomposition of the two matrices gives the same [matSqrt]

    The singular values 9 > 5 > 1 are distinct, so the singular vectors are
    fixed up to sign, and the signs cancel in [U_ii * V_ii]. *)

Lemma mat3_entries (a b : mat3) :
  a = b ->
  (m00 a = m00 b /\ m10 a = m10 b /\ m20 a = m20 b) /\
  (m01 a = m01 b /\ m11 a = m11 b /\ m21 a = m21 b) /\
  (m02 a = m02 b /\ m12 a = m12 b /\ m22 a = m22 b).
Proof. intros ->. repeat split. Qed.

Lemma svd_times_V (x U V : mat3) (D : vec3) :
  is_svd x (U, D, V) -> mmul x V = mmul U (diag D).
Proof.
  intros (Hx & _ & HV & _).
  rewrite <- Hx, mmul_assoc, HV, mmul_eye_r. reflexivity.
Qed.

Lemma svd_gram_times_V (x U V : mat3) (D : vec3) :
  is_svd x (U, D, V) ->
  mmul (mmul (transpose x) x) V =
  mmul V (diag (V3 (v0 D * v0 D) (v1 D * v1 D) (v2 D * v2 D))).
Proof.
  intros H. rewrite mmul_assoc, (svd_times_V _ _ _ _ H).
  destruct H as (Hx & HU & _ & _).
  rewrite <- Hx at 1.
  rewrite !transpose_mmul, transpose_involutive, transpose_diag.
  rewrite !mmul_assoc, <- (mmul_assoc (transpose U)), HU, mmul_eye_l.
  rewrite diag_mmul. reflexivity.
Qed.

(** Unit eigenvectors of [cov_rrb^T cov_rrb]. *)
Lemma eigen_rrb (a b c l : R) :
  41 * a + 40 * b = a * l -> 40 * a + 41 * b = b * l -> 25 * c = c * l ->
  a * a + b * b + c * c = 1 ->
  (l = 81 /\ a = b /\ c = 0 /\ a * a = 1 / 2) \/
  (l = 25 /\ a = 0 /\ b = 0 /\ c * c = 1) \/
  (l = 1 /\ a = - b /\ c = 0 /\ a * a = 1 / 2).
Proof.
  intros E1 E2 E3 N.
  assert (Hp : (81 - l) * (a + b) = 0) by nra.
  assert (Hm : (1 - l) * (a - b) = 0) by nra.
  assert (Hc : (25 - l) * c = 0) by nra.
  destruct (Rmult_integral _ _ Hp) as [L | Z1].
  - left. assert (l = 81) by lra. subst l.
    destruct (Rmult_integral _ _ Hm) as [L' | Z2]; [lra | ].
    destruct (Rmult_integral _ _ Hc) as [L' | Z3]; [lra | ].
    assert (a = b) by lra. subst. repeat split; nra.
  - destruct (Rmult_integral _ _ Hm) as [L | Z2].
    + right; right. assert (l = 1) by lra. subst l.
      destruct (Rmult_integral _ _ Hc) as [L' | Z3]; [lra | ].
      assert (a = - b) by lra. subst. repeat split; nra.
    + right; left. assert (a = 0) by lra. assert (b = 0) by lra. subst.
      destruct (Rmult_integral _ _ Hc) as [L' | Z3].
      * repeat split; nra.
      * subst. lra.
Qed.

Lemma sqr_inj (d c : R) : 0 <= d -> 0 <= c -> d * d = c * c -> d = c.
Proof. intros. nra. Qed.

Lemma orth_half (a b : R) : a * a = 1 / 2 -> b * b = 1 / 2 -> a * b <> 0.
Proof.
  intros Ha Hb E. destruct (Rmult_integral _ _ E); subst; lra.
Qed.

Lemma orth_one (a b : R) : a * a = 1 -> b * b = 1 -> a * b <> 0.
Proof.
  intros Ha Hb E. destruct (Rmult_integral _ _ E); subst; lra.
Qed.

Ltac fix_sv :=
  repeat match goal with
  | L : ?d * ?d = 81 |- _ => assert (d = 9) by (apply sqr_inj; lra); clear L
  | L : ?d * ?d = 25 |- _ => assert (d = 5) by (apply sqr_inj; lra); clear L
  | L : ?d * ?d = 1, P : 0 <= ?d |- _ =>
      assert (d = 1) by (apply sqr_inj; lra); clear L
  end.

Ltac same_pair Q Q' :=
  first [ apply (orth_half _ _ Q Q'); lra | apply (orth_one _ _ Q Q'); lra ].

Lemma svd_unique_rrb (U V : mat3) (D : vec3) :
  is_svd cov_rrb (U, D, V) ->
  D = V3 9 5 1 /\ m00 U * m00 V = 1 / 2 /\ m11 V = 0 /\ m22 V = 0.
Proof.
  intros H.
  pose proof (svd_gram_times_V _ _ _ _ H) as HG.
  pose proof (svd_times_V _ _ _ _ H) as HX.
  destruct H as (_ & _ & HV & S2 & S1 & S0).
  destruct U as [u00 u01 u02 u10 u11 u12 u20 u21 u22].
  destruct V as [a0 a1 a2 b0 b1 b2 c0 c1 c2].
  destruct D as [d0 d1 d2].
  apply mat3_entries in HG; simpl in HG.
  apply mat3_entries in HX; simpl in HX.
  apply mat3_entries in HV; simpl in HV.
  destruct HG as ((G00 & G10 & G20) & (G01 & G11 & G21) & (G02 & G12 & G22)).
  destruct HX as ((X00 & _) & _).
  destruct HV as ((N0 & _ & _) & (O01 & N1 & _) & (O02 & O12 & N2)).
  simpl in *.
  assert (E0 := eigen_rrb a0 b0 c0 (d0 * d0)).
  assert (E1 := eigen_rrb a1 b1 c1 (d1 * d1)).
  assert (E2 := eigen_rrb a2 b2 c2 (d2 * d2)).
  specialize (E0 ltac:(lra) ltac:(lra) ltac:(lra) ltac:(lra)).
  specialize (E1 ltac:(lra) ltac:(lra) ltac:(lra) ltac:(lra)).
  specialize (E2 ltac:(lra) ltac:(lra) ltac:(lra) ltac:(lra)).
  assert (P0 : 0 <= d0) by lra. assert (P1 : 0 <= d1) by lra.
  assert (P2 : 0 <= d2) by lra.
  clear G00 G10 G20 G01 G11 G21 G02 G12 G22 N0 N1 N2.
  destruct E0 as [(L0 & A0 & C0 & Q0) | [(L0 & A0 & B0 & Q0) | (L0 & A0 & C0 & Q0)]];
  destruct E1 as [(L1 & A1 & C1 & Q1) | [(L1 & A1 & B1 & Q1) | (L1 & A1 & C1 & Q1)]];
  destruct E2 as [(L2 & A2 & C2 & Q2) | [(L2 & A2 & B2 & Q2) | (L2 & A2 & C2 & Q2)]];
  fix_sv; try (exfalso; lra); subst;
  try (exfalso; first [same_pair Q0 Q1 | same_pair Q0 Q2 | same_pair Q1 Q2]).
  repeat split; nra.
Qed.

Lemma svd_unique_rbr (U V : mat3) (D : vec3) :
  is_svd cov_rbr (U, D, V) ->
  D = V3 9 5 1 /\ m00 U * m00 V = 1 / 2 /\ m11 U * m11 V = 1 /\
  m22 U * m22 V = 1 / 2.
Proof.
  intros H.
  pose proof (svd_gram_times_V _ _ _ _ H) as HG.
  pose proof (svd_times_V _ _ _ _ H) as HX.
  destruct H as (_ & _ & HV & S2 & S1 & S0).
  destruct U as [u00 u01 u02 u10 u11 u12 u20 u21 u22].
  destruct V as [a0 a1 a2 b0 b1 b2 c0 c1 c2].
  destruct D as [d0 d1 d2].
  apply mat3_entries in HG; simpl in HG.
  apply mat3_entries in HX; simpl in HX.
  apply mat3_entries in HV; simpl in HV.
  destruct HG as ((G00 & G10 & G20) & (G01 & G11 & G21) & (G02 & G12 & G22)).
  destruct HX as ((X00 & _) & (_ & X11 & _) & (_ & _ & X22)).
  destruct HV as ((N0 & _ & _) & (O01 & N1 & _) & (O02 & O12 & N2)).
  simpl in *.
  assert (E0 := eigen_rrb a0 c0 b0 (d0 * d0)).
  assert (E1 := eigen_rrb a1 c1 b1 (d1 * d1)).
  assert (E2 := eigen_rrb a2 c2 b2 (d2 * d2)).
  specialize (E0 ltac:(lra) ltac:(lra) ltac:(lra) ltac:(lra)).
  specialize (E1 ltac:(lra) ltac:(lra) ltac:(lra) ltac:(lra)).
  specialize (E2 ltac:(lra) ltac:(lra) ltac:(lra) ltac:(lra)).
  assert (P0 : 0 <= d0) by lra. assert (P1 : 0 <= d1) by lra.
  assert (P2 : 0 <= d2) by lra.
  clear G00 G10 G20 G01 G11 G21 G02 G12 G22 N0 N1 N2.
  destruct E0 as [(L0 & A0 & C0 & Q0) | [(L0 & A0 & B0 & Q0) | (L0 & A0 & C0 & Q0)]];
  destruct E1 as [(L1 & A1 & C1 & Q1) | [(L1 & A1 & B1 & Q1) | (L1 & A1 & C1 & Q1)]];
  destruct E2 as [(L2 & A2 & C2 & Q2) | [(L2 & A2 & B2 & Q2) | (L2 & A2 & C2 & Q2)]];
  fix_sv; try (exfalso; lra); subst;
  try (exfalso; first [same_pair Q0 Q1 | same_pair Q0 Q2 | same_pair Q1 Q2]).
  repeat split; nra.
Qed.

Lemma sqrt_9 : sqrt 9 = 3.
Proof. replace 9 with (3 * 3) by lra. apply sqrt_square; lra. Qed.

Lemma sqrt_5_pos : 0 < sqrt 5.
Proof. apply sqrt_lt_R0; lra. Qed.

Lemma sqrt_5_sqr : sqrt 5 * sqrt 5 = 5.
Proof. apply sqrt_sqrt; lra. Qed.

Lemma inverse_diag (d : vec3) :
  v0 d * v1 d * v2 d <> 0 ->
  inverse (diag d) = Ok (diag (V3 (/ v0 d) (/ v1 d) (/ v2 d))).
Proof.
  intros H. unfold inverse. rewrite det_diag, is_zero_false by exact H.
  assert (v0 d <> 0 /\ v1 d <> 0 /\ v2 d <> 0) as (H0 & H1 & H2).
  { repeat split; intros E; apply H; rewrite E; ring. }
  f_equal. unfold diag; mat3_ext; field; auto.
Qed.

Lemma inverse_diag_singular (d : vec3) :
  v0 d * v1 d * v2 d = 0 -> inverse (diag d) = Fail SingularMatrix.
Proof.
  intros H. unfold inverse. rewrite det_diag, is_zero_true by exact H.
  reflexivity.
Qed.


(** ** [matSqrt] of the two covariance matrices *)

Section AnySvd.

Variable svd : mat3 -> mat3 * vec3 * mat3.

Hypothesis svd_rrb_ok : is_svd cov_rrb (svd cov_rrb).
Hypothesis svd_rbr_ok : is_svd cov_rbr (svd cov_rbr).

Lemma matSqrt_rrb : matSqrt svd cov_rrb = diag (V3 (3 / 2) 0 0).
Proof.
  rewrite matSqrt_diag. destruct (svd cov_rrb) as [[U D] V].
  destruct (svd_unique_rrb _ _ _ svd_rrb_ok) as (-> & H0 & H1 & H2).
  simpl. rewrite sqrt_9, H1, H2. f_equal. f_equal; nra.
Qed.

Lemma matSqrt_rbr :
  matSqrt svd cov_rbr = diag (V3 (3 / 2) (sqrt 5) (1 / 2)).
Proof.
  rewrite matSqrt_diag. destruct (svd cov_rbr) as [[U D] V].
  destruct (svd_unique_rbr _ _ _ svd_rbr_ok) as (-> & H0 & H1 & H2).
  simpl. rewrite sqrt_9, sqrt_1.
  replace (m11 U * sqrt 5 * m11 V) with (m11 U * m11 V * sqrt 5) by ring.
  rewrite H1. f_equal. f_equal; nra.
Qed.

Lemma color_match_values_rbr_rrb :
  color_match_values svd img_rbr img_rrb = Ok img_out.
Proof.
  pose proof normalize_rbr as Hs. pose proof normalize_rrb as Hd.
  unfold normalize in Hs, Hd.
  rewrite std1_rbr in Hs. rewrite std1_rrb in Hd. cbn [bind] in Hs, Hd.
  unfold color_match_values.
  rewrite view3_rbr, view3_rrb; cbn [bind].
  rewrite std1_rbr; cbn [bind]. rewrite Hs; cbn [bind].
  rewrite std1_rrb; cbn [bind]. rewrite Hd; cbn [bind].
  rewrite cov_eye_rbr, cov_eye_rrb, matSqrt_rbr, matSqrt_rrb.
  pose proof sqrt_5_pos as H5.
  rewrite inverse_diag by (simpl; nra). cbn [bind].
  rewrite mean1_rrb.
  unfold view_as, img_out; simpl. f_equal. f_equal.
  list_eq.
Qed.

Lemma color_match_values_rrb_rrb :
  color_match_values svd img_rrb img_rrb = Fail SingularMatrix.
Proof.
  pose proof normalize_rrb as Hd. unfold normalize in Hd.
  rewrite std1_rrb in Hd. cbn [bind] in Hd.
  unfold color_match_values.
  rewrite view3_rrb; cbn [bind].
  rewrite std1_rrb; cbn [bind]. rewrite Hd; cbn [bind].
  rewrite cov_eye_rrb, matSqrt_rrb.
  rewrite inverse_diag_singular by (simpl; lra). reflexivity.
Qed.

End AnySvd.

(** ** The square root the specification asks for

    With matrix products, and an orthogonal [U = V] as a symmetric
    positive-definite matrix has, the returned matrix does square to [x]. *)
Lemma matSqrt_spec_square (svd : mat3 -> mat3 * vec3 * mat3)
    (x U : mat3) (D : vec3) :
  svd x = (U, D, U) -> is_svd x (U, D, U) ->
  mmul (matSqrt_spec svd x) (matSqrt_spec svd x) = x.
Proof.
  intros E (Hx & HU & _ & S2 & S1 & S0).
  unfold matSqrt_spec. rewrite E.
  rewrite !mmul_assoc, <- (mmul_assoc (transpose U) U), HU, mmul_eye_l.
  rewrite <- (mmul_assoc (diag (pow_half D))), diag_mmul. simpl.
  rewrite !sqrt_sqrt by lra.
  rewrite <- mmul_assoc. destruct D; exact Hx.
Qed.

(** C1 (code differs).  [matSqrt] multiplies element-wise, so what it returns
    is a diagonal matrix whatever [torch.svd] answers.  On the symmetric
    positive-definite [cov_rrb] the square of the returned matrix has 0 at
    position (0, 1), where [cov_rrb] has 4. *)
Theorem matSqrt_square_misses_off_diagonal
    (svd : mat3 -> mat3 * vec3 * mat3) :
  symmetric cov_rrb /\ pos_def cov_rrb /\
  m01 cov_rrb = 4 /\
  m01 (mmul (matSqrt svd cov_rrb) (matSqrt svd cov_rrb)) = 0.
Proof.
  split; [exact cov_rrb_symmetric | ].
  split; [exact cov_rrb_pos_def | ].
  split; [reflexivity | ].
  rewrite matSqrt_diag. destruct (svd cov_rrb) as [[U D] V].
  simpl. ring.
Qed.

(** For a true decomposition the square is [diag(9/4, 0, 0)]. *)
Lemma matSqrt_square_rrb (svd : mat3 -> mat3 * vec3 * mat3) :
  is_svd cov_rrb (svd cov_rrb) ->
  mmul (matSqrt svd cov_rrb) (matSqrt svd cov_rrb) = diag (V3 (9 / 4) 0 0).
Proof.
  intros H. rewrite (matSqrt_rrb svd H), diag_mmul. simpl.
  f_equal. f_equal; lra.
Qed.

(** ** The transfer matrix *)

(** A matrix with two zero rows is no product of a square root of [cov_rrb]
    with an inverse. *)
Lemma no_square_root_gives_e00 (Sd Ss Si : mat3) :
  mmul Sd Sd = cov_rrb -> mmul Ss Si = eye3 -> mmul Si Ss = eye3 ->
  mmul Sd Si <> diag (V3 1 0 0).
Proof.
  intros Hd Hr Hl E.
  assert (Hs : Sd = mmul (diag (V3 1 0 0)) Ss).
  { rewrite <- E, mmul_assoc, Hl, mmul_eye_r. reflexivity. }
  rewrite Hs in Hd. apply (f_equal m11) in Hd. simpl in Hd. lra.
Qed.

(** What the specification's reading computes for the two images. *)
Lemma matSqrt_spec_rrb :
  matSqrt_spec svd_table cov_rrb = M3 2 1 0  1 2 0  0 0 (sqrt 5).
Proof.
  unfold matSqrt_spec. rewrite svd_table_rrb. unfold svd_rrb, U_rrb.
  pose proof r2_sqr as H. pose proof sqrt_5_sqr as H5.
  mat3_ext; rewrite ?sqrt_9, ?sqrt_1; nra.
Qed.

Lemma matSqrt_spec_rbr :
  matSqrt_spec svd_table cov_rbr = M3 2 0 1  0 (sqrt 5) 0  1 0 2.
Proof.
  unfold matSqrt_spec. rewrite svd_table_rbr. unfold svd_rbr, U_rbr.
  pose proof r2_sqr as H. pose proof sqrt_5_sqr as H5.
  mat3_ext; rewrite ?sqrt_9, ?sqrt_1; nra.
Qed.

Lemma transfer_matrix_spec_rbr_rrb :
  transfer_matrix_spec svd_table (On CPU cov_rbr) (On CPU cov_rrb) =
  Ok (On CPU transfer_spec_rbr_rrb).
Proof.
  pose proof sqrt_5_pos as H5. pose proof sqrt_5_sqr as H5'.
  unfold transfer_matrix_spec, unop_r, unop, binop, binop_r; simpl.
  rewrite matSqrt_spec_rbr, matSqrt_spec_rrb.
  unfold inverse, det; simpl.
  rewrite is_zero_false by nra. simpl.
  f_equal. f_equal. unfold transfer_spec_rbr_rrb. mat3_ext; field; nra.
Qed.

(** C2 (code differs).  For the images [img_rbr] and [img_rrb], whose
    covariance-plus-identity matrices are [cov_rbr] and [cov_rrb], and for every
    true decomposition [torch.svd] may return, the matrix that multiplies
    [src_norm] is [diag(1, 0, 0)]: the element-wise product of two diagonal
    matrices.  No square root of [cov_rrb] times an inverse matrix equals
    it. *)
Theorem transfer_matrix_is_elementwise
    (svd : mat3 -> mat3 * vec3 * mat3) :
  is_svd cov_rbr (svd cov_rbr) -> is_svd cov_rrb (svd cov_rrb) ->
  (x <- view3 img_rbr ;; n <- normalize x ;; Ok (cov_eye n)) = Ok cov_rbr /\
  (x <- view3 img_rrb ;; n <- normalize x ;; Ok (cov_eye n)) = Ok cov_rrb /\
  transfer_matrix svd (On CPU cov_rbr) (On CPU cov_rrb) =
    Ok (On CPU (diag (V3 1 0 0))) /\
  (forall Sd Ss Si : mat3,
     mmul Sd Sd = cov_rrb -> mmul Ss Si = eye3 -> mmul Si Ss = eye3 ->
     mmul Sd Si <> diag (V3 1 0 0)).
Proof.
  intros Hs Hd. repeat split.
  - rewrite view3_rbr; cbn [bind]. rewrite normalize_rbr; cbn [bind].
    rewrite cov_eye_rbr. reflexivity.
  - rewrite view3_rrb; cbn [bind]. rewrite normalize_rrb; cbn [bind].
    rewrite cov_eye_rrb. reflexivity.
  - unfold transfer_matrix, unop_r, unop, binop, binop_r; simpl.
    rewrite (matSqrt_rbr svd Hs), (matSqrt_rrb svd Hd).
    pose proof sqrt_5_pos as H5.
    rewrite inverse_diag by (simpl; nra). simpl.
    f_equal. f_equal. unfold diag; mat3_ext; field; nra.
  - exact no_square_root_gives_e00.
Qed.

Lemma transfer_matrix_is_elementwise_at_table :
  (x <- view3 img_rbr ;; n <- normalize x ;; Ok (cov_eye n)) = Ok cov_rbr /\
  (x <- view3 img_rrb ;; n <- normalize x ;; Ok (cov_eye n)) = Ok cov_rrb /\
  transfer_matrix svd_table (On CPU cov_rbr) (On CPU cov_rrb) =
    Ok (On CPU (diag (V3 1 0 0))) /\
  (forall Sd Ss Si : mat3,
     mmul Sd Sd = cov_rrb -> mmul Ss Si = eye3 -> mmul Si Ss = eye3 ->
     mmul Sd Si <> diag (V3 1 0 0)).
Proof.
  apply (transfer_matrix_is_elementwise svd_table).
  - exact svd_table_valid_rbr.
  - exact svd_table_valid_rrb.
Defined.

(** ** [color_match] on the two images *)

(** C3 (code differs).  [img_rrb] is a valid 3-channel image with no constant
    channel.  For every true decomposition [torch.svd] may return,
    [color_match img_rrb img_rrb] does not return the image: [matSqrt] of its
    covariance matrix is [diag(3/2, 0, 0)] and [inverse] raises. *)
Theorem color_match_self_raises
    (svd : mat3 -> mat3 * vec3 * mat3) (cuda_is_available : bool) :
  is_svd cov_rrb (svd cov_rrb) ->
  well_shaped img_rrb /\
  channel_std img_rrb = Ok (V3 1 1 1) /\
  color_match svd cuda_is_available (On CPU img_rrb) (On CPU img_rrb) false =
    Fail SingularMatrix.
Proof.
  intros H. repeat split.
  - unfold channel_std. rewrite view3_rrb; cbn [bind]. exact std1_rrb.
  - rewrite color_match_on_host by reflexivity.
    unfold unop_r; simpl val.
    rewrite (color_match_values_rrb_rrb svd H). reflexivity.
Qed.

Lemma color_match_self_raises_at_table :
  well_shaped img_rrb /\
  channel_std img_rrb = Ok (V3 1 1 1) /\
  color_match svd_table false (On CPU img_rrb) (On CPU img_rrb) false =
    Fail SingularMatrix.
Proof.
  apply (color_match_self_raises svd_table false).
  exact svd_table_valid_rrb.
Defined.

(** For every true decomposition [torch.svd] may return,
    [color_match img_rbr img_rrb] returns [img_out].  Its channel means are
    those of [img_rrb], but the standard deviations of its channels 1 and 2
    are 0 where those of [img_rrb] are 1. *)
Lemma color_match_std_not_matched
    (svd : mat3 -> mat3 * vec3 * mat3) (cuda_is_available : bool) :
  is_svd cov_rbr (svd cov_rbr) -> is_svd cov_rrb (svd cov_rrb) ->
  color_match svd cuda_is_available (On CPU img_rbr) (On CPU img_rrb) false =
    Ok (On CPU img_out) /\
  channel_mean img_out = Ok (V3 1 1 1) /\
  channel_mean img_rrb = Ok (V3 1 1 1) /\
  channel_std img_out = Ok (V3 1 0 0) /\
  channel_std img_rrb = Ok (V3 1 1 1).
Proof.
  intros Hs Hd. repeat split.
  - rewrite color_match_on_host by reflexivity.
    unfold unop_r; simpl val.
    rewrite (color_match_values_rbr_rrb svd Hd Hs). reflexivity.
  - unfold channel_mean, img_out, view3, mean1, rmean, rsum; simpl.
    f_equal. f_equal; lra.
  - unfold channel_mean. rewrite view3_rrb; cbn [bind].
    rewrite mean1_rrb. reflexivity.
  - unfold channel_std, img_out, view3; simpl.
    unfold std1; cbn [row0 row1 row2]. rewrite rstd_r.
    assert (E : rstd [1; 1; 1; 1; 1] = Ok 0).
    { unfold rstd; simpl length; simpl Nat.leb; cbv iota.
      f_equal. transitivity (sqrt 0); [ | apply sqrt_0 ].
      f_equal. unfold rmean, rsum; simpl. field. }
    rewrite E. reflexivity.
  - unfold channel_std. rewrite view3_rrb; cbn [bind]. exact std1_rrb.
Qed.

(** C5, counterexample.  Neither [img_rbr] nor [img_rrb] has a constant
    channel: every channel of both has standard deviation 1.
    [color_match img_rbr img_rrb] returns, and the channels of the result
    have the standard deviations 1, 0, 0 where those of [dst] are 1, 1, 1. *)
Lemma color_match_std_counterexample :
  channel_std img_rbr = Ok (V3 1 1 1) /\
  channel_std img_rrb = Ok (V3 1 1 1) /\
  color_match svd_table false (On CPU img_rbr) (On CPU img_rrb) false =
    Ok (On CPU img_out) /\
  channel_std img_out = Ok (V3 1 0 0).
Proof.
  destruct (color_match_std_not_matched svd_table false
              svd_table_valid_rbr svd_table_valid_rrb)
    as (Hout & _ & _ & Hso & Hsd).
  repeat split; try assumption.
  unfold channel_std. rewrite view3_rbr; cbn [bind]. exact std1_rbr.
Qed.

(** *** The standard deviations under the specification's reading

    The miss of the standard deviations is not only the element-wise
    product's: with matrix products, as the specification words lines 137
    and 161, the transfer matrix of the same two images is
    [transfer_spec_rbr_rrb], and the rows [T @ src_norm * dst_std + dst_mean]
    have the standard deviations sqrt(29/45), sqrt(41/45) and sqrt(5/9),
    not the 1, 1, 1 of [dst].  The identity matrix added to both covariances
    keeps [T cov(src) T^T] away from [cov(dst)]. *)

Lemma inv_sqrt_5 : / sqrt 5 = sqrt 5 * / 5.
Proof.
  pose proof sqrt_5_pos. pose proof sqrt_5_sqr.
  apply Rmult_eq_reg_l with (sqrt 5); [ | lra].
  rewrite Rinv_r by lra. lra.
Qed.

Lemma rstd_five (m a b c d e : R) :
  a + b + c + d + e = 5 * m ->
  rstd [a; b; c; d; e] =
  Ok (sqrt (((a - m) * (a - m) + (b - m) * (b - m) + (c - m) * (c - m) +
             (d - m) * (d - m) + (e - m) * (e - m)) / 4)).
Proof.
  intros H. unfold rstd. cbn [length Nat.leb Nat.sub].
  assert (Hm : rmean [a; b; c; d; e] = m).
  { unfold rmean, rsum. cbn [fold_right length].
    replace (a + (b + (c + (d + (e + 0))))) with (5 * m) by lra.
    simpl. field. }
  cbv zeta. rewrite Hm. f_equal. f_equal. unfold rsum. cbn [map fold_right].
  f_equal; [ring | simpl; lra].
Qed.

Lemma std_spec_reading_rbr_rrb :
  transfer_matrix_spec svd_table (On CPU cov_rbr) (On CPU cov_rrb) =
    Ok (On CPU transfer_spec_rbr_rrb) /\
  std1 (badd (bmul (mm_rows transfer_spec_rbr_rrb norm_rbr) (V3 1 1 1))
             (V3 1 1 1)) =
    Ok (V3 (sqrt (29 / 45)) (sqrt (41 / 45)) (sqrt (5 / 9))) /\
  sqrt (29 / 45) < 1 /\ sqrt (41 / 45) < 1 /\ sqrt (5 / 9) < 1.
Proof.
  split; [exact transfer_matrix_spec_rbr_rrb | ]. split.
  - pose proof sqrt_5_sqr as S5.
    unfold std1, badd, bmul, bmap, mm_rows, transfer_spec_rbr_rrb, norm_rbr.
    cbn [row0 row1 row2 m00 m01 m02 m10 m11 m12 m20 m21 m22 lincomb map
         v0 v1 v2].
    unfold Rdiv. rewrite !inv_sqrt_5.
    rewrite !(rstd_five 1) by lra. cbn [bind].
    f_equal. f_equal; f_equal; nra.
  - repeat split; rewrite <- sqrt_1; apply sqrt_lt_1; lra.
Qed.

(** ** Shape of the result *)

Lemma bind_inv {A B : Type} (m : res A) (k : A -> res B) (b : B) :
  bind m k = Ok b -> exists a, m = Ok a /\ k a = Ok b.
Proof.
  destruct m as [a | e]; simpl; intros H; [eauto | discriminate].
Qed.

Lemma view_as_shape (x : rows3) (like out : tensor) :
  view_as x like = Ok out ->
  tshape out = tshape like /\ well_shaped out.
Proof.
  unfold view_as, well_shaped.
  destruct (length (row0 x ++ row1 x ++ row2 x) =? numel (tshape like))%nat
    eqn:E; intros H; inversion H; subst; simpl.
  split; [reflexivity | ]. apply Nat.eqb_eq. exact E.
Qed.

(** C4.  Whenever [color_match src dst] returns a tensor, on whatever device
    and for whatever [dst], that tensor has the shape of [src], and as many
    entries as that shape asks for. *)
Theorem color_match_shape
    (svd : mat3 -> mat3 * vec3 * mat3) (cuda_is_available : bool)
    (src dst : on tensor) (cuda : bool) (out : on tensor) :
  color_match svd cuda_is_available src dst cuda = Ok out ->
  tshape (val out) = tshape (val src) /\ well_shaped (val out).
Proof.
  unfold color_match, unop_r. intros H.
  repeat first
    [ apply bind_inv in H; destruct H as (? & ? & H)
    | match type of H with
      | context [let '(_, _) := ?p in _] => destruct p
      end ].
  inversion H; subst; simpl.
  match goal with
  | Hv : view_as _ _ = Ok _ |- _ => exact (view_as_shape _ _ _ Hv)
  end.
Qed.

Lemma color_match_values_shape_free
    (svd : mat3 -> mat3 * vec3 * mat3) (src : tensor)
    (sh sh' : list nat) (d : list R) :
  color_match_values svd src (Tensor sh d) =
  color_match_values svd src (Tensor sh' d).
Proof. reflexivity. Qed.

(** [color_match] returns on [img_rbr], of shape (3, 1, 5), with a [dst] of
    shape (3, 5, 1). *)
Lemma color_match_rbr_tall :
  color_match svd_table false (On CPU img_rbr) (On CPU img_rrb_tall) false =
  Ok (On CPU img_out).
Proof.
  rewrite color_match_on_host by reflexivity.
  unfold unop_r; simpl val. unfold img_rrb_tall.
  rewrite (color_match_values_shape_free _ _ _ (tshape img_rrb)).
  change (Tensor (tshape img_rrb) (tdata img_rrb)) with img_rrb.
  rewrite (color_match_values_rbr_rrb svd_table
             svd_table_valid_rrb svd_table_valid_rbr).
  reflexivity.
Qed.

Lemma color_match_shape_rbr_tall :
  tshape img_out = tshape img_rbr /\ well_shaped img_out.
Proof.
  exact (color_match_shape svd_table false (On CPU img_rbr)
           (On CPU img_rrb_tall) false (On CPU img_out) color_match_rbr_tall).
Defined.

(** ** The device flag *)

(** C6.  Without accelerator, [cuda = True] and [cuda = False] run the same
    branch: the two calls are the same function of [(src, dst)]. *)
Theorem color_match_flag_without_accelerator
    (svd : mat3 -> mat3 * vec3 * mat3) (src dst : on tensor) :
  color_match svd false src dst true = color_match svd false src dst false.
Proof. reflexivity. Qed.

(** With an accelerator the flag does select another branch: the identity
    matrix goes to the accelerator, and host images can no longer be added
    to it. *)
Lemma color_match_flag_with_accelerator
    (svd : mat3 -> mat3 * vec3 * mat3) :
  color_match svd true (On CPU img_rbr) (On CPU img_rrb) true =
  Fail DeviceError.
Proof.
  pose proof normalize_rbr as Hs. pose proof normalize_rrb as Hd.
  unfold normalize in Hs, Hd.
  rewrite std1_rbr in Hs. rewrite std1_rrb in Hd. cbn [bind] in Hs, Hd.
  unfold color_match, unop_r, unop, binop, binop_r.
  cbn [val dev]. rewrite view3_rbr, view3_rrb. cbn [bind val dev].
  rewrite std1_rbr, std1_rrb. cbn [bind val dev same_device device_eqb].
  rewrite Hs. cbn [bind val dev same_device device_eqb].
  rewrite Hd. cbn [bind val dev same_device device_eqb andb to_cuda].
  reflexivity.
Qed.

(** ** [preprocess_batch] *)

(** On three channels the result holds the channels in reverse order. *)
Lemma preprocess_batch_reverses {A : Type} (batch : tensor4 A) :
  dim1 batch = 3%nat ->
  exists b, preprocess_batch batch = Ok b /\
    dim0 b = dim0 batch /\ dim1 b = 3%nat /\
    dim2 b = dim2 batch /\ dim3 b = dim3 batch /\
    forall i j k l, (j < 3)%nat -> at4 b i j k l = at4 batch i (2 - j)%nat k l.
Proof.
  destruct batch as [d0 d1 d2 d3 f]; simpl. intros ->.
  unfold preprocess_batch, chunk0, split0, transpose01, narrow0. simpl.
  unfold cat2, same_tail. simpl.
  repeat (rewrite !Nat.eqb_refl; simpl).
  eexists. split; [reflexivity | ]. simpl.
  repeat split.
  intros i j k l Hj.
  destruct j as [ | [ | [ | j]]]; simpl; try reflexivity; lia.
Qed.

(** C9.  On a batch with exactly 3 channels [preprocess_batch] returns, it
    returns again on its own result, and the second result has the sizes and
    the entries of the batch: swapping RGB to BGR twice restores the order. *)
Theorem preprocess_batch_involutive {A : Type} (batch : tensor4 A) :
  dim1 batch = 3%nat ->
  exists b1 b2,
    preprocess_batch batch = Ok b1 /\
    preprocess_batch b1 = Ok b2 /\
    same_tensor b2 batch.
Proof.
  intros H.
  destruct (preprocess_batch_reverses batch H)
    as (b1 & E1 & D0 & D1 & D2 & D3 & F1).
  destruct (preprocess_batch_reverses b1 D1)
    as (b2 & E2 & D0' & D1' & D2' & D3' & F2).
  exists b1, b2. repeat split; try congruence.
  intros i j k l Hi Hj Hk Hl.
  assert (Hj3 : (j < 3)%nat) by lia.
  rewrite F2 by exact Hj3. rewrite F1 by lia.
  f_equal. lia.
Qed.

Lemma preprocess_batch_involutive_rgb :
  exists b1 b2,
    preprocess_batch batch_rgb = Ok b1 /\
    preprocess_batch b1 = Ok b2 /\
    same_tensor b2 batch_rgb.
Proof.
  apply (preprocess_batch_involutive batch_rgb). reflexivity.
Defined.

(** With four channels [torch.chunk] gives two chunks and the unpacking
    raises. *)
Lemma preprocess_batch_four_channels :
  preprocess_batch (T4 1 4 1 1 (fun _ j _ _ => j)) = Fail ValueError.
Proof. reflexivity. Qed.

(** ** [StyleLoader] *)

Lemma py_mod_pos (a n : Z) : (0 < n)%Z -> py_mod a n = Ok (a mod n)%Z.
Proof.
  intros H. unfold py_mod.
  destruct (Z.eqb_spec n 0); [lia | reflexivity].
Qed.

Lemma py_index_in_range {A : Type} (l : list A) (idx : Z) :
  (0 <= idx < Z.of_nat (length l))%Z ->
  exists a, nth_error l (Z.to_nat idx) = Some a /\ py_index l idx = Ok a.
Proof.
  intros H. unfold py_index.
  destruct (Z.ltb_spec idx 0); [lia | ].
  destruct (Z.ltb_spec idx 0); [lia | ].
  destruct (Z.leb_spec (Z.of_nat (length l)) idx); [lia | ]. simpl.
  destruct (nth_error l (Z.to_nat idx)) as [a | ] eqn:E.
  - exists a. split; reflexivity.
  - apply nth_error_None in E. lia.
Qed.

(** C10.  For a loader over a non-empty folder and [i >= 0], [get(i)]
    selects position [i mod size()], which is a position of the list, and
    reads the file of that name in the folder:
    - if that file cannot be opened, [get(i)] fails with the error of the
      attempt;
    - if it opens as [img], [get(i)] fails only for want of an accelerator,
      and otherwise returns the batch made of [img];
    - no other file matters: on two file systems that agree on that one
      path, [get(i)] is the same.
    So [get(i + size())] is the same call as [get(i)]. *)
Theorem get_wraps_around
    (image_open : string -> res pil_image)
    (resize : pil_image -> nat -> nat -> pil_image)
    (cuda_is_available : bool) (self : StyleLoader) (i : Z) :
  files self <> [] -> (0 <= i)%Z ->
  exists name,
    (0 <= i mod size self < size self)%Z /\
    nth_error (files self) (Z.to_nat (i mod size self)) = Some name /\
    get_filepath self i = Ok (path_join (folder self) name) /\
    get_filepath self (i + size self) = get_filepath self i /\
    get image_open resize cuda_is_available self (i + size self) =
    get image_open resize cuda_is_available self i /\
    (forall e, image_open (path_join (folder self) name) = Fail e ->
       get image_open resize cuda_is_available self i = Fail e) /\
    (forall img, image_open (path_join (folder self) name) = Ok img ->
       let img' := match style_size self with
                   | Some n => resize img n n
                   | None => img
                   end in
       if cuda self && negb cuda_is_available
       then get image_open resize cuda_is_available self i = Fail DeviceError
       else exists style,
           get image_open resize cuda_is_available self i = Ok style /\
           dev style = (if cuda self then CUDA else CPU) /\
           dim0 (val style) = 1%nat /\ dim1 (val style) = 3%nat /\
           dim2 (val style) = height img' /\
           dim3 (val style) = width img' /\
           forall b j k l, (j < 3)%nat ->
             at4 (val style) b j k l = pixel img' k l (2 - j)%nat) /\
    (forall image_open' : string -> res pil_image,
       image_open' (path_join (folder self) name) =
       image_open (path_join (folder self) name) ->
       get image_open' resize cuda_is_available self i =
       get image_open resize cuda_is_available self i).
Proof.
  intros Hne Hi. unfold size.
  assert (Hn : (0 < Z.of_nat (length (files self)))%Z).
  { destruct (files self); [congruence | simpl length; lia]. }
  set (n := Z.of_nat (length (files self))) in *.
  assert (Hr : (0 <= i mod n < n)%Z) by (apply Z.mod_pos_bound; exact Hn).
  destruct (py_index_in_range (files self) (i mod n)%Z Hr) as (name & Hnth & Hidx).
  assert (Hw : ((i + n) mod n = i mod n)%Z).
  { replace (i + n)%Z with (i + 1 * n)%Z by lia. apply Z_mod_plus_full. }
  assert (Hp : get_filepath self (i + n) = get_filepath self i).
  { unfold get_filepath. fold n. rewrite !py_mod_pos by exact Hn.
    rewrite Hw. reflexivity. }
  assert (Hpath : get_filepath self i = Ok (path_join (folder self) name)).
  { unfold get_filepath. fold n. rewrite py_mod_pos by exact Hn. cbn [bind].
    rewrite Hidx. reflexivity. }
  exists name.
  split; [exact Hr | ]. split; [exact Hnth | ]. split; [exact Hpath | ].
  split; [exact Hp | ].
  split; [unfold get; rewrite Hp; reflexivity | ].
  split; [ | split].
  - intros e He. unfold get, tensor_load_rgbimage.
    rewrite Hpath. cbn [bind]. rewrite He. reflexivity.
  - intros img Himg. cbv zeta.
    set (img' := match style_size self with
                 | Some n => resize img n n
                 | None => img
                 end).
    unfold get, tensor_load_rgbimage.
    rewrite Hpath. cbn [bind]. rewrite Himg. cbn [bind].
    assert (Hl : match style_size self with
                 | Some size => Ok (resize img size size)
                 | None => Ok img
                 end = Ok img')
      by (unfold img'; destruct (style_size self); reflexivity).
    rewrite Hl. cbn [bind].
    match goal with
    | |- context [preprocess_batch ?b] =>
        destruct (preprocess_batch_reverses b eq_refl)
          as (b1 & E & D0 & D1 & D2 & D3 & F)
    end.
    rewrite E. cbn [bind].
    cbn [unsqueeze0 dim0 dim1 dim2 dim3 at4 size0 size1 size2 at3]
      in D0, D1, D2, D3, F.
    destruct (cuda self), cuda_is_available;
      cbn [andb negb to_cuda bind val dev]; try reflexivity.
    all: eexists; split; [reflexivity | ]; cbn [dev val].
    all: repeat split; assumption.
  - intros image_open' Hsame. unfold get, tensor_load_rgbimage.
    rewrite Hpath. cbn [bind]. rewrite Hsame. reflexivity.
Qed.

Lemma get_wraps_around_loader3 :
  exists name,
    (0 <= 4 mod size loader3 < size loader3)%Z /\
    nth_error (files loader3) (Z.to_nat (4 mod size loader3)) = Some name /\
    get_filepath loader3 4 = Ok (path_join (folder loader3) name) /\
    get_filepath loader3 (4 + size loader3) = get_filepath loader3 4 /\
    get only_b_opens (fun img _ _ => img) false loader3 (4 + size loader3) =
    get only_b_opens (fun img _ _ => img) false loader3 4 /\
    (forall e, only_b_opens (path_join (folder loader3) name) = Fail e ->
       get only_b_opens (fun img _ _ => img) false loader3 4 = Fail e) /\
    (forall img, only_b_opens (path_join (folder loader3) name) = Ok img ->
       let img' := match style_size loader3 with
                   | Some n => (fun (img : pil_image) (_ _ : nat) => img) img n n
                   | None => img
                   end in
       if cuda loader3 && negb false
       then get only_b_opens (fun img _ _ => img) false loader3 4 =
            Fail DeviceError
       else exists style,
           get only_b_opens (fun img _ _ => img) false loader3 4 = Ok style /\
           dev style = (if cuda loader3 then CUDA else CPU) /\
           dim0 (val style) = 1%nat /\ dim1 (val style) = 3%nat /\
           dim2 (val style) = height img' /\
           dim3 (val style) = width img' /\
           forall b j k l, (j < 3)%nat ->
             at4 (val style) b j k l = pixel img' k l (2 - j)%nat) /\
    (forall image_open' : string -> res pil_image,
       image_open' (path_join (folder loader3) name) =
       only_b_opens (path_join (folder loader3) name) ->
       get image_open' (fun img _ _ => img) false loader3 4 =
       get only_b_opens (fun img _ _ => img) false loader3 4).
Proof.
  apply (get_wraps_around only_b_opens (fun img _ _ => img) false loader3 4).
  - discriminate.
  - lia.
Defined.

(** With these files [get(4)] and [get(7)] both return the batch of the one
    image that can be opened, the second file. *)
Lemma get_loader3_reads_b :
  exists style,
    get only_b_opens (fun img _ _ => img) false loader3 4 = Ok style /\
    get only_b_opens (fun img _ _ => img) false loader3 7 = Ok style /\
    at4 (val style) 0 0 0 0 = 30 /\ at4 (val style) 0 2 0 0 = 10.
Proof.
  eexists. split; [reflexivity | ]. split; [reflexivity | ].
  cbn. split; lra.
Qed.

(** The path [get(4)] reads with three files: the second one. *)
Lemma get_filepath_loader3 :
  get_filepath loader3 4 = Ok "styles/b.jpg"%string.
Proof. reflexivity. Qed.

(** An empty folder makes [get] raise. *)
Lemma get_filepath_empty (dir : string) (sz : option nat) (c : bool) (i : Z) :
  get_filepath {| folder := dir; style_size := sz; files := []; cuda := c |} i
  = Fail ZeroDivisionError.
Proof. reflexivity. Qed.

(** ** Tensors in memory: what a call leaves of the storage *)

Lemma read_app (st new : storage) (h : handle) :
  (hloc h < length st)%nat -> read (st ++ new) h = read st h.
Proof.
  intros H. unfold read. rewrite nth_error_app1 by exact H. reflexivity.
Qed.

Section Grows.

Context {A B : Type}.

Lemma grows_ret (n : nat) (a : A) (Q : A -> Prop) :
  Q a -> grows n (ret a) Q.
Proof.
  intros H st _. split.
  - exists []. simpl. rewrite app_nil_r. reflexivity.
  - simpl. intros a' E. inversion E; subst. exact H.
Qed.

Lemma grows_lift (n : nat) (r : res A) (Q : A -> Prop) :
  (forall a, r = Ok a -> Q a) -> grows n (lift r) Q.
Proof.
  intros H st _. split.
  - exists []. simpl. rewrite app_nil_r. reflexivity.
  - simpl. exact H.
Qed.

Lemma grows_weaken (n : nat) (m : M A) (Q Q' : A -> Prop) :
  grows n m Q -> (forall a, Q a -> Q' a) -> grows n m Q'.
Proof.
  intros H HQ st Hn. destruct (H st Hn) as (Hs & Hr).
  split; [exact Hs | ]. intros a E. apply HQ, Hr, E.
Qed.

Lemma grows_bind (n : nat) (m : M A) (k : A -> M B)
    (Q : A -> Prop) (Q' : B -> Prop) :
  grows n m Q -> (forall a, Q a -> grows n (k a) Q') ->
  grows n (mbind m k) Q'.
Proof.
  intros Hm Hk st Hn. unfold mbind.
  destruct (Hm st Hn) as ((new & Hs) & Hr).
  destruct (m st) as [[a | e] st']; simpl in *; subst st'.
  - assert (Hn' : (n <= length (st ++ new))%nat)
      by (rewrite length_app; lia).
    destruct (Hk a (Hr a eq_refl) (st ++ new)%list Hn') as ((new' & Hs') & Hr').
    split; [ | exact Hr'].
    exists (new ++ new')%list. rewrite Hs', app_assoc. reflexivity.
  - split; [exists new; reflexivity | ]. intros b E. discriminate.
Qed.

End Grows.

Lemma grows_load (n : nat) (h : handle) :
  grows n (load h) (fun _ => True).
Proof.
  intros st _. split; [ | trivial].
  exists []. simpl. rewrite app_nil_r. reflexivity.
Qed.

Lemma grows_alloc (n : nat) (v : on value) :
  grows n (alloc v) (fun h => (n <= hloc h)%nat).
Proof.
  intros st Hn. split.
  - exists [v]. reflexivity.
  - simpl. intros h E. inversion E; subst. exact Hn.
Qed.

Ltac grows_step :=
  first
    [ eapply grows_bind; [ apply grows_load | intros ? _ ]
    | eapply grows_bind; [ apply grows_lift; intros; exact I | intros ? _ ]
    | apply grows_alloc ].

Lemma grows_op1 {X Y : Type} (n : nat) (px : value -> res X)
    (iy : Y -> value) (f : X -> res Y) (h : handle) :
  grows n (op1 px iy f h) (fun h' => (n <= hloc h')%nat).
Proof. unfold op1. repeat grows_step. Qed.

Lemma grows_op2 {X Y Z : Type} (n : nat) (px : value -> res X)
    (py : value -> res Y) (iz : Z -> value) (f : X -> Y -> res Z)
    (h1 h2 : handle) :
  grows n (op2 px py iz f h1 h2) (fun h' => (n <= hloc h')%nat).
Proof. unfold op2. repeat grows_step. Qed.

Lemma grows_cuda_st (n : nat) (available : bool) (h : handle) :
  grows n (cuda_st available h) (fun h' => (n <= hloc h')%nat).
Proof. unfold cuda_st. repeat grows_step. Qed.

(** A view is where its operand is. *)
Lemma grows_mk_view (n : nat) (w : view) (h : handle) :
  grows n (mk_view w h) (fun h' => hloc h' = hloc h).
Proof.
  unfold mk_view. grows_step. apply grows_ret. reflexivity.
Qed.

Lemma grows_svd_st (svd : mat3 -> mat3 * vec3 * mat3) (n : nat) (x : handle) :
  grows n (svd_st svd x)
    (fun r => let '(U, D, V) := r in
              (n <= hloc U)%nat /\ (n <= hloc D)%nat /\ (n <= hloc V)%nat).
Proof.
  unfold svd_st. do 2 grows_step.
  destruct (svd a0) as [[U D] V].
  eapply grows_bind; [apply grows_alloc | intros hu Hu].
  eapply grows_bind; [apply grows_alloc | intros hd Hd].
  eapply grows_bind; [apply grows_alloc | intros hv Hv].
  apply grows_ret. auto.
Qed.

Ltac grows_op :=
  first
    [ eapply grows_bind; [ apply grows_op1 | intros ? ? ]
    | eapply grows_bind; [ apply grows_op2 | intros ? ? ]
    | eapply grows_bind; [ apply grows_cuda_st | intros ? ? ]
    | eapply grows_bind; [ apply grows_alloc | intros ? ? ]
    | eapply grows_bind; [ apply grows_mk_view | intros ? ? ]
    | eapply grows_bind; [ apply grows_load | intros ? _ ]
    | eapply grows_bind; [ apply grows_lift; intros; exact I | intros ? _ ] ].

Lemma grows_matSqrt_st (svd : mat3 -> mat3 * vec3 * mat3) (n : nat)
    (x : handle) :
  grows n (matSqrt_st svd x) (fun h' => (n <= hloc h')%nat).
Proof.
  unfold matSqrt_st.
  eapply grows_bind; [apply grows_svd_st | intros [[U D] V] _ ].
  do 4 grows_op. apply grows_op2.
Qed.

Lemma grows_color_match_st (svd : mat3 -> mat3 * vec3 * mat3)
    (cuda_is_available : bool) (n : nat) (src dst : handle) (cuda : bool) :
  grows n (color_match_st svd cuda_is_available src dst cuda)
    (fun h' => (n <= hloc h')%nat).
Proof.
  unfold color_match_st.
  do 10 grows_op.
  eapply grows_bind with (Q := fun _ => True).
  { destruct (cuda && cuda_is_available);
      repeat grows_op; apply grows_ret; exact I. }
  intros [src_cov dst_cov] _.
  eapply grows_bind; [apply grows_matSqrt_st | intros ? _ ].
  eapply grows_bind; [apply grows_matSqrt_st | intros ? _ ].
  do 4 grows_op.
  eapply grows_bind; [apply grows_op2 | intros fresh Hfresh ].
  do 2 grows_op.
  eapply grows_weaken; [apply grows_mk_view | ].
  intros h' E. simpl in E. rewrite E. exact Hfresh.
Qed.

Lemma mbind_ok_inv {A B : Type} (m : M A) (k : A -> M B)
    (st st' : storage) (b : B) :
  mbind m k st = (Ok b, st') ->
  exists a st1, m st = (Ok a, st1) /\ k a st1 = (Ok b, st').
Proof.
  unfold mbind. destruct (m st) as [[a | e] st1]; intros H.
  - exists a, st1. split; [reflexivity | exact H].
  - discriminate.
Qed.

Lemma mk_view_ok_inv (w : view) (h r : handle) (st st' : storage) :
  mk_view w h st = (Ok r, st') -> st' = st /\ exists v, read st' r = Ok v.
Proof.
  unfold mk_view, mbind, load, ret.
  destruct (read st _) as [v | e] eqn:E; intros H; inversion H; subst.
  split; [reflexivity | ]. exists v. exact E.
Qed.

(** A returned tensor can be read in the storage the call leaves. *)
Lemma color_match_st_result_reads (svd : mat3 -> mat3 * vec3 * mat3)
    (cuda_is_available : bool) (src dst : handle) (cuda : bool)
    (st st' : storage) (r : handle) :
  color_match_st svd cuda_is_available src dst cuda st = (Ok r, st') ->
  exists v, read st' r = Ok v.
Proof.
  unfold color_match_st. intros H.
  repeat first
    [ apply mk_view_ok_inv in H; destruct H as (_ & H); exact H
    | apply mbind_ok_inv in H; destruct H as (? & ? & _ & H)
    | match type of H with
      | context [let '(_, _) := ?p in _] => destruct p
      end ].
Qed.

(** C8.  Whatever the outcome of [color_match], every tensor of the storage
    it started from, [src] and [dst] among them, reads as before the call;
    a returned tensor lives in storage allocated during the call. *)
Theorem color_match_leaves_inputs
    (svd : mat3 -> mat3 * vec3 * mat3) (cuda_is_available : bool)
    (src dst : handle) (cuda : bool) (st : storage) :
  let out := color_match_st svd cuda_is_available src dst cuda st in
  (forall h, (hloc h < length st)%nat -> read (snd out) h = read st h) /\
  (forall r, fst out = Ok r ->
     (length st <= hloc r)%nat /\ exists v, read (snd out) r = Ok v).
Proof.
  intros out.
  destruct (grows_color_match_st svd cuda_is_available (length st)
              src dst cuda st (le_n _)) as ((new & Hs) & Hr).
  fold out in Hs, Hr. split.
  - intros h Hh. rewrite Hs. apply read_app. exact Hh.
  - intros r E. split; [exact (Hr r E) | ].
    apply (color_match_st_result_reads svd cuda_is_available src dst cuda st).
    fold out. rewrite <- E. destruct out; reflexivity.
Qed.

(** *** [imagenet_clamp_batch] overwrites its operand *)

Lemma imagenet_clamp_batch_in_place :
  imagenet_clamp_batch (Handle 0 []) 0 255 one_batch =
  (Ok tt,
   [On CPU (VTensor (Tensor [1; 3; 1; 1]%nat
                       [255 - 103.939; 0; 0 - 123.680]))]).
Proof.
  unfold imagenet_clamp_batch, clamp_channel_st, mbind, load, lift, overwrite,
    read, one_batch, clamp_channel, clamp; simpl.
  repeat match goal with
         | |- context [Rlt_dec ?a ?b] => destruct (Rlt_dec a b); try lra
         end.
  reflexivity.
Qed.

(** ** A constant channel

    The standard deviation of a constant channel is 0, and the division by
    it is where [color_match] leaves the real numbers. *)

Lemma rsum_constant (c : R) (l : list R) :
  Forall (fun v => v = c) l -> rsum l = INR (length l) * c.
Proof.
  induction 1 as [ | v l Hv Hl IH].
  - simpl. ring.
  - change (rsum (v :: l)) with (v + rsum l).
    rewrite IH, Hv. simpl length. rewrite S_INR. ring.
Qed.

Lemma rsum_zero (l : list R) : Forall (fun v => v = 0) l -> rsum l = 0.
Proof. intros H. rewrite (rsum_constant 0 l H). ring. Qed.

Lemma rstd_constant (l : list R) :
  constant l -> (1 < length l)%nat -> rstd l = Ok 0.
Proof.
  intros (c & Hc) Hlen. unfold rstd.
  destruct (Nat.leb_spec (length l) 1); [lia | ].
  assert (Hm : rmean l = c).
  { unfold rmean. rewrite (rsum_constant c l Hc). field.
    apply not_0_INR. lia. }
  rewrite Hm. rewrite rsum_zero.
  - unfold Rdiv. rewrite Rmult_0_l, sqrt_0. reflexivity.
  - apply Forall_map. eapply Forall_impl; [ | exact Hc].
    simpl. intros v ->. ring.
Qed.

Lemma view3_lengths (t : tensor) (x : rows3) :
  view3 t = Ok x ->
  length (row0 x) = length (row1 x) /\ length (row1 x) = length (row2 x) /\
  (0 < length (row0 x))%nat.
Proof.
  unfold view3. cbv zeta. set (n := length (tdata t)).
  set (k := (n / 3)%nat).
  destruct (Nat.eqb_spec n 0); cbn [orb]; [intros H; discriminate H | ].
  destruct (Nat.eqb_spec (n mod 3) 0); cbn [negb];
    [ | intros H; discriminate H].
  assert (Hn : n = (3 * k)%nat).
  { unfold k. rewrite (Nat.div_mod_eq n 3) at 1. lia. }
  clearbody k. intros H. injection H as <-. cbn [row0 row1 row2].
  rewrite !length_firstn, !length_skipn. fold n. lia.
Qed.

(** X6.  If both images flatten to three rows and a channel of [src] is
    constant, [color_match] leaves the real numbers on every device: the
    standard deviation of that channel is 0 (or undefined for a single
    pixel), and line 145 divides by it. *)
Lemma color_match_constant_channel
    (svd : mat3 -> mat3 * vec3 * mat3) (cuda_is_available : bool)
    (src dst : on tensor) (cuda : bool) (sf df : rows3) :
  view3 (val src) = Ok sf -> view3 (val dst) = Ok df ->
  constant (row0 sf) \/ constant (row1 sf) \/ constant (row2 sf) ->
  color_match svd cuda_is_available src dst cuda = Fail NonFinite.
Proof.
  intros Hs Hd Hc.
  destruct (view3_lengths _ _ Hs) as (L01 & L12 & L0).
  unfold color_match, unop_r, unop, binop, binop_r.
  rewrite Hs, Hd. cbn [bind val dev].
  destruct (Nat.le_gt_cases (length (row0 sf)) 1) as [Hshort | Hlong].
  - assert (E : std1 sf = Fail NonFinite).
    { unfold std1, rstd.
      destruct (Nat.leb_spec (length (row0 sf)) 1); [reflexivity | lia]. }
    rewrite E. reflexivity.
  - assert (E : exists s, std1 sf = Ok s /\ (v0 s = 0 \/ v1 s = 0 \/ v2 s = 0)).
    { unfold std1.
      destruct (rstd (row0 sf)) as [s0 | e] eqn:E0;
        [ | unfold rstd in E0;
            destruct (Nat.leb_spec (length (row0 sf)) 1); [lia | discriminate]].
      destruct (rstd (row1 sf)) as [s1 | e] eqn:E1;
        [ | unfold rstd in E1;
            destruct (Nat.leb_spec (length (row1 sf)) 1); [lia | discriminate]].
      destruct (rstd (row2 sf)) as [s2 | e] eqn:E2;
        [ | unfold rstd in E2;
            destruct (Nat.leb_spec (length (row2 sf)) 1); [lia | discriminate]].
      cbn [bind]. eexists. split; [reflexivity | ]. simpl.
      destruct Hc as [Hc | [Hc | Hc]].
      - left. rewrite rstd_constant in E0 by (auto; lia). congruence.
      - right; left. rewrite rstd_constant in E1 by (auto; lia). congruence.
      - right; right. rewrite rstd_constant in E2 by (auto; lia). congruence. }
    destruct E as (s & E & Hz). rewrite E. cbn [bind val dev].
    assert (Hdev : same_device (dev src) (dev src) = Ok (dev src))
      by (unfold same_device; destruct (dev src); reflexivity).
    rewrite Hdev. cbn [bind val dev]. rewrite Hdev. cbn [bind].
    assert (Hb : forall x, bdiv x s = Fail NonFinite).
    { intros x. unfold bdiv.
      destruct Hz as [Hz | [Hz | Hz]]; rewrite Hz, (is_zero_true 0 eq_refl);
        rewrite ?orb_true_r; reflexivity. }
    rewrite Hb. reflexivity.
Qed.

(** ** [color_match] on handles computes [color_match] on values *)

Lemma bind_ret_r {A : Type} (m : res A) : (x <- m ;; Ok x) = m.
Proof. destruct m; reflexivity. Qed.

Lemma bind_assoc {A B C : Type} (m : res A) (k : A -> res B) (k' : B -> res C) :
  (y <- (x <- m ;; k x) ;; k' y) = (x <- m ;; y <- k x ;; k' y).
Proof. destruct m; reflexivity. Qed.

Lemma apply_views_app (ws : list view) (w : view) (v : value) :
  apply_views (ws ++ [w]) v = (v' <- apply_views ws v ;; apply_view w v').
Proof.
  revert v. induction ws as [ | w' ws IH]; intros v; simpl.
  - apply bind_ret_r.
  - rewrite bind_assoc. destruct (apply_view w' v); simpl; [apply IH | reflexivity].
Qed.

Lemma read_view (st : storage) (h : handle) (w : view) (d : device) (v : value) :
  read st h = Ok (On d v) ->
  read st (Handle (hloc h) (hviews h ++ [w])) =
  (v' <- apply_view w v ;; Ok (On d v')).
Proof.
  unfold read; simpl. destruct (nth_error st (hloc h)) as [c | ]; [ | discriminate].
  rewrite apply_views_app.
  destruct (apply_views (hviews h) (val c)) as [v1 | e]; simpl; [ | discriminate].
  intros H. inversion H; subst. reflexivity.
Qed.

Lemma read_app_ok (st new : storage) (h : handle) (v : on value) :
  read st h = Ok v -> read (st ++ new) h = Ok v.
Proof.
  intros H. rewrite read_app; [exact H | ].
  unfold read in H. destruct (nth_error st (hloc h)) eqn:E; [ | discriminate].
  apply nth_error_Some. congruence.
Qed.

Lemma read_alloc (st : storage) (c : on value) :
  read (st ++ [c]) (Handle (length st) []) = Ok c.
Proof.
  unfold read; simpl. rewrite nth_error_app2, Nat.sub_diag by lia. simpl.
  destruct c; reflexivity.
Qed.

Lemma mk_view_eq (st : storage) (h : handle) (w : view) (d : device)
    (v : value) :
  read st h = Ok (On d v) ->
  mk_view w h st =
  match apply_view w v with
  | Ok _ => (Ok (Handle (hloc h) (hviews h ++ [w])), st)
  | Fail e => (Fail e, st)
  end.
Proof.
  intros H. unfold mk_view, mbind, load, ret.
  rewrite (read_view _ _ w _ _ H).
  destruct (apply_view w v); reflexivity.
Qed.

Lemma op1_eq {X Y : Type} (px : value -> res X) (iy : Y -> value)
    (f : X -> res Y) (st : storage) (h : handle) (d : device) (v : value)
    (a : X) :
  read st h = Ok (On d v) -> px v = Ok a ->
  op1 px iy f h st =
  match f a with
  | Ok y => (Ok (Handle (length st) []), st ++ [On d (iy y)])
  | Fail e => (Fail e, st)
  end.
Proof.
  intros H Hp. unfold op1, mbind, load, lift, alloc. rewrite H. simpl.
  rewrite Hp. destruct (f a); reflexivity.
Qed.

Lemma op2_eq {X Y Z : Type} (px : value -> res X) (py : value -> res Y)
    (iz : Z -> value) (f : X -> Y -> res Z) (st : storage) (h1 h2 : handle)
    (d1 d2 : device) (w1 w2 : value) (a : X) (b : Y) :
  read st h1 = Ok (On d1 w1) -> read st h2 = Ok (On d2 w2) ->
  px w1 = Ok a -> py w2 = Ok b ->
  op2 px py iz f h1 h2 st =
  match same_device d1 d2 with
  | Ok d =>
      match f a b with
      | Ok z => (Ok (Handle (length st) []), st ++ [On d (iz z)])
      | Fail e => (Fail e, st)
      end
  | Fail e => (Fail e, st)
  end.
Proof.
  intros H1 H2 Hp1 Hp2. unfold op2, mbind, load, lift, alloc.
  rewrite H1, H2. simpl. destruct (same_device d1 d2); [ | reflexivity].
  rewrite Hp1, Hp2. destruct (f a b); reflexivity.
Qed.

Lemma mbind_eq {A B : Type} (m : M A) (k : A -> M B) (st : storage) :
  mbind m k st =
  match m st with
  | (Ok a, st') => k a st'
  | (Fail e, st') => (Fail e, st')
  end.
Proof. reflexivity. Qed.

Lemma agrees_fail (e : failure) (st : storage) : agrees (Fail e, st) (Fail e).
Proof. reflexivity. Qed.

Lemma same_device_refl (d : device) : same_device d d = Ok d.
Proof. destruct d; reflexivity. Qed.

Lemma cuda_st_eq (available : bool) (st : storage) (h : handle)
    (x : on value) :
  read st h = Ok x ->
  cuda_st available h st =
  match to_cuda available x with
  | Ok y => (Ok (Handle (length st) []), st ++ [y])
  | Fail e => (Fail e, st)
  end.
Proof.
  intros H. unfold cuda_st, mbind, load, lift, alloc. rewrite H.
  destruct (to_cuda available x); reflexivity.
Qed.

Lemma svd_st_eq (svd : mat3 -> mat3 * vec3 * mat3) (st : storage)
    (x : handle) (d : device) (m : mat3) :
  read st x = Ok (On d (VMat m)) ->
  svd_st svd x st =
  let '(U, D, V) := svd m in
  let st1 := st ++ [On d (VMat U)] in
  let st2 := st1 ++ [On d (VVec D)] in
  (Ok (Handle (length st) [], Handle (length st1) [], Handle (length st2) []),
   st2 ++ [On d (VMat V)]).
Proof.
  intros Hx. unfold svd_st, mbind, load, lift. rewrite Hx. cbn [val dev as_mat].
  destruct (svd m) as [[U D] V]. reflexivity.
Qed.

(** Symbolic execution: the facts [read st h = Ok v] in the context follow
    the storage as it grows. *)
Ltac lift_reads st new :=
  repeat match goal with
         | H : read st _ = Ok _ |- _ => apply (read_app_ok st new) in H
         end.

Ltac new_cell Hname :=
  match goal with
  | |- context [?st0 ++ [?c]] =>
      pose proof (read_alloc st0 c) as Hname;
      lift_reads st0 [c];
      let st1 := fresh "st" in set (st1 := st0 ++ [c]) in *
  end.

Ltac st_op1 px H :=
  rewrite mbind_eq, (op1_eq px _ _ _ _ _ _ _ H eq_refl).

Ltac st_op2 px py H1 H2 :=
  rewrite mbind_eq,
    (op2_eq px py _ _ _ _ _ _ _ _ _ _ _ H1 H2 eq_refl eq_refl).

Ltac st_view w H Hnew :=
  rewrite mbind_eq, (mk_view_eq _ _ w _ _ H); cbn [apply_view hloc hviews app];
  pose proof (read_view _ _ w _ _ H) as Hnew;
  cbn [apply_view bind hloc hviews app] in Hnew.

Ltac st_alloc Hname :=
  rewrite mbind_eq; unfold alloc at 1; cbv iota beta; new_cell Hname.

Tactic Notation "case_res" constr(t) "as" ident(x) :=
  destruct t as [x | ?]; cbn [bind val dev] in *; [ | apply agrees_fail].

Ltac case_dev :=
  rewrite ?same_device_refl; cbn [bind val dev];
  try match goal with
      | |- context [same_device ?a ?b] =>
          destruct (same_device a b) as [? | ?]; cbn [bind val dev];
          [ | apply agrees_fail]
      end.

(** [matSqrt] on handles: seven new cells, the last one [matSqrt] of the
    operand. *)
Lemma matSqrt_st_eq (svd : mat3 -> mat3 * vec3 * mat3) (st : storage)
    (x : handle) (d : device) (m : mat3) :
  read st x = Ok (On d (VMat m)) ->
  exists new,
    matSqrt_st svd x st =
    (Ok (Handle (length (st ++ new)) []),
     (st ++ new) ++ [On d (VMat (matSqrt svd m))]).
Proof.
  intros Hx. unfold matSqrt_st, matSqrt.
  rewrite mbind_eq, (svd_st_eq _ _ _ _ _ Hx).
  destruct (svd m) as [[U D] V]. cbv zeta iota beta.
  set (st1 := st ++ [On d (VMat U)]).
  set (st2 := st1 ++ [On d (VVec D)]).
  set (st3 := st2 ++ [On d (VMat V)]).
  assert (HU : read st3 (Handle (length st) []) = Ok (On d (VMat U))).
  { unfold st3, st2. do 2 apply read_app_ok. apply read_alloc. }
  assert (HD : read st3 (Handle (length st1) []) = Ok (On d (VVec D))).
  { unfold st3. apply read_app_ok. apply read_alloc. }
  assert (HV : read st3 (Handle (length st2) []) = Ok (On d (VMat V))).
  { apply read_alloc. }
  st_op1 as_vec HD. unfold pure1 at 1. cbv iota beta. new_cell Hp.
  st_op1 as_vec Hp. unfold pure1 at 1. cbv iota beta. new_cell Hdg.
  st_op2 as_mat as_mat HU Hdg. rewrite same_device_refl.
  unfold pure2 at 1. cbv iota beta. new_cell Hud.
  st_view Transposed HV Hvt.
  rewrite (op2_eq as_mat as_mat _ _ _ _ _ _ _ _ _ _ _ Hud Hvt eq_refl eq_refl).
  rewrite same_device_refl. unfold pure2 at 1. cbv iota beta.
  exists ([On d (VMat U); On d (VVec D); On d (VMat V);
           On d (VVec (pow_half D)); On d (VMat (diag (pow_half D)));
           On d (VMat (hadamard U (diag (pow_half D))))]).
  match goal with
  | |- (_, ?s ++ _) = _ =>
      assert (E : s = st ++ [On d (VMat U); On d (VVec D); On d (VMat V);
           On d (VVec (pow_half D)); On d (VMat (diag (pow_half D)));
           On d (VMat (hadamard U (diag (pow_half D))))])
  end.
  { subst st1 st2 st3. repeat match goal with s := _ |- _ => subst s end.
    rewrite <- !app_assoc. reflexivity. }
  rewrite <- E. reflexivity.
Qed.

Ltac st_matSqrt svd H Hname :=
  rewrite mbind_eq;
  let new := fresh "new" in
  let E := fresh "E" in
  destruct (matSqrt_st_eq svd _ _ _ _ H) as (new & E);
  rewrite E; clear E; cbv iota beta;
  match goal with
  | |- context [(?st0 ++ new) ++ _] =>
      lift_reads st0 new;
      let st1 := fresh "st" in set (st1 := st0 ++ new) in *
  end;
  new_cell Hname.

(** Lines 161-163, once the two covariance matrices are in the storage. *)
Ltac transfer_steps svd s Hsrc Hsn Hds Hdm Hscov Hdcov :=
  let Hdsq := fresh "Hdsq" in
  let Hssq := fresh "Hssq" in
  let Hinv := fresh "Hinv" in
  let Ht := fresh "Ht" in
  let Htr := fresh "Htr" in
  let Hsca := fresh "Hsca" in
  let Hout := fresh "Hout" in
  let inv := fresh "inv" in
  let E := fresh "E" in
  st_matSqrt svd Hdcov Hdsq;
  st_matSqrt svd Hscov Hssq;
  st_op1 as_mat Hssq;
  match goal with
  | |- context [inverse ?m] => case_res (inverse m) as inv
  end;
  new_cell Hinv;
  st_op2 as_mat as_mat Hdsq Hinv; case_dev;
  unfold pure2 at 1; cbv iota beta; new_cell Ht;
  st_op2 as_mat as_rows Ht Hsn; case_dev;
  unfold pure2 at 1; cbv iota beta; new_cell Htr;
  st_op2 as_rows as_vec Htr Hds; case_dev;
  unfold pure2 at 1; cbv iota beta; new_cell Hsca;
  st_op2 as_rows as_vec Hsca Hdm; case_dev;
  unfold pure2 at 1; cbv iota beta; new_cell Hout;
  rewrite mbind_eq; unfold load at 1; rewrite Hsrc; cbv iota beta;
  rewrite mbind_eq; unfold lift at 1; cbn [val as_tensor]; cbv iota beta;
  rewrite (mk_view_eq _ _ (Like (tshape s)) _ _ Hout);
  cbn [apply_view hloc hviews app];
  pose proof (read_view _ _ (Like (tshape s)) _ _ Hout) as E;
  cbn [apply_view hloc hviews app] in E;
  unfold view_as; cbv zeta;
  match goal with
  | |- context [(?n =? ?m)%nat] =>
      destruct (n =? m)%nat; cbn [bind val dev] in *; [ | apply agrees_fail]
  end;
  exact E.

Lemma color_match_st_agrees (svd : mat3 -> mat3 * vec3 * mat3)
    (cuda_is_available : bool) (src dst : handle) (cuda : bool)
    (st : storage) (ds dd : device) (s d : tensor) :
  read st src = Ok (On ds (VTensor s)) ->
  read st dst = Ok (On dd (VTensor d)) ->
  agrees (color_match_st svd cuda_is_available src dst cuda st)
         (color_match svd cuda_is_available (On ds s) (On dd d) cuda).
Proof.
  intros Hsrc Hdst.
  unfold color_match_st, color_match, transfer_matrix,
    unop_r, unop, binop, binop_r.
  cbn [val dev].
  (* src_flat, dst_flat *)
  st_view Flat3 Hsrc Hsf. case_res (view3 s) as sf.
  st_view Flat3 Hdst Hdf. case_res (view3 d) as df.
  (* src_mean, src_std, src_norm *)
  st_op1 as_rows Hsf. unfold pure1 at 1. cbv iota beta. new_cell Hsm.
  st_op1 as_rows Hsf. case_res (std1 sf) as ss. new_cell Hss.
  st_op2 as_rows as_vec Hsf Hsm. rewrite !same_device_refl.
  unfold pure2 at 1. cbn [bind val dev]. new_cell Hsc.
  st_op2 as_rows as_vec Hsc Hss. rewrite !same_device_refl.
  cbn [bind val dev]. case_res (bdiv (bsub sf (mean1 sf)) ss) as sn.
  new_cell Hsn.
  (* dst_mean, dst_std, dst_norm *)
  st_op1 as_rows Hdf. unfold pure1 at 1. cbv iota beta. new_cell Hdm.
  st_op1 as_rows Hdf. case_res (std1 df) as dsd. new_cell Hds.
  st_op2 as_rows as_vec Hdf Hdm. rewrite !same_device_refl.
  unfold pure2 at 1. cbn [bind val dev]. new_cell Hdc.
  st_op2 as_rows as_vec Hdc Hds. rewrite !same_device_refl.
  cbn [bind val dev]. case_res (bdiv (bsub df (mean1 df)) dsd) as dn.
  new_cell Hdn.
  (* the covariance matrices *)
  rewrite mbind_eq.
  destruct (cuda && cuda_is_available) eqn:Hcud.
  - apply andb_true_iff in Hcud. destruct Hcud as (_ & ->).
    st_view Transposed Hsn Hsnt.
    st_op2 as_rows as_rowsT Hsn Hsnt.
    case_dev. unfold pure2 at 1. cbv iota beta. new_cell Hsg.
    st_alloc Hse.
    rewrite mbind_eq, (cuda_st_eq _ _ _ _ Hse). cbn [to_cuda val bind].
    new_cell Hsec.
    st_op2 as_mat as_mat Hsg Hsec. case_dev. unfold pure2 at 1.
    cbv iota beta. new_cell Hscov.
    st_view Transposed Hdn Hdnt.
    st_op2 as_rows as_rowsT Hdn Hdnt.
    case_dev. unfold pure2 at 1. cbv iota beta. new_cell Hdg.
    st_alloc Hde.
    rewrite mbind_eq, (cuda_st_eq _ _ _ _ Hde). cbn [to_cuda val bind].
    new_cell Hdec.
    st_op2 as_mat as_mat Hdg Hdec. case_dev. unfold pure2 at 1.
    cbv iota beta. new_cell Hdcov.
    unfold ret at 1. cbv iota beta. cbn [val dev].
    transfer_steps svd s Hsrc Hsn Hds Hdm Hscov Hdcov.
  - st_view Transposed Hsn Hsnt.
    st_op2 as_rows as_rowsT Hsn Hsnt.
    case_dev. unfold pure2 at 1. cbv iota beta. new_cell Hsg.
    st_alloc Hse.
    st_op2 as_mat as_mat Hsg Hse. case_dev. unfold pure2 at 1.
    cbv iota beta. new_cell Hscov.
    st_view Transposed Hdn Hdnt.
    st_op2 as_rows as_rowsT Hdn Hdnt.
    case_dev. unfold pure2 at 1. cbv iota beta. new_cell Hdg.
    st_alloc Hde.
    st_op2 as_mat as_mat Hdg Hde. case_dev. unfold pure2 at 1.
    cbv iota beta. new_cell Hdcov.
    unfold ret at 1. cbv iota beta. cbn [val dev].
    transfer_steps svd s Hsrc Hsn Hds Hdm Hscov Hdcov.
Qed.

(** ** When the two element-wise products cancel

    [matSqrt] returns a diagonal matrix; where its diagonal has no zero, the
    element-wise product with the inverse is the identity matrix, and
    [color_match x x] is [x]. *)

Lemma lincomb_e0 (a b c : list R) :
  length a = length b -> length b = length c -> lincomb 1 0 0 a b c = a.
Proof.
  revert b c. induction a as [ | p a IH]; intros [ | q b] [ | r c];
    simpl; try discriminate; try reflexivity.
  intros Hb Hc. f_equal; [ring | apply IH; congruence].
Qed.

Lemma lincomb_e1 (a b c : list R) :
  length a = length b -> length b = length c -> lincomb 0 1 0 a b c = b.
Proof.
  revert b c. induction a as [ | p a IH]; intros [ | q b] [ | r c];
    simpl; try discriminate; try reflexivity.
  intros Hb Hc. f_equal; [ring | apply IH; congruence].
Qed.

Lemma lincomb_e2 (a b c : list R) :
  length a = length b -> length b = length c -> lincomb 0 0 1 a b c = c.
Proof.
  revert b c. induction a as [ | p a IH]; intros [ | q b] [ | r c];
    simpl; try discriminate; try reflexivity.
  intros Hb Hc. f_equal; [ring | apply IH; congruence].
Qed.

Lemma mm_rows_eye (x : rows3) :
  length (row0 x) = length (row1 x) -> length (row1 x) = length (row2 x) ->
  mm_rows eye3 x = x.
Proof.
  intros H01 H12. destruct x as [a b c]; simpl in *.
  unfold mm_rows; simpl.
  rewrite lincomb_e0, lincomb_e1, lincomb_e2 by assumption. reflexivity.
Qed.

Lemma view3_concat (t : tensor) (x : rows3) :
  view3 t = Ok x -> row0 x ++ row1 x ++ row2 x = tdata t.
Proof.
  unfold view3. cbv zeta.
  destruct ((length (tdata t) =? 0)%nat || negb (length (tdata t) mod 3 =? 0)%nat);
    [intros H; discriminate H | ].
  set (k := (length (tdata t) / 3)%nat). clearbody k.
  intros H. injection H as <-. cbn [row0 row1 row2].
  replace (k + (k + 0))%nat with (k + k)%nat by lia.
  rewrite <- skipn_skipn, !firstn_skipn. reflexivity.
Qed.

Lemma denormalize (l : list R) (m s : R) :
  s <> 0 ->
  map (fun a => a + m) (map (fun a => a * s)
    (map (fun a => a / s) (map (fun a => a - m) l))) = l.
Proof.
  intros Hs. rewrite !map_map. rewrite <- (map_id l) at 2.
  apply map_ext. intros a. field. exact Hs.
Qed.

Lemma bdiv_ok (x : rows3) (c : vec3) (y : rows3) :
  bdiv x c = Ok y ->
  v0 c <> 0 /\ v1 c <> 0 /\ v2 c <> 0 /\ y = bmap Rdiv x c.
Proof.
  unfold bdiv, is_zero.
  destruct (Req_dec_T (v0 c) 0); [intros H; discriminate H | ].
  destruct (Req_dec_T (v1 c) 0); [intros H; discriminate H | ].
  destruct (Req_dec_T (v2 c) 0); [intros H; discriminate H | ].
  simpl. intros H. injection H as <-. auto.
Qed.

Lemma det_nonzero_diag (d : vec3) :
  det (diag d) <> 0 -> v0 d <> 0 /\ v1 d <> 0 /\ v2 d <> 0.
Proof.
  rewrite det_diag. intros H.
  repeat split; intros E; apply H; rewrite E; ring.
Qed.

Section SelfMatch.

Variable svd : mat3 -> mat3 * vec3 * mat3.

Lemma color_match_values_self (x : tensor) (f n : rows3) :
  well_shaped x ->
  view3 x = Ok f -> normalize f = Ok n ->
  det (matSqrt svd (cov_eye n)) <> 0 ->
  color_match_values svd x x = Ok x.
Proof.
  intros Hw Hf Hn Hdet.
  destruct (view3_lengths _ _ Hf) as (L01 & L12 & _).
  pose proof (view3_concat _ _ Hf) as Hcat.
  unfold normalize in Hn.
  unfold color_match_values. rewrite Hf. cbn [bind].
  destruct (std1 f) as [s | e]; cbn [bind] in *; [ | discriminate].
  rewrite Hn. cbn [bind].
  destruct (bdiv_ok _ _ _ Hn) as (S0 & S1 & S2 & ->).
  rewrite matSqrt_diag in *.
  destruct (svd (cov_eye (bmap Rdiv (bsub f (mean1 f)) s))) as [[U D] V].
  destruct (det_nonzero_diag _ Hdet) as (D0 & D1 & D2).
  rewrite inverse_diag by (rewrite <- det_diag; exact Hdet).
  cbn [bind].
  assert (E : forall d : vec3, v0 d <> 0 -> v1 d <> 0 -> v2 d <> 0 ->
            hadamard (diag d) (diag (V3 (/ v0 d) (/ v1 d) (/ v2 d))) = eye3).
  { intros d H0 H1 H2. unfold eye3. mat3_ext; field; assumption. }
  rewrite E by assumption.
  rewrite mm_rows_eye
    by (unfold bmap, bsub, bmap; simpl; rewrite !length_map; assumption).
  unfold view_as.
  assert (Hrows :
    badd (bmul (bmap Rdiv (bsub f (mean1 f)) s) s) (mean1 f) = f).
  { destruct f as [a b c]. unfold badd, bmul, bsub, bmap, mean1. simpl.
    unfold Rminus. rewrite !denormalize by assumption. reflexivity. }
  rewrite Hrows, Hcat.
  unfold well_shaped in Hw. rewrite Hw, Nat.eqb_refl.
  destruct x; reflexivity.
Qed.

End SelfMatch.

(** [img_rbr] is matched to itself, whatever true decomposition
    [torch.svd] returns. *)
Lemma color_match_values_rbr_rbr (svd : mat3 -> mat3 * vec3 * mat3) :
  is_svd cov_rbr (svd cov_rbr) ->
  color_match_values svd img_rbr img_rbr = Ok img_rbr.
Proof.
  intros H.
  apply (color_match_values_self svd img_rbr flat_rbr norm_rbr).
  - reflexivity.
  - exact view3_rbr.
  - exact normalize_rbr.
  - rewrite cov_eye_rbr, (matSqrt_rbr svd H), det_diag. simpl.
    pose proof sqrt_5_pos. nra.
Qed.

(** ** The channel means of the result

    Whatever the transfer matrix is, the rows it multiplies have mean 0, so
    the result has the channel means of [dst]. *)

Lemma rsum_map_add (m : R) (l : list R) :
  rsum (map (fun a => a + m) l) = rsum l + INR (length l) * m.
Proof.
  induction l as [ | a l IH]; [simpl; ring | ].
  change (rsum (map (fun a => a + m) (a :: l)))
    with (a + m + rsum (map (fun a => a + m) l)).
  rewrite IH. simpl length. rewrite S_INR. simpl. ring.
Qed.

Lemma rsum_map_mul (s : R) (l : list R) :
  rsum (map (fun a => a * s) l) = rsum l * s.
Proof.
  induction l as [ | a l IH]; [simpl; ring | ].
  change (rsum (map (fun a => a * s) (a :: l)))
    with (a * s + rsum (map (fun a => a * s) l)).
  rewrite IH. simpl. ring.
Qed.

Lemma rsum_lincomb (a b c : R) (x y z : list R) :
  length x = length y -> length y = length z ->
  rsum (lincomb a b c x y z) = a * rsum x + b * rsum y + c * rsum z.
Proof.
  revert y z. induction x as [ | p x IH]; intros [ | q y] [ | r z];
    simpl; try discriminate; intros Hy Hz; [ring | ].
  rewrite IH by congruence. ring.
Qed.

Lemma length_lincomb (a b c : R) (x y z : list R) :
  length x = length y -> length y = length z ->
  length (lincomb a b c x y z) = length x.
Proof.
  revert y z. induction x as [ | p x IH]; intros [ | q y] [ | r z];
    simpl; try discriminate; intros Hy Hz; [reflexivity | ].
  rewrite IH by congruence. reflexivity.
Qed.

(** A centred and scaled row has sum 0. *)
Lemma rsum_normalized (s : R) (l : list R) :
  l <> [] ->
  rsum (map (fun a => a / s) (map (fun a => a - rmean l) l)) = 0.
Proof.
  intros Hl. unfold Rdiv. rewrite rsum_map_mul. unfold Rminus.
  rewrite rsum_map_add. unfold rmean.
  assert (Hn : INR (length l) <> 0).
  { apply not_0_INR. destruct l; [congruence | simpl; lia]. }
  replace (rsum l + INR (length l) * - (rsum l / INR (length l)))
    with 0 by (field; exact Hn).
  ring.
Qed.

Lemma view3_of_rows (sh : list nat) (a b c : list R) :
  length a = length b -> length b = length c -> (0 < length a)%nat ->
  view3 (Tensor sh (a ++ b ++ c)) = Ok (Rows a b c).
Proof.
  intros Hb Hc Ha. unfold view3. cbn [tdata].
  assert (Hlen : length (a ++ b ++ c) = (length a * 3)%nat)
    by (rewrite !length_app; lia).
  rewrite Hlen, Nat.Div0.mod_mul, Nat.div_mul by lia.
  destruct (Nat.eqb_spec (length a * 3) 0); [lia | ]. cbn [orb negb Nat.eqb].
  f_equal. f_equal.
  - rewrite firstn_app, Nat.sub_diag, firstn_all. simpl. apply app_nil_r.
  - rewrite skipn_app, Nat.sub_diag, skipn_all. simpl.
    rewrite Hb at 1. rewrite firstn_app, Nat.sub_diag, firstn_all. simpl.
    apply app_nil_r.
  - replace (2 * length a)%nat with (length a + length a)%nat by lia.
    rewrite <- skipn_skipn.
    rewrite skipn_app, Nat.sub_diag, skipn_all. simpl.
    rewrite Hb at 1.
    rewrite skipn_app, Nat.sub_diag, skipn_all. reflexivity.
Qed.

Lemma view_as_ok (x : rows3) (like out : tensor) :
  view_as x like = Ok out ->
  out = Tensor (tshape like) (row0 x ++ row1 x ++ row2 x).
Proof.
  unfold view_as.
  destruct (length (row0 x ++ row1 x ++ row2 x) =? numel (tshape like))%nat;
    intros H; [injection H as <-; reflexivity | discriminate H].
Qed.

Lemma rmean_denormalized (t0 t1 t2 s m c0 c1 c2 : R) (f0 f1 f2 : list R) :
  length f0 = length f1 -> length f1 = length f2 -> (0 < length f0)%nat ->
  rmean (map (fun a => a + m) (map (fun a => a * s)
    (lincomb t0 t1 t2
       (map (fun a => a / c0) (map (fun a => a - rmean f0) f0))
       (map (fun a => a / c1) (map (fun a => a - rmean f1) f1))
       (map (fun a => a / c2) (map (fun a => a - rmean f2) f2))))) = m.
Proof.
  intros H01 H12 H0.
  assert (N0 : f0 <> []) by (destruct f0; [simpl in H0; lia | congruence]).
  assert (N1 : f1 <> []) by (destruct f1; [simpl in *; lia | congruence]).
  assert (N2 : f2 <> []) by (destruct f2; [simpl in *; lia | congruence]).
  unfold rmean at 1.
  rewrite rsum_map_add, rsum_map_mul, rsum_lincomb
    by (rewrite !length_map; assumption).
  rewrite !rsum_normalized by assumption.
  rewrite !length_map, length_lincomb by (rewrite !length_map; assumption).
  rewrite !length_map. field. apply not_0_INR. lia.
Qed.

Lemma color_match_values_mean (svd : mat3 -> mat3 * vec3 * mat3)
    (src dst out : tensor) :
  color_match_values svd src dst = Ok out ->
  channel_mean out = channel_mean dst.
Proof.
  unfold color_match_values. intros H.
  destruct (view3 src) as [sf | ] eqn:Hsf; cbn [bind] in H; [ | discriminate].
  destruct (view3 dst) as [df | ] eqn:Hdf; cbn [bind] in H; [ | discriminate].
  destruct (std1 sf) as [ss | ]; cbn [bind] in H; [ | discriminate].
  destruct (bdiv (bsub sf (mean1 sf)) ss) as [sn | ] eqn:Hsn;
    cbn [bind] in H; [ | discriminate].
  destruct (std1 df) as [dss | ]; cbn [bind] in H; [ | discriminate].
  destruct (bdiv (bsub df (mean1 df)) dss) as [dn | ];
    cbn [bind] in H; [ | discriminate].
  destruct (inverse _) as [inv | ]; cbn [bind] in H; [ | discriminate].
  apply view_as_ok in H. subst out.
  destruct (bdiv_ok _ _ _ Hsn) as (_ & _ & _ & ->).
  destruct (view3_lengths _ _ Hsf) as (L01 & L12 & L0).
  unfold channel_mean. rewrite Hdf. cbn [bind].
  set (t := hadamard _ inv).
  destruct sf as [f0 f1 f2]. cbn [row0 row1 row2] in *.
  unfold badd, bmul, bsub, bmap, mm_rows, mean1.
  cbn [row0 row1 row2 v0 v1 v2].
  rewrite view3_of_rows.
  - cbn [bind row0 row1 row2].
    rewrite !rmean_denormalized by assumption.
    reflexivity.
  - rewrite !length_map, !length_lincomb by (rewrite !length_map; assumption).
    reflexivity.
  - rewrite !length_map, !length_lincomb by (rewrite !length_map; assumption).
    reflexivity.
  - rewrite !length_map, !length_lincomb by (rewrite !length_map; assumption).
    rewrite !length_map. exact L0.
Qed.

(** ** The values of [color_match] on any device *)

Lemma same_device_ok (a b d : device) : same_device a b = Ok d -> d = a.
Proof.
  unfold same_device. destruct (device_eqb a b); intros H;
    [injection H as <-; reflexivity | discriminate H].
Qed.

Lemma to_cuda_val {A : Type} (available : bool) (x y : on A) :
  to_cuda available x = Ok y -> val y = val x.
Proof.
  unfold to_cuda. destruct available; intros H;
    [injection H as <-; reflexivity | discriminate H].
Qed.

(** Whenever [color_match] returns, on whatever devices, the entries of the
    result are those of [color_match_values]. *)
Lemma color_match_values_of (svd : mat3 -> mat3 * vec3 * mat3)
    (cuda_is_available : bool) (src dst : on tensor) (cuda : bool)
    (out : on tensor) :
  color_match svd cuda_is_available src dst cuda = Ok out ->
  color_match_values svd (val src) (val dst) = Ok (val out).
Proof.
  unfold color_match, transfer_matrix, unop_r, unop, binop, binop_r.
  intros H.
  repeat first
    [ apply bind_inv in H; destruct H as (? & ? & H)
    | match type of H with
      | context [let '(_, _) := ?p in _] => destruct p
      end ].
  repeat match goal with
         | E : bind _ _ = Ok _ |- _ =>
             apply bind_inv in E; destruct E as (? & ? & E)
         | E : Ok _ = Ok _ |- _ => injection E as E; try subst
         | E : (_, _) = (_, _) |- _ => injection E as E; try subst
         | E : (if ?c then _ else _) = Ok _ |- _ => destruct c
         | E : to_cuda _ _ = Ok _ |- _ => apply to_cuda_val in E
         | E : same_device _ _ = Ok _ |- _ => clear E
         end.
  all: cbn [val dev] in *.
  all: repeat match goal with
              | E : val _ = eye3 |- _ => rewrite E in *; clear E
              end.
  all: unfold color_match_values, cov_eye.
  all: repeat match goal with
              | E : ?m = Ok _ |- context [?m] => rewrite E; cbn [bind]
              end.
  all: reflexivity.
Qed.

(** X4.  Whenever [color_match] returns, on every device, the result has
    the channel means of [dst]. *)
Lemma color_match_mean (svd : mat3 -> mat3 * vec3 * mat3)
    (cuda_is_available : bool) (src dst : on tensor) (cuda : bool)
    (out : on tensor) :
  color_match svd cuda_is_available src dst cuda = Ok out ->
  channel_mean (val out) = channel_mean (val dst).
Proof.
  intros H. apply color_match_values_of in H.
  exact (color_match_values_mean svd _ _ _ H).
Qed.

(** C5 (amended).  Whenever [color_match] returns, on whatever devices, the
    channels of [dst] have means, and the channels of the result have
    exactly these means (over the reals).  Nothing is stated of the standard
    deviations of the result. *)
Theorem color_match_mean_matched (svd : mat3 -> mat3 * vec3 * mat3)
    (cuda_is_available : bool) (src dst : on tensor) (cuda : bool)
    (out : on tensor) :
  color_match svd cuda_is_available src dst cuda = Ok out ->
  exists m : vec3,
    channel_mean (val dst) = Ok m /\ channel_mean (val out) = Ok m.
Proof.
  intros H. apply color_match_values_of in H.
  pose proof (color_match_values_mean svd _ _ _ H) as E.
  unfold color_match_values in H.
  destruct (view3 (val src)) as [sf | ]; cbn [bind] in H; [ | discriminate].
  destruct (view3 (val dst)) as [df | ] eqn:Hdf; cbn [bind] in H;
    [ | discriminate].
  exists (mean1 df).
  assert (Hd : channel_mean (val dst) = Ok (mean1 df))
    by (unfold channel_mean; rewrite Hdf; reflexivity).
  split; [exact Hd | ]. rewrite E. exact Hd.
Qed.

Lemma color_match_mean_matched_rbr_rrb :
  exists m : vec3,
    channel_mean img_rrb = Ok m /\ channel_mean img_out = Ok m.
Proof.
  exact (color_match_mean_matched svd_table false (On CPU img_rbr)
           (On CPU img_rrb) false (On CPU img_out)
           (proj1 (color_match_std_not_matched svd_table false
                     svd_table_valid_rbr svd_table_valid_rrb))).
Defined.

(** X5.  On the host, [color_match x x] returns [x] itself for every [x]
    that holds as many entries as its shape says, has no channel with
    standard deviation 0, and for which [matSqrt] of the covariance has no
    zero on its diagonal. *)
Lemma color_match_self (svd : mat3 -> mat3 * vec3 * mat3)
    (cuda_is_available : bool) (x : tensor) (cuda : bool) (f n : rows3) :
  cuda && cuda_is_available = false ->
  well_shaped x -> view3 x = Ok f -> normalize f = Ok n ->
  det (matSqrt svd (cov_eye n)) <> 0 ->
  color_match svd cuda_is_available (On CPU x) (On CPU x) cuda =
  Ok (On CPU x).
Proof.
  intros Hcud Hw Hf Hn Hdet.
  rewrite color_match_on_host by exact Hcud.
  unfold unop_r; cbn [val dev].
  rewrite (color_match_values_self svd x f n Hw Hf Hn Hdet). reflexivity.
Qed.

(** Without accelerator the flag changes nothing in memory either. *)
Lemma color_match_st_flag_without_accelerator
    (svd : mat3 -> mat3 * vec3 * mat3) (src dst : handle) :
  color_match_st svd false src dst true = color_match_st svd false src dst false.
Proof. reflexivity. Qed.

(** ** When [color_match] returns

    On the host, for a well-shaped [src]: both images flatten to three rows,
    no channel of either has standard deviation 0, and [matSqrt] of the
    source covariance has no zero on its diagonal. *)
Lemma color_match_values_returns (svd : mat3 -> mat3 * vec3 * mat3)
    (src dst : tensor) (sf df sn dn : rows3) :
  well_shaped src ->
  view3 src = Ok sf -> view3 dst = Ok df ->
  normalize sf = Ok sn -> normalize df = Ok dn ->
  det (matSqrt svd (cov_eye sn)) <> 0 ->
  exists out, color_match_values svd src dst = Ok out.
Proof.
  intros Hw Hsf Hdf Hsn Hdn Hdet.
  destruct (view3_lengths _ _ Hsf) as (L01 & L12 & _).
  pose proof (view3_concat _ _ Hsf) as Hcat.
  unfold normalize in Hsn, Hdn. unfold color_match_values.
  rewrite Hsf, Hdf. cbn [bind].
  destruct (std1 sf) as [ss | ]; cbn [bind] in *; [ | discriminate].
  destruct (std1 df) as [ds | ]; cbn [bind] in *; [ | discriminate].
  rewrite Hsn. cbn [bind]. rewrite Hdn. cbn [bind].
  destruct (bdiv_ok _ _ _ Hsn) as (_ & _ & _ & E). subst sn.
  unfold inverse. rewrite is_zero_false by exact Hdet. cbn [bind].
  unfold view_as.
  match goal with
  | |- context [(?n =? ?m)%nat] => replace n with m; [rewrite Nat.eqb_refl | ]
  end.
  - eexists. reflexivity.
  - unfold well_shaped in Hw. rewrite <- Hw, <- Hcat.
    destruct sf as [f0 f1 f2]. cbn [row0 row1 row2] in *.
    unfold badd, bmul, bsub, bmap, mm_rows. cbn [row0 row1 row2].
    rewrite !length_app, !length_map.
    rewrite !length_lincomb by (rewrite !length_map; assumption).
    rewrite !length_map. lia.
Qed.

(** * Further properties of the code *)

(** ** [color_match]: every channel on its own *)










(** ** [color_match]: devices *)

Lemma same_device_eq (a b d : device) :
  same_device a b = Ok d -> a = b /\ d = a.
Proof.
  unfold same_device. destruct a, b; simpl; intros H;
    try discriminate H; injection H as <-; auto.
Qed.

Lemma to_cuda_ok {A : Type} (available : bool) (x y : on A) :
  to_cuda available x = Ok y -> available = true /\ y = On CUDA (val x).
Proof.
  unfold to_cuda. destruct available; intros H;
    [injection H as <-; auto | discriminate H].
Qed.

(** X3.  [color_match] returns only when [src], [dst] and the identity matrix
    are on one device: the accelerator when the flag is set and an
    accelerator is there, the host otherwise.  The result is on that
    device. *)
Theorem color_match_devices (svd : mat3 -> mat3 * vec3 * mat3)
    (cuda_is_available : bool) (src dst : on tensor) (cuda : bool)
    (out : on tensor) :
  color_match svd cuda_is_available src dst cuda = Ok out ->
  dev src = (if cuda && cuda_is_available then CUDA else CPU) /\
  dev dst = dev src /\ dev out = dev src.
Proof.
  unfold color_match, transfer_matrix, unop_r, unop, binop, binop_r.
  intros H.
  repeat first
    [ apply bind_inv in H; destruct H as (? & ? & H)
    | match type of H with
      | context [let '(_, _) := ?p in _] => destruct p
      end ].
  repeat match goal with
         | E : bind _ _ = Ok _ |- _ =>
             apply bind_inv in E; destruct E as (? & ? & E)
         | E : Ok _ = Ok _ |- _ => injection E as E; try subst
         | E : (_, _) = (_, _) |- _ => injection E as E; try subst
         | E : to_cuda _ _ = Ok _ |- _ =>
             apply to_cuda_ok in E; destruct E as (? & ?); subst
         | E : same_device _ _ = Ok _ |- _ =>
             apply same_device_eq in E; cbn [dev val] in E;
             destruct E as (? & ?); try subst
         | E : (if ?c then _ else _) = Ok _ |- _ => destruct c
         end.
  all: cbn [dev val] in *.
  all: repeat split; congruence.
Qed.

Lemma color_match_devices_rbr :
  dev (On CPU img_rbr) = (if false && false then CUDA else CPU) /\
  dev (On CPU img_rrb_tall) = dev (On CPU img_rbr) /\
  dev (On CPU img_out) = dev (On CPU img_rbr).
Proof.
  exact (color_match_devices svd_table false (On CPU img_rbr)
           (On CPU img_rrb_tall) false (On CPU img_out) color_match_rbr_tall).
Defined.

(** ** More on [color_match] *)

Lemma matSqrt_rbr_regular :
  det (matSqrt svd_table (cov_eye norm_rbr)) <> 0.
Proof.
  rewrite cov_eye_rbr, (matSqrt_rbr svd_table svd_table_valid_rbr), det_diag.
  simpl. pose proof sqrt_5_pos. nra.
Qed.

Lemma color_match_mean_rbr_tall :
  channel_mean img_out = channel_mean img_rrb_tall.
Proof.
  exact (color_match_mean svd_table false (On CPU img_rbr)
           (On CPU img_rrb_tall) false (On CPU img_out) color_match_rbr_tall).
Defined.

Lemma color_match_self_rbr :
  color_match svd_table false (On CPU img_rbr) (On CPU img_rbr) false =
  Ok (On CPU img_rbr).
Proof.
  apply (color_match_self svd_table false img_rbr false flat_rbr norm_rbr).
  - reflexivity.
  - reflexivity.
  - exact view3_rbr.
  - exact normalize_rbr.
  - exact matSqrt_rbr_regular.
Defined.

Lemma color_match_constant_channel_flat_red :
  color_match svd_table false (On CPU img_flat_red) (On CPU img_rbr) false =
  Fail NonFinite.
Proof.
  apply (color_match_constant_channel svd_table false (On CPU img_flat_red)
           (On CPU img_rbr) false (Rows [1; 1] [0; 1] [0; 1]) flat_rbr).
  - reflexivity.
  - exact view3_rbr.
  - left. exists 1. repeat constructor.
Defined.

(** X7.  A sufficient condition for [color_match] to return, on the host: a
    [src] that holds as many entries as its shape says, both images
    flattening to three rows, no channel of either with standard deviation
    0, and [matSqrt] of the source covariance without a zero on its
    diagonal.  The result is then on the host. *)
Theorem color_match_returns (svd : mat3 -> mat3 * vec3 * mat3)
    (cuda_is_available : bool) (src dst : tensor) (cuda : bool)
    (sf df sn dn : rows3) :
  cuda && cuda_is_available = false ->
  well_shaped src ->
  view3 src = Ok sf -> view3 dst = Ok df ->
  normalize sf = Ok sn -> normalize df = Ok dn ->
  det (matSqrt svd (cov_eye sn)) <> 0 ->
  exists out,
    color_match svd cuda_is_available (On CPU src) (On CPU dst) cuda =
    Ok (On CPU out).
Proof.
  intros Hcud Hw Hsf Hdf Hsn Hdn Hdet.
  destruct (color_match_values_returns svd src dst sf df sn dn
              Hw Hsf Hdf Hsn Hdn Hdet) as (out & Hout).
  exists out. rewrite color_match_on_host by exact Hcud.
  unfold unop_r; cbn [val dev]. rewrite Hout. reflexivity.
Qed.

Lemma color_match_returns_rbr_rrb :
  exists out,
    color_match svd_table false (On CPU img_rbr) (On CPU img_rrb) false =
    Ok (On CPU out).
Proof.
  apply (color_match_returns svd_table false img_rbr img_rrb false
           flat_rbr flat_rrb norm_rbr norm_rrb).
  - reflexivity.
  - reflexivity.
  - exact view3_rbr.
  - exact view3_rrb.
  - exact normalize_rbr.
  - exact normalize_rrb.
  - exact matSqrt_rbr_regular.
Defined.

(** ** [gram_matrix] *)

Lemma rsum_nonneg (l : list R) : Forall (fun v => 0 <= v) l -> 0 <= rsum l.
Proof.
  induction 1 as [ | v l Hv Hl IH]; simpl; lra.
Qed.

Lemma rsum_squares_nonneg {A : Type} (f : A -> R) (l : list A) :
  0 <= rsum (map (fun k => f k * f k) l).
Proof.
  apply rsum_nonneg, Forall_map, Forall_forall. intros k _. nra.
Qed.

Lemma div_INR_nonneg (x : R) (n : nat) : 0 <= x -> 0 <= x / INR n.
Proof.
  intros Hx. unfold Rdiv. destruct n as [ | n].
  - simpl. rewrite Rinv_0. lra.
  - apply Rmult_le_pos; [exact Hx | ].
    left. apply Rinv_0_lt_compat, lt_0_INR. lia.
Qed.

Lemma square_bound (u v : R) : 0 <= u -> v * v <= u * u -> v <= u.
Proof. intros Hu H. nra. Qed.

(** The Cauchy-Schwarz inequality for two rows of features. *)
Lemma cauchy_schwarz {A : Type} (f g : A -> R) (l : list A) :
  rsum (map (fun k => f k * g k) l) * rsum (map (fun k => f k * g k) l) <=
  rsum (map (fun k => f k * f k) l) * rsum (map (fun k => g k * g k) l).
Proof.
  induction l as [ | k l IH]; [simpl; lra | ].
  pose proof (rsum_squares_nonneg f l) as HA.
  pose proof (rsum_squares_nonneg g l) as HB.
  cbn [map rsum fold_right]. fold (rsum (map (fun k => f k * g k) l)).
  fold (rsum (map (fun k => f k * f k) l)).
  fold (rsum (map (fun k => g k * g k) l)).
  set (S := rsum (map (fun k => f k * g k) l)) in *.
  set (a := rsum (map (fun k => f k * f k) l)) in *.
  set (b := rsum (map (fun k => g k * g k) l)) in *.
  set (x := f k). set (y := g k). clearbody S a b x y.
  assert (Hmix : 2 * S * x * y <= a * (y * y) + b * (x * x)).
  { apply square_bound; [nra | ].
    pose proof (Rle_0_sqr (x * y)) as Hxy. unfold Rsqr in Hxy.
    assert (S * S * ((x * y) * (x * y)) <= a * b * ((x * y) * (x * y)))
      by (apply Rmult_le_compat_r; assumption).
    pose proof (Rle_0_sqr (a * (y * y) - b * (x * x))) as Hd.
    unfold Rsqr in Hd.
    replace (2 * S * x * y * (2 * S * x * y))
      with (4 * (S * S * (x * y * (x * y)))) by ring.
    replace ((a * (y * y) + b * (x * x)) * (a * (y * y) + b * (x * x)))
      with ((a * (y * y) - b * (x * x)) * (a * (y * y) - b * (x * x)) +
            4 * (a * b * (x * y * (x * y)))) by ring.
    lra. }
  nra.
Qed.

Lemma gram_matrix_eq (y : tensor4 R) (g : tensor3 R) :
  gram_matrix y = Ok g ->
  g = T3 (dim0 y) (dim1 y) (dim1 y)
         (fun i c1 c2 =>
            rsum (map (fun p => at3 (view_features y) i c1 p *
                                at3 (view_features y) i c2 p)
                      (seq 0 (dim3 y * dim2 y)))
            / INR (dim1 y * dim2 y * dim3 y)).
Proof.
  unfold gram_matrix, bmm, div_scalar, transpose12, view_features.
  cbn [size0 size1 size2 at3]. rewrite !Nat.eqb_refl. cbn [andb bind].
  cbn [size0 size1 size2 at3].
  destruct ((_ =? 0)%nat && _); intros H; [discriminate H | ].
  injection H as <-. reflexivity.
Qed.

(** X8.  Whenever [gram_matrix] returns, the result has one (ch, ch) matrix per
    sample, and each of them is symmetric with a diagonal that is not
    negative. *)
Theorem gram_matrix_symmetric (y : tensor4 R) (g : tensor3 R) :
  gram_matrix y = Ok g ->
  size0 g = dim0 y /\ size1 g = dim1 y /\ size2 g = dim1 y /\
  (forall i c1 c2, at3 g i c1 c2 = at3 g i c2 c1) /\
  (forall i c, 0 <= at3 g i c c).
Proof.
  intros H. apply gram_matrix_eq in H. subst g. cbn [size0 size1 size2 at3].
  repeat split.
  - intros i c1 c2. f_equal. f_equal. apply map_ext. intros p. ring.
  - intros i c. apply div_INR_nonneg, rsum_squares_nonneg.
Qed.

Lemma gram_matrix_symmetric_features_12 :
  exists g, gram_matrix features_12 = Ok g /\
    (size0 g = dim0 features_12 /\ size1 g = dim1 features_12 /\
     size2 g = dim1 features_12 /\
     (forall i c1 c2, at3 g i c1 c2 = at3 g i c2 c1) /\
     (forall i c, 0 <= at3 g i c c)).
Proof.
  eexists. split; [reflexivity | ].
  apply (gram_matrix_symmetric features_12). reflexivity.
Defined.

(** X9.  Whenever [gram_matrix] returns, its entries satisfy the Cauchy-Schwarz
    inequality [g(c1,c2)^2 <= g(c1,c1) g(c2,c2)]. *)
Theorem gram_matrix_cauchy_schwarz (y : tensor4 R) (g : tensor3 R) :
  gram_matrix y = Ok g ->
  forall i c1 c2,
    at3 g i c1 c2 * at3 g i c1 c2 <= at3 g i c1 c1 * at3 g i c2 c2.
Proof.
  intros H i c1 c2. apply gram_matrix_eq in H. subst g. cbn [at3].
  set (f := at3 (view_features y) i).
  pose proof (cauchy_schwarz (f c1) (f c2) (seq 0 (dim3 y * dim2 y))) as CS.
  set (n := INR (dim1 y * dim2 y * dim3 y)).
  unfold Rdiv.
  assert (Hn : 0 <= / n * / n) by nra.
  nra.
Qed.

Lemma gram_matrix_cauchy_schwarz_features_12 :
  exists g, gram_matrix features_12 = Ok g /\
    forall i c1 c2,
      at3 g i c1 c2 * at3 g i c1 c2 <= at3 g i c1 c1 * at3 g i c2 c2.
Proof.
  eexists. split; [reflexivity | ].
  apply (gram_matrix_cauchy_schwarz features_12). reflexivity.
Defined.

(** X10.  [gram_matrix] leaves the reals exactly on a batch that has samples and
    channels but no pixel; on every other batch it returns. *)
Theorem gram_matrix_outcome (y : tensor4 R) :
  (gram_matrix y = Fail NonFinite <->
   (0 < dim0 y)%nat /\ (0 < dim1 y)%nat /\ (dim2 y * dim3 y = 0)%nat) /\
  (gram_matrix y = Fail NonFinite \/ exists g, gram_matrix y = Ok g).
Proof.
  unfold gram_matrix, bmm, div_scalar, transpose12, view_features.
  cbn [size0 size1 size2 at3]. rewrite !Nat.eqb_refl. cbn [andb bind].
  cbn [size0 size1 size2 at3].
  destruct (Nat.eqb_spec (dim1 y * dim2 y * dim3 y) 0) as [Z | N];
    cbn [andb].
  - destruct (Nat.eqb_spec (dim0 y * dim1 y * dim1 y) 0) as [Z' | N'];
      cbn [negb].
    + split; [ | right; eexists; reflexivity].
      split; [discriminate | nia].
    + split; [ | left; reflexivity].
      split; [nia | reflexivity].
  - split; [ | right; eexists; reflexivity].
    split; [discriminate | nia].
Qed.

(** ** [preprocess_batch] on any number of channels *)

(** The sizes [torch.chunk(t, 3)] computes for a dimension of [n] entries. *)
Lemma chunk_sizes (n : nat) :
  (n = 3 \/ 5 <= n)%nat ->
  let s := ((n + 2) / 3)%nat in
  (s <> 0 /\ (n + s - 1) / s = 3 /\ s - (s * 3 - n) = n - 2 * s /\
   2 * s < n /\ n <= 3 * s)%nat.
Proof.
  intros Hn s.
  pose proof (Nat.div_mod_eq (n + 2) 3) as E.
  pose proof (Nat.mod_upper_bound (n + 2) 3 ltac:(lia)) as B.
  fold s in E. set (r := ((n + 2) mod 3)%nat) in *. clearbody s r.
  assert (Hs : (2 * s < n /\ n <= 3 * s)%nat) by lia.
  repeat split; try lia.
  symmetry. apply (Nat.div_unique _ _ _ (n - 2 * s - 1)); lia.
Qed.

Lemma preprocess_batch_ok {A : Type} (batch : tensor4 A) :
  (dim1 batch = 3 \/ 5 <= dim1 batch)%nat ->
  exists b, preprocess_batch batch = Ok b /\
    dim0 b = dim0 batch /\ dim1 b = dim1 batch /\
    dim2 b = dim2 batch /\ dim3 b = dim3 batch /\
    forall i j k l,
      at4 b i j k l =
      at4 batch i
        (let n := dim1 batch in
         let s := ((n + 2) / 3)%nat in
         if (j <? n - 2 * s)%nat then (2 * s + j)%nat
         else if (j <? n - s)%nat then (s + (j - (n - 2 * s)))%nat
         else (j - (n - s))%nat) k l.
Proof.
  destruct batch as [d0 n d2 d3 f]. cbn [dim0 dim1 dim2 dim3 at4].
  intros Hn. destruct (chunk_sizes n Hn) as (Hs0 & Hnum & Hlast & Hlo & Hhi).
  unfold preprocess_batch, chunk0, transpose01. cbn [dim0 dim1 dim2 dim3 at4].
  replace (3 =? 0)%nat with false by reflexivity.
  replace (n + 3 - 1)%nat with (n + 2)%nat by lia.
  set (s := ((n + 2) / 3)%nat) in *. clearbody s.
  unfold split0. cbn [dim0 dim1 dim2 dim3 at4].
  destruct (Nat.eqb_spec s 0) as [ | _]; [contradiction | ].
  cbv zeta. rewrite Hnum.
  rewrite Hlast.
  cbn [seq map Nat.sub bind].
  change (0 <? 2)%nat with true. change (1 <? 2)%nat with true.
  change (2 <? 2)%nat with false.
  unfold cat0, cat2, same_tail, narrow0. cbn [dim0 dim1 dim2 dim3 at4 bind].
  rewrite !Nat.eqb_refl. cbn [andb bind dim0 dim1 dim2 dim3 at4].
  rewrite !Nat.eqb_refl. cbn [andb bind dim0 dim1 dim2 dim3 at4].
  eexists. split; [reflexivity | ]. cbn [dim0 dim1 dim2 dim3 at4].
  repeat split; try lia.
  intros i j k l.
  destruct (Nat.ltb_spec j (n - 2 * s)) as [H1 | H1]; [reflexivity | ].
  destruct (Nat.ltb_spec (j - (n - 2 * s)) s) as [H2 | H2];
    destruct (Nat.ltb_spec j (n - s)) as [H3 | H3]; try lia; f_equal; lia.
Qed.

Lemma preprocess_batch_rejects {A : Type} (batch : tensor4 A) :
  ~ (dim1 batch = 3 \/ 5 <= dim1 batch)%nat ->
  preprocess_batch batch = Fail ZeroDivisionError \/
  preprocess_batch batch = Fail ValueError.
Proof.
  destruct batch as [d0 n d2 d3 f]. cbn [dim1]. intros Hn.
  destruct n as [ | [ | [ | [ | [ | n]]]]]; try (exfalso; lia).
  - left. reflexivity.
  - right. reflexivity.
  - right. reflexivity.
  - right. reflexivity.
Qed.

(** X16.  [preprocess_batch] returns exactly on the batches with 3 channels or with
    5 and more: on 1, 2 or 4 channels the unpacking of the chunks raises, and
    without channels the chunk size is 0. *)
Theorem preprocess_batch_returns_iff {A : Type} (batch : tensor4 A) :
  (exists b, preprocess_batch batch = Ok b) <->
  (dim1 batch = 3 \/ 5 <= dim1 batch)%nat.
Proof.
  split.
  - intros (b & Hb).
    destruct (Nat.eq_dec (dim1 batch) 3) as [ | N3]; [left; assumption | ].
    destruct (Nat.le_gt_cases 5 (dim1 batch)) as [ | N5];
      [right; assumption | ].
    destruct (preprocess_batch_rejects batch ltac:(lia)) as [E | E];
      rewrite E in Hb; discriminate Hb.
  - intros Hn. destruct (preprocess_batch_ok batch Hn) as (b & Hb & _).
    exists b. exact Hb.
Qed.

(** X17.  Whenever [preprocess_batch] returns, the result has the sizes of the
    batch and holds its channels chunk by chunk in reverse order: with
    [s = ceil(n / 3)] the last [n - 2 s] channels come first, then the middle
    [s], then the first [s]. *)
Theorem preprocess_batch_permutes {A : Type} (batch b : tensor4 A) :
  preprocess_batch batch = Ok b ->
  dim0 b = dim0 batch /\ dim1 b = dim1 batch /\
  dim2 b = dim2 batch /\ dim3 b = dim3 batch /\
  forall i j k l,
    at4 b i j k l =
    at4 batch i
      (let n := dim1 batch in
       let s := ((n + 2) / 3)%nat in
       if (j <? n - 2 * s)%nat then (2 * s + j)%nat
       else if (j <? n - s)%nat then (s + (j - (n - 2 * s)))%nat
       else (j - (n - s))%nat) k l.
Proof.
  intros Hb.
  assert (Hn : (dim1 batch = 3 \/ 5 <= dim1 batch)%nat).
  { destruct (Nat.eq_dec (dim1 batch) 3) as [ | N3]; [left; assumption | ].
    destruct (Nat.le_gt_cases 5 (dim1 batch)) as [ | N5];
      [right; assumption | ].
    destruct (preprocess_batch_rejects batch ltac:(lia)) as [E | E];
      rewrite E in Hb; discriminate Hb. }
  destruct (preprocess_batch_ok batch Hn) as (b' & Hb' & H).
  rewrite Hb in Hb'. injection Hb' as <-. exact H.
Qed.

Lemma preprocess_batch_permutes_five :
  exists b, preprocess_batch batch_five = Ok b /\
    (dim0 b = dim0 batch_five /\ dim1 b = dim1 batch_five /\
     dim2 b = dim2 batch_five /\ dim3 b = dim3 batch_five /\
     forall i j k l,
       at4 b i j k l =
       at4 batch_five i
         (let n := dim1 batch_five in
          let s := ((n + 2) / 3)%nat in
          if (j <? n - 2 * s)%nat then (2 * s + j)%nat
          else if (j <? n - s)%nat then (s + (j - (n - 2 * s)))%nat
          else (j - (n - s))%nat) k l).
Proof.
  eexists. split; [reflexivity | ].
  apply (preprocess_batch_permutes batch_five). reflexivity.
Defined.

(** ** [subtract_imagenet_mean_batch] and [add_imagenet_mean_batch] *)

Lemma imagenet_mean_eq (u : nat -> nat -> nat -> nat -> R) (batch : tensor4 R) :
  (3 <= dim1 batch)%nat ->
  exists mean, imagenet_mean u batch = Ok mean /\
    dim0 mean = dim0 batch /\ dim1 mean = dim1 batch /\
    dim2 mean = dim2 batch /\ dim3 mean = dim3 batch /\
    forall i j k l,
      at4 mean i j k l =
      if (j <? 3)%nat then imagenet_channel_mean j else u i j k l.
Proof.
  intros H. unfold imagenet_mean, fill_channel. cbn [dim0 dim1 dim2 dim3 at4].
  destruct (Nat.ltb_spec 0 (dim1 batch)); [ | lia].
  cbn [bind dim0 dim1 dim2 dim3 at4].
  destruct (Nat.ltb_spec 1 (dim1 batch)); [ | lia].
  cbn [bind dim0 dim1 dim2 dim3 at4].
  destruct (Nat.ltb_spec 2 (dim1 batch)); [ | lia].
  eexists. split; [reflexivity | ]. cbn [dim0 dim1 dim2 dim3 at4].
  repeat split. intros i j k l.
  destruct j as [ | [ | [ | j]]]; reflexivity.
Qed.

Lemma imagenet_mean_few_channels (u : nat -> nat -> nat -> nat -> R)
    (batch : tensor4 R) :
  (dim1 batch < 3)%nat -> imagenet_mean u batch = Fail IndexError.
Proof.
  intros H. unfold imagenet_mean, fill_channel. cbn [dim0 dim1 dim2 dim3 at4].
  destruct (Nat.ltb_spec 0 (dim1 batch)); [ | reflexivity].
  cbn [bind dim0 dim1 dim2 dim3 at4].
  destruct (Nat.ltb_spec 1 (dim1 batch)); [ | reflexivity].
  cbn [bind dim0 dim1 dim2 dim3 at4].
  destruct (Nat.ltb_spec 2 (dim1 batch)); [lia | reflexivity].
Qed.

Lemma tzip4_same_sizes (f : R -> R -> R) (a b : tensor4 R) :
  dim0 b = dim0 a -> dim1 b = dim1 a -> dim2 b = dim2 a -> dim3 b = dim3 a ->
  tzip4 f a b =
  Ok (T4 (dim0 a) (dim1 a) (dim2 a) (dim3 a)
         (fun i j k l => f (at4 a i j k l) (at4 b i j k l))).
Proof.
  intros H0 H1 H2 H3. unfold tzip4, same_tail.
  rewrite H0, H1, H2, H3, !Nat.eqb_refl. reflexivity.
Qed.

(** X11.  [subtract_imagenet_mean_batch] raises on a batch with fewer than 3
    channels; on any other batch it returns a batch of the same sizes whose
    first three channels are those of the batch minus 103.939, 116.779 and
    123.680, whatever the new tensor held before. *)
Theorem subtract_imagenet_mean_batch_outcome
    (uninitialized : nat -> nat -> nat -> nat -> R) (batch : tensor4 R) :
  if (dim1 batch <? 3)%nat
  then subtract_imagenet_mean_batch uninitialized batch = Fail IndexError
  else exists b,
      subtract_imagenet_mean_batch uninitialized batch = Ok b /\
      dim0 b = dim0 batch /\ dim1 b = dim1 batch /\
      dim2 b = dim2 batch /\ dim3 b = dim3 batch /\
      forall i j k l, (j < 3)%nat ->
        at4 b i j k l = at4 batch i j k l - imagenet_channel_mean j.
Proof.
  unfold subtract_imagenet_mean_batch.
  destruct (Nat.ltb_spec (dim1 batch) 3) as [H | H].
  - rewrite imagenet_mean_few_channels by exact H. reflexivity.
  - destruct (imagenet_mean_eq uninitialized batch H)
      as (mean & -> & H0 & H1 & H2 & H3 & Hm).
    cbn [bind]. rewrite tzip4_same_sizes by assumption.
    eexists. split; [reflexivity | ]. cbn [dim0 dim1 dim2 dim3 at4].
    repeat split. intros i j k l Hj. rewrite Hm.
    destruct (Nat.ltb_spec j 3); [reflexivity | lia].
Qed.

(** X12.  [add_imagenet_mean_batch] undoes [subtract_imagenet_mean_batch] on the
    first three channels (over the reals), whatever the two new tensors held
    before. *)
Theorem add_after_subtract_imagenet_mean
    (u1 u2 : nat -> nat -> nat -> nat -> R) (batch b1 : tensor4 R) :
  subtract_imagenet_mean_batch u1 batch = Ok b1 ->
  exists b2,
    add_imagenet_mean_batch u2 b1 = Ok b2 /\
    dim0 b2 = dim0 batch /\ dim1 b2 = dim1 batch /\
    dim2 b2 = dim2 batch /\ dim3 b2 = dim3 batch /\
    forall i j k l, (j < 3)%nat -> at4 b2 i j k l = at4 batch i j k l.
Proof.
  intros Hs. unfold subtract_imagenet_mean_batch in Hs.
  destruct (Nat.ltb_spec (dim1 batch) 3) as [H | H].
  { rewrite imagenet_mean_few_channels in Hs by exact H. discriminate Hs. }
  destruct (imagenet_mean_eq u1 batch H)
    as (mean & E & H0 & H1 & H2 & H3 & Hm).
  rewrite E in Hs. cbn [bind] in Hs.
  rewrite tzip4_same_sizes in Hs by assumption. injection Hs as <-.
  unfold add_imagenet_mean_batch.
  match goal with
  | |- context [imagenet_mean u2 ?b] =>
      destruct (imagenet_mean_eq u2 b H)
        as (mean' & -> & H0' & H1' & H2' & H3' & Hm')
  end.
  cbn [dim0 dim1 dim2 dim3 at4] in *. cbn [bind].
  rewrite tzip4_same_sizes by assumption.
  eexists. split; [reflexivity | ]. cbn [dim0 dim1 dim2 dim3 at4].
  repeat split. intros i j k l Hj. rewrite Hm, Hm'.
  destruct (Nat.ltb_spec j 3); [ring | lia].
Qed.

Lemma add_after_subtract_imagenet_mean_pixel :
  exists b1,
    subtract_imagenet_mean_batch (fun _ _ _ _ => 0) batch_pixel = Ok b1 /\
    exists b2,
      add_imagenet_mean_batch (fun _ _ _ _ => 1) b1 = Ok b2 /\
      dim0 b2 = dim0 batch_pixel /\ dim1 b2 = dim1 batch_pixel /\
      dim2 b2 = dim2 batch_pixel /\ dim3 b2 = dim3 batch_pixel /\
      forall i j k l, (j < 3)%nat -> at4 b2 i j k l = at4 batch_pixel i j k l.
Proof.
  eexists. split; [reflexivity | ].
  apply (add_after_subtract_imagenet_mean (fun _ _ _ _ => 0)).
  reflexivity.
Defined.

(** X13.  On a batch with more than 3 channels the fourth channel of the result
    of [subtract_imagenet_mean_batch] is the batch minus what the new tensor
    held before: the three assignments leave that channel unwritten. *)
Theorem subtract_imagenet_mean_batch_fourth_channel
    (uninitialized : nat -> nat -> nat -> nat -> R) (batch : tensor4 R) :
  (3 < dim1 batch)%nat ->
  exists b,
    subtract_imagenet_mean_batch uninitialized batch = Ok b /\
    forall i j k l, (3 <= j)%nat ->
      at4 b i j k l = at4 batch i j k l - uninitialized i j k l.
Proof.
  intros H. unfold subtract_imagenet_mean_batch.
  destruct (imagenet_mean_eq uninitialized batch ltac:(lia))
    as (mean & -> & H0 & H1 & H2 & H3 & Hm).
  cbn [bind]. rewrite tzip4_same_sizes by assumption.
  eexists. split; [reflexivity | ]. cbn [at4].
  intros i j k l Hj. rewrite Hm.
  destruct (Nat.ltb_spec j 3); [lia | reflexivity].
Qed.

Lemma subtract_imagenet_mean_batch_fourth_channel_at_four :
  (3 < dim1 batch_four)%nat /\
  exists b,
    subtract_imagenet_mean_batch (fun _ _ _ _ => 7) batch_four = Ok b /\
    forall i j k l, (3 <= j)%nat ->
      at4 b i j k l = at4 batch_four i j k l - 7.
Proof.
  split; [simpl; lia | ].
  apply (subtract_imagenet_mean_batch_fourth_channel
           (fun _ _ _ _ => 7) batch_four).
  simpl; lia.
Defined.

(** ** [imagenet_clamp_batch] *)

Lemma clamp_range (lo hi v : R) : lo <= hi -> lo <= clamp lo hi v <= hi.
Proof.
  intros H. unfold clamp.
  destruct (Rlt_dec v lo); [lra | ].
  destruct (Rlt_dec hi v); lra.
Qed.

Lemma nth_error_map_combine_seq {B : Type} (f : nat * R -> B) (d : list R)
    (a i : nat) :
  nth_error (map f (combine (seq a (length d)) d)) i =
  option_map (fun v => f ((a + i)%nat, v)) (nth_error d i).
Proof.
  revert a i. induction d as [ | x d IH]; intros a i.
  - destruct i; reflexivity.
  - destruct i as [ | i]; cbn [length seq combine map nth_error option_map].
    + rewrite Nat.add_0_r. reflexivity.
    + rewrite IH. replace (S a + i)%nat with (a + S i)%nat by lia.
      reflexivity.
Qed.

Lemma clamp_channel_entries (c : nat) (lo hi : R) (t : tensor)
    (b ch h w : nat) :
  tshape t = [b; ch; h; w] -> (c < ch)%nat ->
  exists t', clamp_channel c lo hi t = Ok t' /\
    tshape t' = tshape t /\
    forall idx v, nth_error (tdata t) idx = Some v ->
      nth_error (tdata t') idx =
      Some (if (channel_of (tshape t) idx =? c)%nat
            then clamp lo hi v else v).
Proof.
  intros Hsh Hc. unfold clamp_channel. rewrite Hsh.
  destruct (Nat.ltb_spec c ch); [ | lia].
  eexists. split; [reflexivity | ]. cbn [tshape tdata channel_of].
  split; [reflexivity | ]. intros idx v Hv.
  rewrite nth_error_map_combine_seq, Hv. reflexivity.
Qed.

Lemma clamp_channel_out_of_range (c : nat) (lo hi : R) (t : tensor)
    (b ch h w : nat) :
  tshape t = [b; ch; h; w] -> (ch <= c)%nat ->
  clamp_channel c lo hi t = Fail IndexError.
Proof.
  intros Hsh Hc. unfold clamp_channel. rewrite Hsh.
  destruct (Nat.ltb_spec c ch); [lia | reflexivity].
Qed.

Lemma nth_error_overwritten (st : storage) (n : nat) (x y : on value) :
  nth_error st n = Some x ->
  nth_error (firstn n st ++ y :: skipn (S n) st) n = Some y.
Proof.
  intros H.
  assert (Hn : (n < length st)%nat)
    by (apply nth_error_Some; congruence).
  rewrite nth_error_app2; rewrite firstn_length_le by lia; [ | lia].
  rewrite Nat.sub_diag. reflexivity.
Qed.

Lemma overwritten_twice (st : storage) (n : nat) (x y z : on value) :
  nth_error st n = Some x ->
  let st' := (firstn n st ++ y :: skipn (S n) st)%list in
  (firstn n st' ++ z :: skipn (S n) st')%list =
  (firstn n st ++ z :: skipn (S n) st)%list.
Proof.
  intros H st'.
  assert (Hn : (n < length st)%nat)
    by (apply nth_error_Some; congruence).
  assert (Hl : length (firstn n st) = n) by (apply firstn_length_le; lia).
  unfold st'. f_equal.
  - rewrite firstn_app, Hl, Nat.sub_diag, firstn_firstn, Nat.min_id.
    cbn [firstn]. apply app_nil_r.
  - f_equal. rewrite skipn_app, Hl.
    rewrite skipn_all2 by lia.
    replace (S n - n)%nat with 1%nat by lia. reflexivity.
Qed.

Lemma clamp_channel_st_ok (c : nat) (lo hi : R) (st : storage) (n : nat)
    (d : device) (t t' : tensor) :
  nth_error st n = Some (On d (VTensor t)) ->
  clamp_channel c lo hi t = Ok t' ->
  clamp_channel_st c lo hi (Handle n []) st =
  (Ok tt, (firstn n st ++ On d (VTensor t') :: skipn (S n) st)%list).
Proof.
  intros Hst Hc.
  unfold clamp_channel_st, mbind, load, lift, overwrite, read.
  cbn [hloc hviews]. rewrite Hst. cbn [apply_views bind val dev as_tensor].
  rewrite Hc. reflexivity.
Qed.

Lemma clamp_channel_st_fail (c : nat) (lo hi : R) (st : storage) (n : nat)
    (d : device) (t : tensor) (e : failure) :
  nth_error st n = Some (On d (VTensor t)) ->
  clamp_channel c lo hi t = Fail e ->
  clamp_channel_st c lo hi (Handle n []) st = (Fail e, st).
Proof.
  intros Hst Hc.
  unfold clamp_channel_st, mbind, load, lift, overwrite, read.
  cbn [hloc hviews]. rewrite Hst. cbn [apply_views bind val dev as_tensor].
  rewrite Hc. reflexivity.
Qed.

Lemma channel_of_lt (b ch h w idx : nat) :
  (0 < ch)%nat -> (channel_of [b; ch; h; w] idx < ch)%nat.
Proof.
  intros H. cbn [channel_of]. apply Nat.mod_upper_bound. lia.
Qed.

(** X14.  On a (B, C, H, W) tensor with at least 3 channels and for
    [low <= high], [imagenet_clamp_batch] returns and overwrites the storage
    of the batch, and nothing else: the shape stays, every entry [v] of the
    first three channels becomes the clamped value [v'], for which
    [low <= v' + mean <= high] with the ImageNet mean of its channel, and
    every entry of another channel stays as it is. *)
Theorem imagenet_clamp_batch_range (st : storage) (n : nat) (d : device)
    (t : tensor) (b ch h w : nat) (low high : R) :
  nth_error st n = Some (On d (VTensor t)) ->
  tshape t = [b; ch; h; w] -> (3 <= ch)%nat -> low <= high ->
  exists t',
    imagenet_clamp_batch (Handle n []) low high st =
    (Ok tt, (firstn n st ++ On d (VTensor t') :: skipn (S n) st)%list) /\
    tshape t' = tshape t /\
    forall idx v, nth_error (tdata t) idx = Some v ->
      let c := channel_of (tshape t) idx in
      let m := imagenet_channel_mean c in
      exists v', nth_error (tdata t') idx = Some v' /\
        if (c <? 3)%nat
        then v' = clamp (low - m) (high - m) v /\ low <= v' + m <= high
        else v' = v.
Proof.
  intros Hst Hsh Hch Hlh.
  destruct (clamp_channel_entries 0 (low - 103.939) (high - 103.939) t
              b ch h w Hsh ltac:(lia)) as (t1 & E1 & S1 & N1).
  destruct (clamp_channel_entries 1 (low - 116.779) (high - 116.779) t1
              b ch h w ltac:(congruence) ltac:(lia)) as (t2 & E2 & S2 & N2).
  destruct (clamp_channel_entries 2 (low - 123.680) (high - 123.680) t2
              b ch h w ltac:(congruence) ltac:(lia)) as (t3 & E3 & S3 & N3).
  exists t3. split; [ | split; [congruence | ]].
  - unfold imagenet_clamp_batch, mbind.
    rewrite (clamp_channel_st_ok _ _ _ st n d t t1 Hst E1).
    pose proof (nth_error_overwritten st n _ (On d (VTensor t1)) Hst) as Hst1.
    rewrite (clamp_channel_st_ok _ _ _ _ n d t1 t2 Hst1 E2).
    rewrite (overwritten_twice st n _ (On d (VTensor t1)) (On d (VTensor t2))
               Hst).
    pose proof (nth_error_overwritten st n _ (On d (VTensor t2)) Hst) as Hst2.
    rewrite (clamp_channel_st_ok _ _ _ _ n d t2 t3 Hst2 E3).
    rewrite (overwritten_twice st n _ (On d (VTensor t2)) (On d (VTensor t3))
               Hst).
    reflexivity.
  - intros idx v Hv c m.
    pose proof (N1 idx v Hv) as Hv1.
    pose proof (N2 idx _ Hv1) as Hv2.
    pose proof (N3 idx _ Hv2) as Hv3.
    rewrite S2, S1 in Hv3. rewrite S1 in Hv2. fold c in Hv1, Hv2, Hv3.
    eexists. split; [exact Hv3 | ].
    unfold m. destruct c as [ | [ | [ | c]]];
      cbn [Nat.eqb Nat.ltb Nat.leb imagenet_channel_mean].
    + split; [reflexivity | ].
      pose proof (clamp_range (low - 103.939) (high - 103.939) v). lra.
    + split; [reflexivity | ].
      pose proof (clamp_range (low - 116.779) (high - 116.779) v). lra.
    + split; [reflexivity | ].
      pose proof (clamp_range (low - 123.680) (high - 123.680) v). lra.
    + reflexivity.
Qed.

Lemma imagenet_clamp_batch_range_one_batch :
  exists t',
    imagenet_clamp_batch (Handle 0 []) 0 255 one_batch =
    (Ok tt,
     (firstn 0 one_batch ++ On CPU (VTensor t') :: skipn 1 one_batch)%list) /\
    tshape t' = tshape flat_batch /\
    forall idx v, nth_error (tdata flat_batch) idx = Some v ->
      let c := channel_of (tshape flat_batch) idx in
      let m := imagenet_channel_mean c in
      exists v', nth_error (tdata t') idx = Some v' /\
        if (c <? 3)%nat
        then v' = clamp (0 - m) (255 - m) v /\ 0 <= v' + m <= 255
        else v' = v.
Proof.
  apply (imagenet_clamp_batch_range one_batch 0 CPU flat_batch 1 3 1 1 0 255).
  - reflexivity.
  - reflexivity.
  - lia.
  - lra.
Defined.

(** X15.  On a (B, 2, H, W) tensor [imagenet_clamp_batch] raises at its third
    line, after it has clamped both channels in place: the caller is left
    with a modified batch. *)
Theorem imagenet_clamp_batch_two_channels (st : storage) (n : nat)
    (d : device) (t : tensor) (b h w : nat) (low high : R) :
  nth_error st n = Some (On d (VTensor t)) ->
  tshape t = [b; 2; h; w]%nat ->
  exists t',
    imagenet_clamp_batch (Handle n []) low high st =
    (Fail IndexError,
     (firstn n st ++ On d (VTensor t') :: skipn (S n) st)%list) /\
    forall idx v, nth_error (tdata t) idx = Some v ->
      let m := imagenet_channel_mean (channel_of (tshape t) idx) in
      nth_error (tdata t') idx = Some (clamp (low - m) (high - m) v).
Proof.
  intros Hst Hsh.
  destruct (clamp_channel_entries 0 (low - 103.939) (high - 103.939) t
              b 2 h w Hsh ltac:(lia)) as (t1 & E1 & S1 & N1).
  destruct (clamp_channel_entries 1 (low - 116.779) (high - 116.779) t1
              b 2 h w ltac:(congruence) ltac:(lia)) as (t2 & E2 & S2 & N2).
  pose proof (clamp_channel_out_of_range 2 (low - 123.680) (high - 123.680)
                t2 b 2 h w ltac:(congruence) ltac:(lia)) as E3.
  exists t2. split.
  - unfold imagenet_clamp_batch, mbind.
    rewrite (clamp_channel_st_ok _ _ _ st n d t t1 Hst E1).
    pose proof (nth_error_overwritten st n _ (On d (VTensor t1)) Hst) as Hst1.
    rewrite (clamp_channel_st_ok _ _ _ _ n d t1 t2 Hst1 E2).
    rewrite (overwritten_twice st n _ (On d (VTensor t1)) (On d (VTensor t2))
               Hst).
    pose proof (nth_error_overwritten st n _ (On d (VTensor t2)) Hst) as Hst2.
    rewrite (clamp_channel_st_fail _ _ _ _ n d t2 IndexError Hst2 E3).
    reflexivity.
  - intros idx v Hv m.
    pose proof (N1 idx v Hv) as Hv1.
    pose proof (N2 idx _ Hv1) as Hv2.
    rewrite S1 in Hv2. rewrite Hv2. unfold m.
    pose proof (channel_of_lt b 2 h w idx ltac:(lia)) as Hc.
    rewrite Hsh.
    destruct (channel_of [b; 2%nat; h; w] idx) as [ | [ | c]];
      [reflexivity | reflexivity | lia].
Qed.

Lemma imagenet_clamp_batch_two_channels_at_flat_batch2 :
  exists t',
    imagenet_clamp_batch (Handle 0 []) 0 255 [On CPU (VTensor flat_batch2)] =
    (Fail IndexError,
     (firstn 0 [On CPU (VTensor flat_batch2)] ++
      On CPU (VTensor t') :: skipn 1 [On CPU (VTensor flat_batch2)])%list) /\
    forall idx v, nth_error (tdata flat_batch2) idx = Some v ->
      let m := imagenet_channel_mean (channel_of (tshape flat_batch2) idx) in
      nth_error (tdata t') idx = Some (clamp (0 - m) (255 - m) v).
Proof.
  apply (imagenet_clamp_batch_two_channels
           [On CPU (VTensor flat_batch2)] 0 CPU flat_batch2 1 1 1 0 255).
  - reflexivity.
  - reflexivity.
Defined.

(** ** Saving images *)

Lemma clamp_id (lo hi v : R) : lo <= v <= hi -> clamp lo hi v = v.
Proof.
  intros H. unfold clamp.
  destruct (Rlt_dec v lo); [lra | ].
  destruct (Rlt_dec hi v); [lra | reflexivity].
Qed.

Lemma to_uint8_INR (n : nat) : to_uint8 (INR n) = n.
Proof. unfold to_uint8. rewrite Int_part_INR. apply Nat2Z.id. Qed.

Lemma to_uint8_byte (x : R) : 0 <= x <= 255 -> (to_uint8 x <= 255)%nat.
Proof.
  intros H. unfold to_uint8.
  destruct (base_Int_part x) as (Hlo & _).
  assert (Hz : (Int_part x <= 255)%Z) by (apply le_IZR; lra).
  lia.
Qed.

(** The byte written for an entry is its floor when the entry lies in
    [0, 255]. *)
Lemma to_uint8_floor (x : R) :
  0 <= x -> INR (to_uint8 x) <= x < INR (to_uint8 x) + 1.
Proof.
  intros H. unfold to_uint8.
  destruct (base_Int_part x) as (Hlo & Hhi).
  assert (Hz : (0 <= Int_part x)%Z).
  { apply Z.lt_succ_r. apply lt_IZR. rewrite succ_IZR. lra. }
  rewrite INR_IZR_INZ, Z2Nat.id by exact Hz. lra.
Qed.

(** X18.  [tensor_save_rgbimage] raises exactly for a tensor on the accelerator
    saved with [cuda=False].  Otherwise it hands PIL the file name and an
    array of shape (H, W, C) whose entries are bytes: 0 for an entry below 0,
    255 for an entry above 255, and the entry rounded down in between. *)
Theorem tensor_save_rgbimage_bytes (tensor : on (tensor3 R))
    (filename : string) (cuda : bool) :
  if negb cuda && device_eqb (dev tensor) CUDA
  then tensor_save_rgbimage tensor filename cuda = Fail DeviceError
  else exists img,
      tensor_save_rgbimage tensor filename cuda = Ok (filename, img) /\
      size0 img = size1 (val tensor) /\ size1 img = size2 (val tensor) /\
      size2 img = size0 (val tensor) /\
      forall y x c,
        let v := at3 (val tensor) c y x in
        (at3 img y x c <= 255)%nat /\
        (v < 0 -> at3 img y x c = 0%nat) /\
        (255 < v -> at3 img y x c = 255%nat) /\
        (0 <= v <= 255 ->
         INR (at3 img y x c) <= v < INR (at3 img y x c) + 1).
Proof.
  unfold tensor_save_rgbimage.
  destruct cuda, (dev tensor); cbn [negb andb device_eqb bind];
    try reflexivity.
  all: eexists; split; [reflexivity | ]; cbn [size0 size1 size2 at3].
  all: repeat split.
  all: try (apply to_uint8_byte, clamp_range; lra).
  all: try (intros Hv; unfold clamp;
            destruct (Rlt_dec (at3 (val tensor) c y x) 0); [ | lra];
            replace 0 with (INR 0) by reflexivity; apply to_uint8_INR).
  all: try (intros Hv; unfold clamp;
            destruct (Rlt_dec (at3 (val tensor) c y x) 0); [lra | ];
            destruct (Rlt_dec 255 (at3 (val tensor) c y x)); [ | lra];
            replace 255 with (INR 255) by (simpl; lra); apply to_uint8_INR).
  all: try (intros Hv; rewrite clamp_id by exact Hv;
            apply to_uint8_floor; lra).
  all: try (rewrite clamp_id by assumption; apply to_uint8_floor; lra).
Qed.

(** X19.  Saving what [tensor_load_rgbimage] loaded without resizing hands PIL
    the bytes of the image that was opened, in its (height, width, 3)
    layout. *)
Theorem save_after_load (image_open : string -> res pil_image)
    (resize : pil_image -> nat -> nat -> pil_image)
    (filename target : string) (img : pil_image) (t : tensor3 R) :
  image_open filename = Ok img -> rgb8 img ->
  tensor_load_rgbimage image_open resize filename None None false = Ok t ->
  exists arr,
    tensor_save_rgbimage (On CPU t) target false = Ok (target, arr) /\
    size0 arr = height img /\ size1 arr = width img /\ size2 arr = 3%nat /\
    forall y x c,
      (y < height img)%nat -> (x < width img)%nat -> (c < 3)%nat ->
      INR (at3 arr y x c) = pixel img y x c.
Proof.
  intros Hopen Hrgb Hload. unfold tensor_load_rgbimage in Hload.
  rewrite Hopen in Hload. cbn [bind] in Hload. injection Hload as <-.
  unfold tensor_save_rgbimage. cbn [dev val bind size0 size1 size2 at3].
  eexists. split; [reflexivity | ]. cbn [size0 size1 size2 at3].
  repeat split. intros y x c Hy Hx Hc.
  destruct (Hrgb y x c Hy Hx Hc) as (n & Hn & ->).
  rewrite clamp_id, to_uint8_INR; [reflexivity | ].
  split; [apply pos_INR | ].
  replace 255 with (INR 255) by (simpl; lra). apply le_INR. exact Hn.
Qed.

Lemma image_pixel_rgb8 : rgb8 image_pixel.
Proof.
  intros y x c _ _ Hc. exists (10 * (c + 1))%nat.
  split; [lia | reflexivity].
Qed.

Lemma save_after_load_pixel :
  exists arr,
    tensor_save_rgbimage
      (On CPU (T3 3 (height image_pixel) (width image_pixel)
                  (fun c y x => pixel image_pixel y x c)))
      "out.png" false = Ok ("out.png"%string, arr) /\
    size0 arr = height image_pixel /\ size1 arr = width image_pixel /\
    size2 arr = 3%nat /\
    forall y x c,
      (y < height image_pixel)%nat -> (x < width image_pixel)%nat ->
      (c < 3)%nat ->
      INR (at3 arr y x c) = pixel image_pixel y x c.
Proof.
  apply (save_after_load (fun _ => Ok image_pixel) (fun img _ _ => img)
           "in.png" "out.png" image_pixel).
  - reflexivity.
  - exact image_pixel_rgb8.
  - reflexivity.
Defined.

Lemma chunk3_three {A : Type} (t : tensor3 A) :
  size0 t = 3%nat ->
  chunk3 t 3 = Ok [narrow3 t 0 1; narrow3 t 1 1; narrow3 t 2 1].
Proof.
  intros H. unfold chunk3, split3. rewrite H. reflexivity.
Qed.

(** X20.  On a tensor with 3 channels [tensor_save_bgrimage] raises exactly when
    [tensor_save_rgbimage] does, and otherwise hands PIL the bytes of the
    channels in reverse order: channel [c] of the array is channel [2 - c]
    of the tensor. *)
Theorem tensor_save_bgrimage_reverses (tensor : on (tensor3 R))
    (filename : string) (cuda : bool) :
  size0 (val tensor) = 3%nat ->
  if negb cuda && device_eqb (dev tensor) CUDA
  then tensor_save_bgrimage tensor filename cuda = Fail DeviceError
  else exists img,
      tensor_save_bgrimage tensor filename cuda = Ok (filename, img) /\
      size0 img = size1 (val tensor) /\ size1 img = size2 (val tensor) /\
      size2 img = 3%nat /\
      forall y x c, (c < 3)%nat ->
        at3 img y x c =
        to_uint8 (clamp 0 255 (at3 (val tensor) (2 - c)%nat y x)).
Proof.
  intros H. unfold tensor_save_bgrimage. rewrite chunk3_three by exact H.
  cbn [bind]. unfold cat3, cat3_pair, narrow3. cbn [size0 size1 size2 at3].
  repeat first [ rewrite Nat.eqb_refl
               | progress cbn [andb bind size0 size1 size2 at3] ].
  unfold tensor_save_rgbimage. cbn [dev val].
  destruct cuda, (dev tensor); cbn [negb andb device_eqb bind];
    try reflexivity.
  all: eexists; split; [reflexivity | ]; cbn [size0 size1 size2 at3].
  all: repeat split.
  all: intros y x c Hc; destruct c as [ | [ | [ | c]]]; try lia; reflexivity.
Qed.

Lemma tensor_save_bgrimage_reverses_wide :
  exists img,
    tensor_save_bgrimage (On CPU tensor_wide) "out.png" false =
    Ok ("out.png"%string, img) /\
    size0 img = size1 tensor_wide /\ size1 img = size2 tensor_wide /\
    size2 img = 3%nat /\
    forall y x c, (c < 3)%nat ->
      at3 img y x c = to_uint8 (clamp 0 255 (at3 tensor_wide (2 - c)%nat y x)).
Proof.
  exact (tensor_save_bgrimage_reverses (On CPU tensor_wide) "out.png" false
           eq_refl).
Defined.

(** ** [StyleLoader.get] on any index *)

(** X21.  For every integer [i], negative ones included: on an empty folder
    [get(i)] raises ZeroDivisionError; otherwise it reads the file at
    position [i mod size()] of the listing, never raises IndexError, and
    reads the same file for [i] plus any multiple of [size()]. *)
Theorem get_filepath_any_index (self : StyleLoader) (i : Z) :
  match files self with
  | [] => get_filepath self i = Fail ZeroDivisionError
  | _ :: _ =>
      exists name,
        nth_error (files self) (Z.to_nat (i mod size self)) = Some name /\
        get_filepath self i = Ok (path_join (folder self) name) /\
        forall k : Z, get_filepath self (i + k * size self) =
                      get_filepath self i
  end.
Proof.
  destruct (files self) as [ | f fs] eqn:Hf.
  - unfold get_filepath. rewrite Hf. reflexivity.
  - unfold size. rewrite <- Hf.
    assert (Hn : (0 < Z.of_nat (length (files self)))%Z)
      by (rewrite Hf; simpl length; lia).
    set (n := Z.of_nat (length (files self))) in *.
    assert (Hr : (0 <= i mod n < n)%Z) by (apply Z.mod_pos_bound; exact Hn).
    destruct (py_index_in_range (files self) (i mod n)%Z Hr)
      as (name & Hnth & Hidx).
    exists name. split; [exact Hnth | ]. split.
    + unfold get_filepath. fold n. rewrite py_mod_pos by exact Hn.
      cbn [bind]. rewrite Hidx. reflexivity.
    + intros k. unfold get_filepath. fold n.
      rewrite !py_mod_pos by exact Hn. rewrite Z_mod_plus_full. reflexivity.
Qed.

(** X22.  Whenever [get] returns, the loader's flag decides the device of the
    result (and the accelerator exists if the flag is set), and the result
    is a batch of one image with 3 channels that holds the image read from
    the selected path, resized to the style size, with its red and blue
    channels swapped. *)
Theorem get_returns_bgr_batch (image_open : string -> res pil_image)
    (resize : pil_image -> nat -> nat -> pil_image)
    (cuda_is_available : bool) (self : StyleLoader) (i : Z)
    (style : on (tensor4 R)) :
  get image_open resize cuda_is_available self i = Ok style ->
  dev style = (if cuda self then CUDA else CPU) /\
  (cuda self = true -> cuda_is_available = true) /\
  exists path img,
    get_filepath self i = Ok path /\ image_open path = Ok img /\
    let img' := match style_size self with
                | Some n => resize img n n
                | None => img
                end in
    dim0 (val style) = 1%nat /\ dim1 (val style) = 3%nat /\
    dim2 (val style) = height img' /\ dim3 (val style) = width img' /\
    forall b j k l, (j < 3)%nat ->
      at4 (val style) b j k l = pixel img' k l (2 - j)%nat.
Proof.
  intros H. unfold get in H.
  destruct (get_filepath self i) as [path | e] eqn:Hp;
    cbn [bind] in H; [ | discriminate H].
  unfold tensor_load_rgbimage in H.
  destruct (image_open path) as [img | e] eqn:Hi;
    cbn [bind] in H; [ | discriminate H].
  set (img' := match style_size self with
               | Some n => resize img n n
               | None => img
               end).
  assert (Hl : match style_size self with
               | Some size => Ok (resize img size size)
               | None => Ok img
               end = Ok img')
    by (unfold img'; destruct (style_size self); reflexivity).
  rewrite Hl in H. cbn [bind] in H.
  match type of H with
  | context [preprocess_batch ?b] =>
      destruct (preprocess_batch_reverses b eq_refl)
        as (b1 & E & D0 & D1 & D2 & D3 & F)
  end.
  rewrite E in H. cbn [bind] in H. cbn [unsqueeze0 dim0 dim1 dim2 dim3 at4
    size0 size1 size2 at3] in D0, D1, D2, D3, F.
  assert (Hs : dev style = (if cuda self then CUDA else CPU) /\
               (cuda self = true -> cuda_is_available = true) /\
               val style = b1).
  { destruct (cuda self).
    - unfold to_cuda in H. destruct cuda_is_available;
        cbn [bind val dev] in H; [ | discriminate H].
      injection H as <-. cbn [dev val]. repeat split.
    - cbn [bind] in H. injection H as <-. cbn [dev val].
      repeat split; discriminate. }
  destruct Hs as (Hd & Hc & ->).
  split; [exact Hd | ]. split; [exact Hc | ].
  exists path, img. repeat split; assumption.
Qed.

Lemma get_returns_bgr_batch_loader3 :
  exists style,
    get (fun _ => Ok image_pixel) (fun img _ _ => img) false loader3 4 =
    Ok style /\
    dev style = (if cuda loader3 then CUDA else CPU) /\
    (cuda loader3 = true -> false = true) /\
    exists path img,
      get_filepath loader3 4 = Ok path /\
      (fun _ : string => Ok image_pixel) path = Ok img /\
      let img' := match style_size loader3 with
                  | Some n => (fun (img : pil_image) (_ _ : nat) => img) img n n
                  | None => img
                  end in
      dim0 (val style) = 1%nat /\ dim1 (val style) = 3%nat /\
      dim2 (val style) = height img' /\ dim3 (val style) = width img' /\
      forall b j k l, (j < 3)%nat ->
        at4 (val style) b j k l = pixel img' k l (2 - j)%nat.
Proof.
  eexists. split; [reflexivity | ].
  apply (get_returns_bgr_batch (fun _ => Ok image_pixel) (fun img _ _ => img)
           false loader3 4).
  reflexivity.
Defined.
